(** * SpendWatch PH: the conversation memory, the chat panel, the
    analytical query service and the API-key store, embedded in Rocq.

  Every definition below follows one function of the TypeScript sources:
  the zustand stores become records with explicit state passing, the
  asynchronous calls to external collaborators (the AI endpoint, the
  query engine) become oracle parameters or small list programs, and a
  rejected promise becomes the left injection of a sum type. A string is
  a sequence of the characters U+0000 to U+00FF (see [JsString]). *)

From Stdlib Require Import String Ascii List ZArith Lia Bool Arith PeanoNat.
From Stdlib Require Import DecimalString DecimalPos.
From Stdlib Require Import Sorting.Sorted Sorting.Permutation.
Import ListNotations.

Local Open Scope string_scope.
Local Open Scope list_scope.
Local Open Scope nat_scope.

(* ===================================================================== *)
(** ** JavaScript array and value helpers *)
(* ===================================================================== *)

Module Js.

(** [arr.slice(-n)] for a positive literal [n]: the last [n] elements,
    the whole array when it is shorter. *)
Definition slice_last {A : Type} (n : nat) (l : list A) : list A :=
  skipn (length l - n) l.

(** [arr.slice(0, -n)] for a positive literal [n]: everything but the
    last [n] elements. *)
Definition slice_drop_last {A : Type} (n : nat) (l : list A) : list A :=
  firstn (length l - n) l.

(** Truthiness of a [string | null]: [null] and the empty string are
    falsy. *)
Definition truthy (o : option string) : bool :=
  match o with
  | None => false
  | Some s => negb (String.eqb s EmptyString)
  end.

(** Truthiness of a [string | undefined] option field is the same. *)
Definition truthy_str (s : string) : bool :=
  negb (String.eqb s EmptyString).

(** The line feed of template literals. *)
Definition nl : string := String (ascii_of_nat 10) EmptyString.

(** [arr.join(sep)]. *)
Fixpoint join (sep : string) (l : list string) : string :=
  match l with
  | [] => EmptyString
  | [x] => x
  | x :: rest => (x ++ sep ++ join sep rest)%string
  end.

End Js.

(* ===================================================================== *)
(** ** Types (types/index.ts) and constants (utils/constants.ts) *)
(* ===================================================================== *)

Module Types.

(** [ChatMessage['role']]: the type admits ['system']. *)
Inductive Role : Type := user | assistant | system.

Definition Role_eqb (a b : Role) : bool :=
  match a, b with
  | user, user | assistant, assistant | system, system => true
  | _, _ => false
  end.

Definition Role_to_string (r : Role) : string :=
  match r with
  | user => "user"
  | assistant => "assistant"
  | system => "system"
  end.

Record Metadata : Type := mkMetadata {
  tokensUsed : option Z;
  processingTime : option Z;
  dataContext : option string
}.

Record ChatMessage : Type := mkChatMessage {
  id : string;
  role : Role;
  content : string;
  timestamp : Z;
  metadata : option Metadata
}.

End Types.

Module Constants.

(** [CLAUDE_API.MAX_CONTEXT_TOKENS]. *)
Definition MAX_CONTEXT_TOKENS : Z := 8000.

(** [UI_CONFIG.MAX_CHAT_HISTORY]. *)
Definition MAX_CHAT_HISTORY : nat := 50.

End Constants.

(* ===================================================================== *)
(** ** The chat store (stores/chatStore.ts) *)
(* ===================================================================== *)

Module ChatStore.
Import Types Constants.

Record ChatState : Type := mkChatState {
  messages : list ChatMessage;
  isLoading : bool;
  error : option string;
  conversationSummary : option string;
  totalTokensUsed : Z;
  sessionStarted : option Z
}.

(** What [generateId()] and [new Date()] return at one call: the two
    reads of the environment an action makes. *)
Record Stamp : Type := mkStamp {
  fresh_id : string;
  now : Z
}.

(** zustand's [set(partial)]: the named fields are replaced, the others
    kept. *)
Definition set_messages (ms : list ChatMessage) (st : ChatState) : ChatState :=
  mkChatState ms (isLoading st) (error st) (conversationSummary st)
              (totalTokensUsed st) (sessionStarted st).

Definition welcome_text : string :=
 ("Magandang araw! I'm SpendWatch AI, your intelligent assistant for exploring Philippine government procurement data."
  ++ Js.nl ++ Js.nl ++
  "I can help you with:" ++ Js.nl ++
  "- **Spending Analysis**: Understanding procurement patterns and trends" ++ Js.nl ++
  "- **Contract Search**: Finding specific contracts, agencies, or suppliers" ++ Js.nl ++
  "- **Data Insights**: Identifying anomalies or notable patterns" ++ Js.nl ++
  "- **Regulatory Context**: Explaining procurement thresholds and processes"
  ++ Js.nl ++ Js.nl ++
  "What would you like to explore today?")%string.

Definition cleared_text : string :=
 ("Conversation cleared. I'm ready to help you explore Philippine government procurement data again!"
  ++ Js.nl ++ Js.nl ++
  "What would you like to know?")%string.

(** The store as [create] builds it. *)
Definition initial_state (s : Stamp) : ChatState :=
  mkChatState
    [ mkChatMessage (fresh_id s) assistant welcome_text (now s) None ]
    false None None 0%Z (Some (now s)).

Definition newMessage (s : Stamp) (r : Role) (c : string)
           (md : option Metadata) : ChatMessage :=
  mkChatMessage (fresh_id s) r c (now s) md.

(** [addMessage(role, content, metadata)]. *)
Definition addMessage (s : Stamp) (r : Role) (c : string)
           (md : option Metadata) (st : ChatState) : ChatState :=
  let updatedMessages := messages st ++ [newMessage s r c md] in
  if MAX_CHAT_HISTORY <? length updatedMessages
  then set_messages (Js.slice_last MAX_CHAT_HISTORY updatedMessages) st
  else set_messages updatedMessages st.

(** [clearMessages()]. *)
Definition clearMessages (s : Stamp) (st : ChatState) : ChatState :=
  mkChatState
    [ mkChatMessage (fresh_id s) assistant cleared_text (now s) None ]
    (isLoading st) None None 0%Z (sessionStarted st).

Definition setLoading (loading : bool) (st : ChatState) : ChatState :=
  mkChatState (messages st) loading (error st) (conversationSummary st)
              (totalTokensUsed st) (sessionStarted st).

Definition setError (e : option string) (st : ChatState) : ChatState :=
  mkChatState (messages st) (isLoading st) e (conversationSummary st)
              (totalTokensUsed st) (sessionStarted st).

Definition updateSummary (summary : string) (st : ChatState) : ChatState :=
  mkChatState (messages st) (isLoading st) (error st) (Some summary)
              (totalTokensUsed st) (sessionStarted st).

Definition addTokenUsage (tokens : Z) (st : ChatState) : ChatState :=
  mkChatState (messages st) (isLoading st) (error st) (conversationSummary st)
              (totalTokensUsed st + tokens)%Z (sessionStarted st).

(** One entry of the list handed to the AI endpoint. The TypeScript
    cast [m.role as 'user' | 'assistant'] checks nothing at run time,
    so the entry carries whatever role the message has. *)
Record ApiMessage : Type := mkApiMessage {
  api_role : Role;
  api_content : string
}.

Definition is_api_role (m : ChatMessage) : bool :=
  Role_eqb (role m) user || Role_eqb (role m) assistant.

Definition api_entry (m : ChatMessage) : ApiMessage :=
  mkApiMessage (role m) (content m).

Definition summary_entry (summary : string) : ApiMessage :=
  mkApiMessage user ("[Previous conversation summary: " ++ summary ++ "]")%string.

(** [getMessagesForAPI()]. *)
Definition getMessagesForAPI (st : ChatState) : list ApiMessage :=
  let msgs := filter is_api_role (messages st) in
  match conversationSummary st with
  | Some summary =>
      if Js.truthy_str summary && (10 <? length msgs)
      then summary_entry summary :: map api_entry (Js.slice_last 6 msgs)
      else map api_entry (Js.slice_last 20 msgs)
  | None => map api_entry (Js.slice_last 20 msgs)
  end.

(** [totalTokensUsed > MAX_CONTEXT_TOKENS * 0.7]. The product
    8000 * 0.7 is the double 5600 exactly, and the token counter is a
    sum of integer counts, so the comparison is the exact one between
    ten times the counter and seven times the budget. *)
Definition over_token_fraction (used : Z) : bool :=
  (7 * MAX_CONTEXT_TOKENS <? 10 * used)%Z.

(** [shouldSummarize()]. *)
Definition shouldSummarize (st : ChatState) : bool :=
  (15 <? length (messages st))
  && (negb (Js.truthy (conversationSummary st))
      || over_token_fraction (totalTokensUsed st)).

(** One [addMessage] call of a run, with the environment it read. *)
Record AddCall : Type := mkAddCall {
  call_stamp : Stamp;
  call_role : Role;
  call_content : string;
  call_metadata : option Metadata
}.

Definition call_message (c : AddCall) : ChatMessage :=
  newMessage (call_stamp c) (call_role c) (call_content c) (call_metadata c).

Definition apply_call (st : ChatState) (c : AddCall) : ChatState :=
  addMessage (call_stamp c) (call_role c) (call_content c) (call_metadata c) st.

(** The store after a whole sequence of calls. *)
Definition run_calls (calls : list AddCall) (st : ChatState) : ChatState :=
  fold_left apply_call calls st.

(** The store after each call of the sequence, in order. *)
Fixpoint trace_calls (calls : list AddCall) (st : ChatState) : list ChatState :=
  match calls with
  | [] => []
  | c :: rest => apply_call st c :: trace_calls rest (apply_call st c)
  end.

End ChatStore.

(* ===================================================================== *)
(** ** Promises and the network *)
(* ===================================================================== *)

Module Async.
Import Types.

(** The JavaScript exceptions the modelled code can see, each with its
    message. *)
Inductive Thrown : Type :=
| Error (msg : string)
| TypeError (msg : string)
| SyntaxError (msg : string).

Definition message (e : Thrown) : string :=
  match e with
  | Error m | TypeError m | SyntaxError m => m
  end.

(** A settled promise: rejected with what was thrown, or fulfilled. *)
Definition Settled (A : Type) : Type := (Thrown + A)%type.

Definition resolve {A} (a : A) : Settled A := inr a.
Definition reject {A} (e : Thrown) : Settled A := inl e.

(** [await p; k]. *)
Definition bind {A B} (p : Settled A) (k : A -> Settled B) : Settled B :=
  match p with
  | inl e => inl e
  | inr a => k a
  end.

Notation "'await' x ':=' p 'in' k" :=
  (bind p (fun x => k))
    (at level 10, x name, p at level 100, k at level 200).

(** [try { p } catch (e) { h(e) }]. *)
Definition try_catch {A} (p : Settled A) (h : Thrown -> Settled A) : Settled A :=
  match p with
  | inl e => h e
  | inr a => inr a
  end.

(** [p.catch(() => d)]. *)
Definition catch_default {A} (p : Settled A) (d : A) : A :=
  match p with
  | inl _ => d
  | inr a => a
  end.

(** The part of a JSON body the code reads:
    [error.message], [content[0].text], [usage.input_tokens] and
    [usage.output_tokens]; each absent when the path is. *)
Record Body : Type := mkBody {
  error_message : option string;
  content_text : option string;
  input_tokens : option Z;
  output_tokens : option Z
}.

(** The object [{}]. *)
Definition empty_body : Body := mkBody None None None None.

(** A [fetch] response: the status line, and what [response.json()]
    settles to ([None]: the body is not JSON and the promise rejects
    with a SyntaxError). *)
Record Response : Type := mkResponse {
  status : nat;
  json_body : option Body
}.

(** [response.ok]. *)
Definition ok (r : Response) : bool :=
  (200 <=? status r) && (status r <=? 299).

(** [response.json()]. *)
Definition json (r : Response) : Settled Body :=
  match json_body r with
  | Some b => resolve b
  | None => reject (SyntaxError "Unexpected token in JSON")
  end.

(** A request to the messages endpoint: the key header and the fields
    of the body the callers set (the temperature in tenths). *)
Record Request : Type := mkRequest {
  req_apiKey : string;
  req_system : option string;
  req_messages : list (Role * string);
  req_max_tokens : nat;
  req_temperature_tenths : option nat;
  req_stream : bool
}.

(** What the network answers to a request: [fetch] settles to it. *)
Definition Endpoint : Type := Request -> Settled Response.

(** Decimal rendering of a status code inside a template literal. *)
Definition nat_to_string (n : nat) : string :=
  NilEmpty.string_of_uint (Nat.to_uint n).

End Async.

(* ===================================================================== *)
(** ** The Claude service (services/claudeService.ts) *)
(* ===================================================================== *)

Module ClaudeService.
Import Types Async.

Record ClaudeMessageParams : Type := mkParams {
  apiKey : string;
  p_messages : list (Role * string);
  systemPrompt : string;
  maxTokens : nat;
  temperature_tenths : nat
}.

Record Usage : Type := mkUsage { input : Z; output : Z }.

(** [x || d] on an optional string: the empty string is falsy too. *)
Definition or_string (x : option string) (d : string) : string :=
  match x with
  | Some s => if Js.truthy_str s then s else d
  | None => d
  end.

(** [x || 0] on an optional number. *)
Definition or_zero (x : option Z) : Z :=
  match x with
  | Some z => z
  | None => 0%Z
  end.

Definition api_error_text (r : Response) (errorData : Body) : string :=
  or_string (error_message errorData)
            ("API error: " ++ nat_to_string (status r))%string.

(** [sendClaudeMessage(params)]. *)
Definition sendClaudeMessage (net : Endpoint) (params : ClaudeMessageParams)
  : Settled (string * Usage) :=
  await response :=
    net (mkRequest (apiKey params) (Some (systemPrompt params))
                   (p_messages params) (maxTokens params)
                   (Some (temperature_tenths params)) false) in
  if negb (ok response)
  then
    let errorData := catch_default (json response) empty_body in
    reject (Error (api_error_text response errorData))
  else
    await data := json response in
    resolve (or_string (content_text data) EmptyString,
             mkUsage (or_zero (input_tokens data))
                     (or_zero (output_tokens data))).

(** [AI_SYSTEM_PROMPTS.SUMMARY_GENERATOR]. *)
Definition SUMMARY_GENERATOR : string :=
  "Summarize the following conversation concisely, preserving key facts, questions asked, and insights provided. Focus on procurement-related topics and any specific contracts or organizations discussed.".

(** One line of the transcript: the role, a colon, the content. *)
Definition transcript_line (m : ChatMessage) : string :=
  (Role_to_string (role m) ++ ": " ++ content m)%string.

(** [messages.map(...).join('\n\n')]. *)
Definition conversationText (messages : list ChatMessage) : string :=
  Js.join (Js.nl ++ Js.nl)%string (map transcript_line messages).

Definition summary_instruction : string :=
 ("Please summarize the following conversation about Philippine government procurement data. Focus on:"
  ++ Js.nl ++ "1. Key topics discussed"
  ++ Js.nl ++ "2. Specific contracts or organizations mentioned"
  ++ Js.nl ++ "3. Important insights or findings"
  ++ Js.nl ++ "4. Any follow-up questions or areas of interest"
  ++ Js.nl ++ Js.nl ++ "Conversation:" ++ Js.nl)%string.

(** The parameters [summarizeConversation] hands to
    [sendClaudeMessage]. *)
Definition summary_params (key : string) (messages : list ChatMessage)
  : ClaudeMessageParams :=
  mkParams key
           [ (user, (summary_instruction ++ conversationText messages)%string) ]
           SUMMARY_GENERATOR 500 3.

(** [summarizeConversation(apiKey, messages)]. *)
Definition summarizeConversation (net : Endpoint) (key : string)
           (messages : list ChatMessage) : Settled string :=
  await result := sendClaudeMessage net (summary_params key messages) in
  resolve (fst result).

(** How [streamClaudeMessage] ends: it calls [onComplete] with the
    accumulated text and the usage counts, or [onError]. The token
    callbacks in between only feed the panel's streaming display. *)
Inductive StreamEnd : Type :=
| Completed (fullResponse : string) (usage : Usage)
| Failed (err : Thrown).

End ClaudeService.

(* ===================================================================== *)
(** ** JavaScript string methods *)
(* ===================================================================== *)

Module JsString.

(** A string of the program is a sequence of UTF-16 code units. The
    model holds the units U+0000 to U+00FF, Basic Latin and the Latin-1
    Supplement, one [ascii] for each unit: the letters of English and
    Filipino text, the letters with Ñ and ñ among them. *)

(** The white space [trim] removes and [\s] matches: tab, line feed,
    vertical tab, form feed, carriage return, space and the no-break
    space U+00A0. *)
Definition is_space (c : ascii) : bool :=
  let n := nat_of_ascii c in
  (n =? 32) || ((9 <=? n) && (n <=? 13)) || (n =? 160).

Fixpoint trimStart (s : string) : string :=
  match s with
  | EmptyString => EmptyString
  | String c rest => if is_space c then trimStart rest else s
  end.

Fixpoint trimEnd (s : string) : string :=
  match s with
  | EmptyString => EmptyString
  | String c rest =>
      let t := trimEnd rest in
      if is_space c && String.eqb t EmptyString then EmptyString
      else String c t
  end.

(** [s.trim()]. *)
Definition trim (s : string) : string := trimEnd (trimStart s).

(** [s.startsWith(p)]. *)
Definition startsWith (p s : string) : bool := String.prefix p s.

(** [s.includes(p)]. *)
Fixpoint includes (p s : string) : bool :=
  String.prefix p s
  || match s with
     | EmptyString => false
     | String _ rest => includes p rest
     end.

(** [toLowerCase] on one code unit: A to Z (U+0041 to U+005A), À to Ö
    (U+00C0 to U+00D6) and Ø to Þ (U+00D8 to U+00DE) go to the unit 32
    further, which is their small letter; × (U+00D7) and every other
    unit stay. *)
Definition lower_unit (c : ascii) : ascii :=
  let n := nat_of_ascii c in
  if ((65 <=? n) && (n <=? 90))
     || ((192 <=? n) && (n <=? 214))
     || ((216 <=? n) && (n <=? 222))
  then ascii_of_nat (n + 32) else c.

(** [s.toLowerCase()]. *)
Fixpoint toLowerCase (s : string) : string :=
  match s with
  | EmptyString => EmptyString
  | String c rest => String (lower_unit c) (toLowerCase rest)
  end.

Definition quote : ascii := "'"%char.

(** [s.replace(/'/g, "''")]: every single quote is doubled. *)
Fixpoint escape_quotes (s : string) : string :=
  match s with
  | EmptyString => EmptyString
  | String c rest =>
      if Ascii.eqb c quote
      then String quote (String quote (escape_quotes rest))
      else String c (escape_quotes rest)
  end.

End JsString.

(** Text written in this development. A string literal holds the bytes
    of the UTF-8 text between its quotes, one [ascii] for each byte;
    [Latin1.text] gives the characters they encode, for text of the
    characters U+0000 to U+00FF: a byte below 128 is its character, and
    the two bytes of a longer character give its code. *)
Module Latin1.

Definition continuation (b : ascii) : bool :=
  let n := nat_of_ascii b in (128 <=? n) && (n <=? 191).

Fixpoint text (utf8 : string) : string :=
  match utf8 with
  | EmptyString => EmptyString
  | String b rest =>
      match rest with
      | String b2 rest2 =>
          if (nat_of_ascii b =? 194) && continuation b2
          then String b2 (text rest2)
          else if (nat_of_ascii b =? 195) && continuation b2
          then String (ascii_of_nat (nat_of_ascii b2 + 64)) (text rest2)
          else String b (text rest)
      | EmptyString => String b EmptyString
      end
  end.

End Latin1.

(* ===================================================================== *)
(** ** The chat panel (components/chat/ChatPanel.tsx) *)
(* ===================================================================== *)

Module ChatPanel.
Import Types Async ClaudeService ChatStore.

(** What one render of the panel read from the hooks: [handleSend]
    closes over these values, and a store update made while it runs
    does not change them. *)
Record Render : Type := mkRender {
  r_messages : list ChatMessage;
  r_isLoading : bool;
  r_apiKey : option string;
  r_isValidated : bool
}.

(** The chat store together with what the panel wrote to the
    console and whether it asked for the API-key modal. *)
Record World : Type := mkWorld {
  store : ChatState;
  console : list (string * Thrown);
  modal_opened : bool
}.

Definition with_store (f : ChatState -> ChatState) (w : World) : World :=
  mkWorld (f (store w)) (console w) (modal_opened w).

(** The render that shows store [st] to a user holding key [key]. *)
Definition render_of (st : ChatState) (key : option string)
           (validated : bool) : Render :=
  mkRender (messages st) (isLoading st) key validated.

(** The [onComplete] callback of [handleSend]. *)
Definition onComplete (net : Endpoint) (r : Render) (s : Stamp)
           (fullResponse : string) (usage : Usage) (w : World) : World :=
  let tokens := (input usage + output usage)%Z in
  let w1 := with_store
              (addMessage s assistant fullResponse
                          (Some (mkMetadata (Some tokens) None None))) w in
  let w2 := with_store (addTokenUsage tokens) w1 in
  let w3 := with_store (setLoading false) w2 in
  if shouldSummarize (store w3) && Js.truthy (r_apiKey r)
  then
    match r_apiKey r with
    | Some key =>
        match summarizeConversation net key (r_messages r) with
        | inr newSummary => with_store (updateSummary newSummary) w3
        | inl e =>
            mkWorld (store w3)
                    (console w3 ++ [("Failed to summarize conversation:", e)])
                    (modal_opened w3)
        end
    | None => w3
    end
  else w3.

(** The [onError] callback of [handleSend]. *)
Definition onError (err : Thrown) (w : World) : World :=
  with_store (setLoading false) (with_store (setError (Some (message err))) w).

(** The list [handleSend] sends to the streaming call. *)
Definition apiMessages (st : ChatState) (userMessage : string)
  : list (Role * string) :=
  map (fun m => (api_role m, api_content m)) (getMessagesForAPI st)
  ++ [ (user, userMessage) ].

(** [handleSend()]: [stream] says how the streaming call ends for the
    message list it is given, [net] answers the summarization
    request; [su] and [sa] are the environment reads of the two
    [addMessage] calls. *)
Definition handleSend (net : Endpoint)
           (stream : list (Role * string) -> StreamEnd)
           (r : Render) (inputValue : string) (su sa : Stamp)
           (w : World) : World :=
  if negb (Js.truthy_str (JsString.trim inputValue)) || r_isLoading r then w
  else if negb (Js.truthy (r_apiKey r)) || negb (r_isValidated r)
  then mkWorld (store w) (console w) true
  else
    let userMessage := JsString.trim inputValue in
    let w1 := with_store (addMessage su user userMessage None) w in
    let w2 := with_store (setLoading true) w1 in
    let w3 := with_store (setError None) w2 in
    match stream (apiMessages (store w3) userMessage) with
    | Completed fullResponse usage => onComplete net r sa fullResponse usage w3
    | Failed err => onError err w3
    end.

End ChatPanel.

(* ===================================================================== *)
(** ** The single-file application (App.tsx): the same operations as the
     services and stores, written a second time *)
(* ===================================================================== *)

Module App.
Import Types Async.

(** [MEMORY_CONFIG]. *)
Definition BUFFER_WINDOW_SIZE : nat := 8.
Definition SUMMARIZE_THRESHOLD : nat := 12.
Definition MAX_STORED_MESSAGES : nat := 50.

(** The messages [generateConversationSummary] puts in the transcript:
    [messages.slice(0, -MEMORY_CONFIG.BUFFER_WINDOW_SIZE)]. *)
Definition messagesToSummarize (messages : list ChatMessage)
  : list ChatMessage :=
  Js.slice_drop_last BUFFER_WINDOW_SIZE messages.

(** [validateApiKey(key)] of App.tsx: the body is never read. *)
Definition validateApiKey (net : Endpoint) (key : string) : bool :=
  match net (mkRequest key None [ (user, "Hi") ] 10 None false) with
  | inr response => ok response || (status response =? 429)
  | inl _ => false
  end.

End App.

(* ===================================================================== *)
(** ** The API-key store (stores/apiKeyStore.ts) *)
(* ===================================================================== *)

Module ApiKeyStore.
Import Types Async ClaudeService.

Record ApiKeyState : Type := mkApiKeyState {
  apiKey : option string;
  isValidated : bool;
  isValidating : bool;
  validationError : option string;
  lastValidated : option Z
}.

Definition initial_state : ApiKeyState :=
  mkApiKeyState None false false None None.

Definition invalid_key_text : string :=
  "Invalid API key. Please check and try again.".

Definition network_error_text : string :=
  "Network error. Please check your internet connection.".

(** The minimal request [validateApiKey] issues. *)
Definition probe (key : string) : Request :=
  mkRequest key None [ (user, "Hi") ] 10 None false.

(** [validateApiKey(key)]. *)
Definition validateApiKey (net : Endpoint) (key : string) : Settled bool :=
  try_catch
    (await response := net (probe key) in
     if ok response then resolve true
     else
       await errorData := json response in
       if status response =? 401
       then reject (Error invalid_key_text)
       else if status response =? 429
       then resolve true
       else reject (Error (api_error_text response errorData)))
    (fun error =>
       match error with
       | TypeError m =>
           if JsString.includes "fetch" m
           then reject (Error network_error_text)
           else reject error
       | _ => reject error
       end).

Definition dq : string := String (ascii_of_nat 34) EmptyString.

Definition bad_format_text : string :=
  ("Invalid API key format. Claude API keys start with "
     ++ dq ++ "sk-ant-" ++ dq)%string.

(** [setApiKey(key)]: the value the promise resolves to and the store
    it leaves; [now] is the [new Date()] of a successful validation. *)
Definition setApiKey (net : Endpoint) (now : Z) (key : string)
           (st : ApiKeyState) : bool * ApiKeyState :=
  let trimmedKey := JsString.trim key in
  if negb (Js.truthy_str trimmedKey)
  then (false, mkApiKeyState (apiKey st) (isValidated st) (isValidating st)
                             (Some "API key cannot be empty") (lastValidated st))
  else if negb (JsString.startsWith "sk-ant-" trimmedKey)
  then (false, mkApiKeyState (apiKey st) (isValidated st) (isValidating st)
                             (Some bad_format_text) (lastValidated st))
  else
    match validateApiKey net trimmedKey with
    | inr true =>
        (true, mkApiKeyState (Some trimmedKey) true false None (Some now))
    | inr false =>
        (false, mkApiKeyState (apiKey st) (isValidated st) false
                  (Some "API key validation failed. Please check your key.")
                  (lastValidated st))
    | inl error =>
        (false, mkApiKeyState (apiKey st) (isValidated st) false
                              (Some (message error)) (lastValidated st))
    end.

End ApiKeyStore.

(* ===================================================================== *)
(** ** The analytical query service (services/duckdbService.ts) *)
(* ===================================================================== *)

Module Sql.

(** One row of the [contracts] table, with the columns the modelled
    queries read. Text columns are nullable; a text is a sequence of
    characters, of which the model holds U+0000 to U+00FF as it does
    for the strings of the program. Amounts are exact integers here
    (the engine's column is a floating-point one), and the award date is
    the text the column shows. *)
Record ContractRow : Type := mkRow {
  award_title : option string;
  awardee_name : option string;
  organization_name : option string;
  area_of_delivery : option string;
  business_category : option string;
  contract_amount : Z;
  award_date : option string
}.

Inductive TextColumn : Type :=
| col_award_title | col_awardee_name | col_organization_name
| col_area_of_delivery | col_business_category.

Definition column_name (c : TextColumn) : string :=
  match c with
  | col_award_title => "award_title"
  | col_awardee_name => "awardee_name"
  | col_organization_name => "organization_name"
  | col_area_of_delivery => "area_of_delivery"
  | col_business_category => "business_category"
  end.

Definition column_value (c : TextColumn) (r : ContractRow) : option string :=
  match c with
  | col_award_title => award_title r
  | col_awardee_name => awardee_name r
  | col_organization_name => organization_name r
  | col_area_of_delivery => area_of_delivery r
  | col_business_category => business_category r
  end.

(** The value of the text between the quotes of a string literal:
    a doubled quote stands for one quote, and a quote on its own ends
    the literal too early, which makes the query malformed. *)
Fixpoint unquote (body : string) : option string :=
  match body with
  | EmptyString => Some EmptyString
  | String c rest =>
      if Ascii.eqb c JsString.quote
      then match rest with
           | String c2 rest2 =>
               if Ascii.eqb c2 JsString.quote
               then option_map (String JsString.quote) (unquote rest2)
               else None
           | EmptyString => None
           end
      else option_map (String c) (unquote rest)
  end.

(** [text LIKE pattern]: [%] matches any run of characters, [_] any
    one character, every other character itself. *)
Fixpoint like (pattern : string) : string -> bool :=
  match pattern with
  | EmptyString => fun text => String.eqb text EmptyString
  | String p pattern' =>
      if Ascii.eqb p "%"%char
      then fix any_run (text : string) : bool :=
             like pattern' text
             || match text with
                | EmptyString => false
                | String _ text' => any_run text'
                end
      else if Ascii.eqb p "_"%char
      then fun text =>
             match text with
             | EmptyString => false
             | String _ text' => like pattern' text'
             end
      else fun text =>
             match text with
             | EmptyString => false
             | String t text' => Ascii.eqb p t && like pattern' text'
             end
  end.

(** The lower-case mapping of one character in the engine: the small
    letter of a capital letter, every other character itself. Over
    U+0000 to U+00FF the capital letters are U+0041 to U+005A, U+00C0
    to U+00D6 and U+00D8 to U+00DE, each 32 before its small letter. *)
Definition lower_code_point (c : ascii) : ascii :=
  let n := nat_of_ascii c in
  if (65 <=? n) && (n <=? 90) then ascii_of_nat (n + 32)
  else if (192 <=? n) && (n <=? 222) && negb (n =? 215)
  then ascii_of_nat (n + 32)
  else c.

(** [LOWER(text)]: the text with each character mapped. *)
Fixpoint LOWER (s : string) : string :=
  match s with
  | EmptyString => EmptyString
  | String c rest => String (lower_code_point c) (LOWER rest)
  end.

(** The conditions [queryContracts] writes. A text condition holds the
    text it puts between the quotes of its literal; a date condition
    holds the text of the option, which is put between quotes as it
    is. *)
Inductive Cond : Type :=
| LowerLike (c : TextColumn) (literal : string)
| TextEq (c : TextColumn) (literal : string)
| AmountGe (bound : Z)
| AmountLe (bound : Z)
| DateGe (text : string)
| DateLe (text : string)
| Or3 (a b c : Cond).

(** 3-way disjunction of verdicts that are all known. *)
Definition or3 (a b c : option bool) : option bool :=
  match a, b, c with
  | Some x, Some y, Some z => Some (x || y || z)
  | _, _, _ => None
  end.

(** Whether the condition is TRUE on the row, when the model says: a
    NULL column makes a comparison NULL, which is not TRUE, and an OR is
    TRUE when one of its sides is. [None] is for what the model does not
    cover: a literal whose text does not read as one, and the two date
    conditions, whose text is not escaped (a quote in it changes the
    clause around it) and whose comparison depends on the type the
    loaded file gives the column. *)
Fixpoint holds (r : ContractRow) (c : Cond) : option bool :=
  match c with
  | LowerLike col l =>
      match unquote l with
      | Some pattern =>
          Some (match column_value col r with
                | Some v => like pattern (LOWER v)
                | None => false
                end)
      | None => None
      end
  | TextEq col l =>
      match unquote l with
      | Some lit =>
          Some (match column_value col r with
                | Some v => String.eqb v lit
                | None => false
                end)
      | None => None
      end
  | AmountGe b => Some (b <=? contract_amount r)%Z
  | AmountLe b => Some (contract_amount r <=? b)%Z
  | DateGe _ | DateLe _ => None
  | Or3 a b c => or3 (holds r a) (holds r b) (holds r c)
  end.

(** Whether every condition of the list is TRUE on the row, when the
    model says so of each. *)
Fixpoint all_hold (r : ContractRow) (cs : list Cond) : option bool :=
  match cs with
  | [] => Some true
  | c :: rest =>
      match holds r c, all_hold r rest with
      | Some b, Some b' => Some (b && b')
      | _, _ => None
      end
  end.

End Sql.

Module DuckDB.
Import Sql.

(** The options of [queryContracts] that shape its WHERE clause, the
    two amounts as whole numbers. *)
Record QueryOptions : Type := mkOptions {
  searchQuery : option string;
  area : option string;
  category : option string;
  minAmount : option Z;
  maxAmount : option Z;
  startDate : option string;
  endDate : option string
}.

(** [if (x) { conditions.push(f(x)) }] for an optional string: nothing
    is pushed when it is undefined or empty. *)
Definition when_truthy (x : option string) (f : string -> Cond) : list Cond :=
  match x with
  | Some s => if Js.truthy_str s then [f s] else []
  | None => []
  end.

(** [if (x !== undefined) { conditions.push(f(x)) }]. *)
Definition when_defined (x : option Z) (f : Z -> Cond) : list Cond :=
  match x with
  | Some z => [f z]
  | None => []
  end.

(** The literal of the three LIKE comparisons:
    [%${escaped.toLowerCase()}%]. *)
Definition search_literal (q : string) : string :=
  let escaped := JsString.escape_quotes q in
  ("%" ++ JsString.toLowerCase escaped ++ "%")%string.

Definition search_condition (q : string) : Cond :=
  Or3 (LowerLike col_award_title (search_literal q))
      (LowerLike col_awardee_name (search_literal q))
      (LowerLike col_organization_name (search_literal q)).

Definition area_condition (a : string) : Cond :=
  TextEq col_area_of_delivery (JsString.escape_quotes a).

Definition category_condition (c : string) : Cond :=
  TextEq col_business_category (JsString.escape_quotes c).

(** The [conditions] array of [queryContracts], in push order. *)
Definition conditions (o : QueryOptions) : list Cond :=
  when_truthy (searchQuery o) search_condition
  ++ when_truthy (area o) area_condition
  ++ when_truthy (category o) category_condition
  ++ when_defined (minAmount o) AmountGe
  ++ when_defined (maxAmount o) AmountLe
  ++ when_truthy (startDate o) DateGe
  ++ when_truthy (endDate o) DateLe.

Definition Z_to_string (z : Z) : string :=
  NilEmpty.string_of_int (Z.to_int z).

(** The text of one condition as the template literals write it. *)
Fixpoint render (c : Cond) : string :=
  match c with
  | LowerLike col l =>
      ("LOWER(" ++ column_name col ++ ") LIKE '" ++ l ++ "'")%string
  | TextEq col l => (column_name col ++ " = '" ++ l ++ "'")%string
  | AmountGe b => ("contract_amount >= " ++ Z_to_string b)%string
  | AmountLe b => ("contract_amount <= " ++ Z_to_string b)%string
  | DateGe text => ("award_date >= '" ++ text ++ "'")%string
  | DateLe text => ("award_date <= '" ++ text ++ "'")%string
  | Or3 a b c =>
      ("(" ++ Js.nl ++ "      " ++ render a ++ " OR"
           ++ Js.nl ++ "      " ++ render b ++ " OR"
           ++ Js.nl ++ "      " ++ render c
           ++ Js.nl ++ "    )")%string
  end.

(** [whereClause]. *)
Definition whereClause (o : QueryOptions) : string :=
  match conditions o with
  | [] => EmptyString
  | cs => ("WHERE " ++ Js.join " AND " (map render cs))%string
  end.

(** Whether the WHERE clause keeps the row: every condition is TRUE on
    it. [None] when a date option is given, which the model does not
    cover. *)
Definition satisfies (o : QueryOptions) (r : ContractRow) : option bool :=
  all_hold r (conditions o).

(** One row of a breakdown. *)
Record Aggregate : Type := mkAggregate {
  label : string;
  totalValue : Z;
  count : nat
}.

(** [WHERE col IS NOT NULL AND col != '']. *)
Definition labelled (key : ContractRow -> option string) (r : ContractRow) : bool :=
  match key r with
  | Some s => negb (String.eqb s EmptyString)
  | None => false
  end.

Definition has_label (key : ContractRow -> option string) (l : string)
           (r : ContractRow) : bool :=
  match key r with
  | Some s => String.eqb s l
  | None => false
  end.

Definition key_text (key : ContractRow -> option string) (r : ContractRow) : string :=
  match key r with
  | Some s => s
  | None => EmptyString
  end.

(** [SUM(contract_amount)]. *)
Definition SUM (rows : list ContractRow) : Z :=
  fold_right (fun r acc => (contract_amount r + acc)%Z) 0%Z rows.

(** [GROUP BY col] with [SUM(contract_amount)] and [COUNT( * )]: one
    row per distinct label. *)
Definition group_by (key : ContractRow -> option string)
           (rows : list ContractRow) : list Aggregate :=
  let kept := filter (labelled key) rows in
  map (fun l =>
         let members := filter (has_label key l) kept in
         mkAggregate l (SUM members) (length members))
      (nodup string_dec (map (key_text key) kept)).

(** [ORDER BY total_value DESC], as an insertion sort. *)
Fixpoint insert_desc (a : Aggregate) (l : list Aggregate) : list Aggregate :=
  match l with
  | [] => [a]
  | b :: rest =>
      if (totalValue b <? totalValue a)%Z
      then a :: b :: rest
      else b :: insert_desc a rest
  end.

Definition order_by_total_desc (l : list Aggregate) : list Aggregate :=
  fold_right insert_desc [] l.

(** The breakdown query with its [LIMIT]. *)
Definition breakdown (key : ContractRow -> option string) (limit : nat)
           (rows : list ContractRow) : list Aggregate :=
  firstn limit (order_by_total_desc (group_by key rows)).

(** [getCategoryBreakdown()]: [LIMIT 20]. *)
Definition getCategoryBreakdown (rows : list ContractRow) : list Aggregate :=
  breakdown business_category 20 rows.

(** [getAreaBreakdown()]: [LIMIT 30]. *)
Definition getAreaBreakdown (rows : list ContractRow) : list Aggregate :=
  breakdown area_of_delivery 30 rows.

End DuckDB.

(** The [DuckDBService] class of App.tsx. *)
Module AppDuckDB.
Import Sql DuckDB.

(** [getAreaBreakdown()] of App.tsx: [LIMIT 50]. *)
Definition getAreaBreakdown (rows : list ContractRow) : list Aggregate :=
  breakdown area_of_delivery 50 rows.

(** [getCategoryBreakdown()] of App.tsx: [LIMIT 20]. *)
Definition getCategoryBreakdown (rows : list ContractRow) : list Aggregate :=
  breakdown business_category 20 rows.

End AppDuckDB.

(** How the engine reads the text of a WHERE clause: first its tokens,
    a string literal being one token whatever its text, then the
    comparisons joined by AND, with OR inside parentheses. The reading
    is given for the comparisons the query service writes on the text
    columns and on the amount; any other clause is left unread. *)
Module Engine.
Import Sql.

Inductive Token : Type :=
| Word (w : string)
| Text (value : string)
| Number (z : Z)
| Open
| Close
| Ge
| Le
| Equals.

(** Where the reading of the characters stands: between tokens, in a
    word, in a string literal, after a quote met in a literal (the end
    of the literal, or the first of two quotes that stand for one), after
    a minus sign, in a number, after [>] or [<]. *)
Inductive State : Type :=
| Ready
| InWord (w : string)
| InText (value : string)
| QuoteSeen (value : string)
| Minus
| InNumber (negative : bool) (digits : string)
| Greater
| Less.

Definition is_digit (c : ascii) : bool :=
  let n := nat_of_ascii c in (48 <=? n) && (n <=? 57).

Definition is_word_start (c : ascii) : bool :=
  let n := nat_of_ascii c in
  ((65 <=? n) && (n <=? 90)) || ((97 <=? n) && (n <=? 122)) || (n =? 95).

Definition is_word_char (c : ascii) : bool := is_word_start c || is_digit c.

Definition is_blank (c : ascii) : bool :=
  let n := nat_of_ascii c in (n =? 32) || ((9 <=? n) && (n <=? 13)).

Definition snoc (s : string) (c : ascii) : string :=
  (s ++ String c EmptyString)%string.

(** The number a run of decimal digits stands for. *)
Definition number_value (negative : bool) (digits : string) : Z :=
  match NilEmpty.uint_of_string digits with
  | Some d => if negative then (- Z.of_uint d)%Z else Z.of_uint d
  | None => 0%Z
  end.

(** A character met between tokens. *)
Definition begin (c : ascii) : option (list Token * State) :=
  if is_blank c then Some ([], Ready)
  else if Ascii.eqb c "("%char then Some ([Open], Ready)
  else if Ascii.eqb c ")"%char then Some ([Close], Ready)
  else if Ascii.eqb c "="%char then Some ([Equals], Ready)
  else if Ascii.eqb c ">"%char then Some ([], Greater)
  else if Ascii.eqb c "<"%char then Some ([], Less)
  else if Ascii.eqb c JsString.quote then Some ([], InText EmptyString)
  else if Ascii.eqb c "-"%char then Some ([], Minus)
  else if is_digit c then Some ([], InNumber false (String c EmptyString))
  else if is_word_start c then Some ([], InWord (String c EmptyString))
  else None.

Definition emit (t : Token) (next : option (list Token * State))
  : option (list Token * State) :=
  match next with
  | Some (ts, st) => Some (t :: ts, st)
  | None => None
  end.

(** One character read: the tokens it completes and the next state.
    [None] when the character cannot stand there in the clauses that are
    read. *)
Definition step (st : State) (c : ascii) : option (list Token * State) :=
  match st with
  | Ready => begin c
  | InWord w =>
      if is_word_char c then Some ([], InWord (snoc w c))
      else emit (Word w) (begin c)
  | InText v =>
      if Ascii.eqb c JsString.quote then Some ([], QuoteSeen v)
      else Some ([], InText (snoc v c))
  | QuoteSeen v =>
      if Ascii.eqb c JsString.quote
      then Some ([], InText (snoc v JsString.quote))
      else emit (Text v) (begin c)
  | Minus =>
      if is_digit c then Some ([], InNumber true (String c EmptyString))
      else None
  | InNumber negative digits =>
      if is_digit c then Some ([], InNumber negative (snoc digits c))
      else if is_word_start c then None
      else emit (Number (number_value negative digits)) (begin c)
  | Greater => if Ascii.eqb c "="%char then Some ([Ge], Ready) else None
  | Less => if Ascii.eqb c "="%char then Some ([Le], Ready) else None
  end.

(** The characters of a text read one after the other. *)
Fixpoint run (st : State) (s : string) : option (list Token * State) :=
  match s with
  | EmptyString => Some ([], st)
  | String c rest =>
      match step st c with
      | Some (ts, st') =>
          match run st' rest with
          | Some (ts', st'') => Some (ts ++ ts', st'')
          | None => None
          end
      | None => None
      end
  end.

(** The token that the end of the text completes. A literal that is
    still open, and an operator cut short, are errors. *)
Definition finish (st : State) : option (list Token) :=
  match st with
  | Ready => Some []
  | InWord w => Some [Word w]
  | QuoteSeen v => Some [Text v]
  | InNumber negative digits => Some [Number (number_value negative digits)]
  | InText _ | Minus | Greater | Less => None
  end.

(** The tokens of a text. *)
Definition tokens (s : string) : option (list Token) :=
  match run Ready s with
  | Some (ts, st) => option_map (app ts) (finish st)
  | None => None
  end.

(** One comparison, as read: [LOWER(col) LIKE pattern], [col = value],
    [contract_amount >= bound], [contract_amount <= bound], with the
    values of the literals. *)
Inductive Test : Type :=
| Like (col : TextColumn) (pattern : string)
| Equal (col : TextColumn) (value : string)
| AtLeast (bound : Z)
| AtMost (bound : Z).

Definition text_column (name : string) : option TextColumn :=
  if String.eqb name "award_title" then Some col_award_title
  else if String.eqb name "awardee_name" then Some col_awardee_name
  else if String.eqb name "organization_name" then Some col_organization_name
  else if String.eqb name "area_of_delivery" then Some col_area_of_delivery
  else if String.eqb name "business_category" then Some col_business_category
  else None.

(** The comparison that a run of tokens is. *)
Definition test (ts : list Token) : option Test :=
  match ts with
  | [Word f; Open; Word name; Close; Word k; Text pattern] =>
      if String.eqb f "LOWER" && String.eqb k "LIKE"
      then option_map (fun col => Like col pattern) (text_column name)
      else None
  | [Word name; Equals; Text value] =>
      option_map (fun col => Equal col value) (text_column name)
  | [Word name; Ge; Number z] =>
      if String.eqb name "contract_amount" then Some (AtLeast z) else None
  | [Word name; Le; Number z] =>
      if String.eqb name "contract_amount" then Some (AtMost z) else None
  | _ => None
  end.

Definition is_word (w : string) (t : Token) : bool :=
  match t with
  | Word w' => String.eqb w' w
  | _ => false
  end.

(** The runs of tokens between the occurrences of a keyword. *)
Fixpoint split_at (w : string) (ts : list Token) : list (list Token) :=
  match ts with
  | [] => [[]]
  | t :: rest =>
      if is_word w t then [] :: split_at w rest
      else match split_at w rest with
           | piece :: pieces => (t :: piece) :: pieces
           | [] => [[t]]
           end
  end.

Fixpoint all_some {A : Type} (l : list (option A)) : option (list A) :=
  match l with
  | [] => Some []
  | Some x :: rest => option_map (cons x) (all_some rest)
  | None :: _ => None
  end.

(** The tokens before a closing parenthesis that ends the run. *)
Fixpoint before_close (ts : list Token) : option (list Token) :=
  match ts with
  | [] => None
  | [Close] => Some []
  | t :: rest => option_map (cons t) (before_close rest)
  end.

(** One operand of AND: a comparison, or comparisons joined by OR
    between parentheses. Its comparisons are alternatives. *)
Definition alternatives (ts : list Token) : option (list Test) :=
  match ts with
  | Open :: inner =>
      match before_close inner with
      | Some between => all_some (map test (split_at "OR" between))
      | None => None
      end
  | _ => option_map (fun t => [t]) (test ts)
  end.

(** The clause as read: the operands of AND, each with its
    alternatives. No clause at all is an empty conjunction. *)
Definition read (clause : string) : option (list (list Test)) :=
  match clause with
  | EmptyString => Some []
  | _ =>
      match tokens clause with
      | Some (Word w :: ts) =>
          if String.eqb w "WHERE"
          then all_some (map alternatives (split_at "AND" ts))
          else None
      | _ => None
      end
  end.

(** Whether a comparison is TRUE on a row. *)
Definition test_holds (r : ContractRow) (t : Test) : bool :=
  match t with
  | Like col pattern =>
      match column_value col r with
      | Some v => like pattern (LOWER v)
      | None => false
      end
  | Equal col value =>
      match column_value col r with
      | Some v => String.eqb v value
      | None => false
      end
  | AtLeast b => (b <=? contract_amount r)%Z
  | AtMost b => (contract_amount r <=? b)%Z
  end.

(** Whether a clause that was read keeps a row: each operand of AND has
    an alternative that is TRUE. *)
Definition keeps (operands : list (list Test)) (r : ContractRow) : bool :=
  forallb (existsb (test_holds r)) operands.

(** A text reads as some tokens: its characters leave a state that the
    end of the text completes. *)
Definition reads_as (text : string) (ks : list Token) : Prop :=
  exists front st back,
    run Ready text = Some (front, st)
    /\ finish st = Some back
    /\ front ++ back = ks.

(** Runs of tokens with a token between them. *)
Fixpoint between (sep : Token) (pieces : list (list Token)) : list Token :=
  match pieces with
  | [] => []
  | [k] => k
  | k :: rest => k ++ sep :: between sep rest
  end.

(** No AND among the tokens. *)
Definition no_and (k : list Token) : bool :=
  forallb (fun t => negb (is_word "AND" t)) k.

End Engine.

(** What the caller of [queryContracts] asks for with the options other
    than the dates, as comparisons on the values of the options
    themselves. *)
Module Asked.
Import Sql DuckDB Engine.

Definition of_text (x : option string) (f : string -> list Test)
  : list (list Test) :=
  match x with
  | Some s => if Js.truthy_str s then [f s] else []
  | None => []
  end.

Definition of_number (x : option Z) (f : Z -> list Test) : list (list Test) :=
  match x with
  | Some z => [f z]
  | None => []
  end.

(** The pattern of a search: the query in lower case, anything before
    and after it. *)
Definition search_pattern (q : string) : string :=
  ("%" ++ JsString.toLowerCase q ++ "%")%string.

Definition asked (o : QueryOptions) : list (list Test) :=
  of_text (searchQuery o)
          (fun q => [ Like col_award_title (search_pattern q);
                      Like col_awardee_name (search_pattern q);
                      Like col_organization_name (search_pattern q) ])
  ++ of_text (area o) (fun a => [Equal col_area_of_delivery a])
  ++ of_text (category o) (fun c => [Equal col_business_category c])
  ++ of_number (minAmount o) (fun z => [AtLeast z])
  ++ of_number (maxAmount o) (fun z => [AtMost z]).

(** The tokens of [LOWER(col) LIKE 'pattern'], and of the three of a
    search between parentheses. *)
Definition like_tokens (col : TextColumn) (pattern : string) : list Token :=
  [Word "LOWER"; Open; Word (column_name col); Close; Word "LIKE"; Text pattern].

Definition search_tokens (q : string) : list Token :=
  Open :: like_tokens col_award_title (search_pattern q)
       ++ Word "OR" :: like_tokens col_awardee_name (search_pattern q)
       ++ Word "OR" :: like_tokens col_organization_name (search_pattern q)
       ++ [Close].

(** A condition is written so that it reads back as the alternatives
    [g]: its text has tokens, none of them AND, that are [g]. *)
Definition written (c : Cond) (g : list Test) : Prop :=
  exists k, reads_as (render c) k /\ no_and k = true
            /\ alternatives k = Some g.


(** An amount option that JavaScript writes with all its digits: none,
    or a whole number that a double holds exactly. *)
Definition plain_amount (x : option Z) : Prop :=
  match x with
  | Some z => (Z.abs z <= 9007199254740991)%Z
  | None => True
  end.



End Asked.

(* ===================================================================== *)
(** ** Specification vocabulary *)
(* ===================================================================== *)

Module Spec.
Import Types ChatStore.

(** [Subseq l1 l2]: [l1] is [l2] with some elements left out, the
    others in their order. *)
Inductive Subseq {A : Type} : list A -> list A -> Prop :=
| Subseq_nil : Subseq [] []
| Subseq_keep : forall x l1 l2, Subseq l1 l2 -> Subseq (x :: l1) (x :: l2)
| Subseq_skip : forall x l1 l2, Subseq l1 l2 -> Subseq l1 (x :: l2).

(** A summary exists: one is stored and it is not the empty text. *)
Definition summary_exists (st : ChatState) : Prop :=
  exists s, conversationSummary st = Some s /\ s <> EmptyString.

(** The stored messages the AI endpoint accepts. *)
Definition eligible (st : ChatState) : list ChatMessage :=
  filter is_api_role (messages st).

(** The list built for the AI endpoint, read against a list [ms] of
    messages: with a summary and more than 10 messages in [ms], one
    leading user entry carrying the summary text and then the 6 most
    recent of [ms], 7 entries in all; otherwise the 20 most recent of
    [ms] and no summary entry. Either way the entries after the summary
    entry are stored messages in their stored order. *)
Definition api_list_of (st : ChatState) (ms : list ChatMessage) : Prop :=
  ((exists s,
       conversationSummary st = Some s /\ s <> EmptyString
       /\ 10 < length ms
       /\ getMessagesForAPI st
          = summary_entry s :: map api_entry (Js.slice_last 6 ms)
       /\ length (Js.slice_last 6 ms) = 6
       /\ length (getMessagesForAPI st) = 7)
   \/ (~ (summary_exists st /\ 10 < length ms)
       /\ getMessagesForAPI st = map api_entry (Js.slice_last 20 ms)
       /\ length (getMessagesForAPI st) = Nat.min 20 (length ms)
       /\ length (getMessagesForAPI st) <= 20))
  /\ (exists kept,
         Subseq kept (messages st)
         /\ (getMessagesForAPI st = map api_entry kept
             \/ exists s, getMessagesForAPI st
                          = summary_entry s :: map api_entry kept)).

(** The stores the actions produce from the initial one; [addMessage]
    takes the role user or assistant, as its signature says. *)
Inductive Reachable : ChatState -> Prop :=
| Reachable_initial : forall s, Reachable (initial_state s)
| Reachable_addMessage : forall s r c md st,
    r <> system -> Reachable st -> Reachable (addMessage s r c md st)
| Reachable_clearMessages : forall s st,
    Reachable st -> Reachable (clearMessages s st)
| Reachable_setLoading : forall b st,
    Reachable st -> Reachable (setLoading b st)
| Reachable_setError : forall e st,
    Reachable st -> Reachable (setError e st)
| Reachable_updateSummary : forall summary st,
    Reachable st -> Reachable (updateSummary summary st)
| Reachable_addTokenUsage : forall tokens st,
    Reachable st -> Reachable (addTokenUsage tokens st).

(** [q] occurs in [text]. *)
Definition occurs_in (q text : string) : Prop :=
  exists before after, text = (before ++ q ++ after)%string.

(** The capital letters among the characters U+0000 to U+00FF, and the
    small letter of each at the same place. *)
Definition capital_letters : string :=
  Latin1.text "ABCDEFGHIJKLMNOPQRSTUVWXYZÀÁÂÃÄÅÆÇÈÉÊËÌÍÎÏÐÑÒÓÔÕÖØÙÚÛÜÝÞ".

Definition small_letters : string :=
  Latin1.text "abcdefghijklmnopqrstuvwxyzàáâãäåæçèéêëìíîïðñòóôõöøùúûüýþ".

(** Whether [small] is the small letter of the capital letter
    [capital]. *)
Fixpoint case_pair (capitals smalls : string) (capital small : ascii) : bool :=
  match capitals, smalls with
  | String c capitals', String s smalls' =>
      (Ascii.eqb capital c && Ascii.eqb small s)
      || case_pair capitals' smalls' capital small
  | _, _ => false
  end.

(** Two characters that are the same when case is ignored: the same
    character, or a capital letter and its small letter. *)
Definition same_letter (a b : ascii) : bool :=
  Ascii.eqb a b
  || case_pair capital_letters small_letters a b
  || case_pair capital_letters small_letters b a.

(** Two texts that are the same when case is ignored. *)
Fixpoint same_ignoring_case (s t : string) : bool :=
  match s, t with
  | EmptyString, EmptyString => true
  | String a s', String b t' => same_letter a b && same_ignoring_case s' t'
  | _, _ => false
  end.

(** [q] occurs in [text] when case is ignored: a part of [text] is the
    same as [q] when case is ignored. *)
Definition occurs_ignoring_case (q text : string) : Prop :=
  exists before found after,
    text = (before ++ found ++ after)%string
    /\ same_ignoring_case q found = true.



(** The store once the assistant's reply is committed, before the
    summarization test of [onComplete]. *)
Definition committed (s : Stamp) (fullResponse : string)
           (usage : ClaudeService.Usage) (st : ChatState) : ChatState :=
  setLoading false
    (addTokenUsage (ClaudeService.input usage + ClaudeService.output usage)
       (addMessage s assistant fullResponse
          (Some (mkMetadata
                   (Some (ClaudeService.input usage
                          + ClaudeService.output usage)%Z) None None))
          st)).

(** The store once the user's message is committed and the panel has
    marked the request as in flight. *)
Definition sent (s : Stamp) (userMessage : string) (st : ChatState) : ChatState :=
  setError None (setLoading true (addMessage s user userMessage None st)).

(** [a] may stand before [b] in a list ordered by total, largest
    first. *)
Definition before_desc (a b : DuckDB.Aggregate) : Prop :=
  (DuckDB.totalValue b <= DuckDB.totalValue a)%Z.

(** What [GROUP BY] puts in a row: a label that is not empty, with the
    number and the sum of the rows that carry it. *)
Definition summarises (key : Sql.ContractRow -> option string)
           (rows : list Sql.ContractRow) (a : DuckDB.Aggregate) : Prop :=
  DuckDB.label a <> EmptyString
  /\ DuckDB.count a
     = length (filter (DuckDB.has_label key (DuckDB.label a)) rows)
  /\ DuckDB.totalValue a
     = DuckDB.SUM (filter (DuckDB.has_label key (DuckDB.label a)) rows)
  /\ 0 < DuckDB.count a.

(** The request of the summarization call for the messages [ms]. *)
Definition summary_request (key : string) (ms : list ChatMessage)
  : Async.Request :=
  Async.mkRequest key (Some ClaudeService.SUMMARY_GENERATOR)
    [ (user, (ClaudeService.summary_instruction
                ++ ClaudeService.conversationText ms)%string) ]
    500 (Some 3) false.

End Spec.

(* ===================================================================== *)
(** ** Concrete stores, datasets and responses *)
(* ===================================================================== *)

Module Examples.
Import Types ChatStore.

Definition stamp (n : nat) : Stamp :=
  mkStamp ("id-" ++ Async.nat_to_string n)%string (Z.of_nat n).

(** The [n]-th message of a sample conversation: the user speaks on
    even turns, the assistant on odd ones. *)
Definition turn (n : nat) : ChatMessage :=
  mkChatMessage ("id-" ++ Async.nat_to_string n)%string
                (if Nat.even n then user else assistant)
                ("turn " ++ Async.nat_to_string n)%string
                (Z.of_nat n) None.

Definition turns (n : nat) : list ChatMessage := map turn (seq 0 n).

(** A note with the ['system'] role, which [ChatMessage] admits. *)
Definition system_note : ChatMessage :=
  mkChatMessage "id-note" system "restored session" 100%Z None.

(** Eleven stored messages, one of them a system note, and a summary. *)
Definition store_with_note : ChatState :=
  mkChatState (turns 10 ++ [system_note]) false None
              (Some "earlier talk") 0%Z None.

(** Sixty calls of [addMessage], the user and the assistant in turn. *)
Definition sixty_calls : list AddCall :=
  map (fun n => mkAddCall (stamp n)
                          (if Nat.even n then user else assistant)
                          ("turn " ++ Async.nat_to_string n)%string None)
      (seq 1 60).

(** Sixteen stored messages and a summary of what came before. *)
Definition summarised_store : ChatState :=
  mkChatState (turns 16) false None (Some "earlier talk") 0%Z None.

(** Twelve stored messages and a token counter far over the budget. *)
Definition short_store : ChatState :=
  mkChatState (turns 12) false None (Some "earlier talk") 9000%Z None.

(** Sixteen stored messages, no summary yet, nothing in flight. *)
Definition long_store : ChatState :=
  mkChatState (turns 16) false None None 0%Z None.

Definition long_world : ChatPanel.World :=
  ChatPanel.mkWorld long_store [] false.

Definition long_render : ChatPanel.Render :=
  ChatPanel.render_of long_store (Some "sk-ant-sample") true.

(** A streaming call that completes with a short answer. *)
Definition answering (_ : list (Role * string)) : ClaudeService.StreamEnd :=
  ClaudeService.Completed "an answer" (ClaudeService.mkUsage 120 30).

(** An endpoint that answers 200 and returns, as its text, the content
    of the first message it was sent: the stored summary then shows
    what the summarization call was handed. *)
Definition echoing : Async.Endpoint :=
  fun req =>
    inr (Async.mkResponse 200
           (Some (Async.mkBody None
                    (match Async.req_messages req with
                     | (_, c) :: _ => Some c
                     | [] => None
                     end) None None))).

(** An endpoint that cannot be reached. *)
Definition unreachable : Async.Endpoint :=
  fun _ => inl (Async.TypeError "Failed to fetch").

(** An endpoint that answers every request with the given response. *)
Definition answering_with (r : Async.Response) : Async.Endpoint :=
  fun _ => inr r.

(** One turn on the long store when the summary cannot be fetched. *)
Definition failed_turn : ChatPanel.World :=
  ChatPanel.handleSend unreachable answering long_render
    "  What changed in 2023? " (stamp 16) (stamp 17) long_world.

(** The same turn when the endpoint echoes what it is sent. *)
Definition echoed_turn : ChatPanel.World :=
  ChatPanel.handleSend echoing answering long_render
    "  What changed in 2023? " (stamp 16) (stamp 17) long_world.

(** A dataset with one contract in each of [n] areas and categories,
    the [i]-th worth [i + 1]. *)
Definition one_per_label (n : nat) : list Sql.ContractRow :=
  map (fun i =>
         Sql.mkRow (Some "Road works") (Some "Acme Builders")
                   (Some "DPWH")
                   (Some ("area-" ++ Async.nat_to_string i)%string)
                   (Some ("category-" ++ Async.nat_to_string i)%string)
                   (Z.of_nat (i + 1)) (Some "2023-01-15"))
      (seq 0 n).

(** A rate-limit answer whose body is not JSON, as a gateway in front
    of the endpoint sends it. *)
Definition rate_limited_plain : Async.Response :=
  Async.mkResponse 429 None.

(** The provider's own rate-limit answer. *)
Definition rate_limited_json : Async.Response :=
  Async.mkResponse 429
    (Some (Async.mkBody (Some "Number of requests has exceeded your rate limit")
                        None None None)).

(** A contract delivered in Metro Manila. *)
Definition manila_contract : Sql.ContractRow :=
  Sql.mkRow (Some "Medical Supplies for COVID-19 Prevention")
            (Some "Acme Medical Trading") (Some "Department of Health")
            (Some "Metro Manila") (Some "Medical Supplies")
            1500000%Z (Some "2021-03-04").


Definition only_search (q : string) : DuckDB.QueryOptions :=
  DuckDB.mkOptions (Some q) None None None None None None.



End Examples.

(* ===================================================================== *)
(** ** The chat store: what is persisted (stores/chatStore.ts) *)
(* ===================================================================== *)

Module ChatStorePersist.
Import Types ChatStore.

(** What [partialize] keeps of the store. Storage holds it as JSON, so a
    timestamp comes back as text; nothing below reads timestamps. *)
Record Persisted : Type := mkPersisted {
  persisted_messages : list ChatMessage;
  persisted_summary : option string;
  persisted_tokens : Z
}.

(** The [partialize] option of [persist]. *)
Definition partialize (st : ChatState) : Persisted :=
  mkPersisted (Js.slice_last 20 (messages st))
              (conversationSummary st) (totalTokensUsed st).

(** The merge [persist] makes when the page loads: the persisted fields
    replace those of the freshly created store, the others stay. *)
Definition rehydrate (p : Persisted) (current : ChatState) : ChatState :=
  mkChatState (persisted_messages p) (isLoading current) (error current)
              (persisted_summary p) (persisted_tokens p)
              (sessionStarted current).

End ChatStorePersist.

(* ===================================================================== *)
(** ** The Claude service: the streaming call (services/claudeService.ts) *)
(* ===================================================================== *)

Module Stream.
Import Types Async ClaudeService.

(** What the loop reads of a parsed event: [type], [delta.text],
    [usage.output_tokens] and [message.usage.input_tokens]. *)
Record SseEvent : Type := mkSseEvent {
  ev_type : string;
  ev_delta_text : option string;
  ev_output_tokens : option Z;
  ev_input_tokens : option Z
}.

(** The body of a streaming response: the decoded chunks [reader.read()]
    yields, and how reading ends ([Some e]: a read rejects with [e] after
    the chunks; [None]: the stream is done). *)
Record StreamBody : Type := mkStreamBody {
  chunks : list string;
  read_failure : option Thrown
}.

Record StreamResponse : Type := mkStreamResponse {
  head : Response;
  body : option StreamBody
}.

Definition StreamEndpoint : Type := Request -> Settled StreamResponse.

(** The loop's variables, and the texts handed to [onToken] so far. *)
Record Progress : Type := mkProgress {
  fullResponse : string;
  inputTokens : Z;
  outputTokens : Z;
  emitted : list string
}.

Definition start : Progress := mkProgress EmptyString 0%Z 0%Z [].

(** [chunk.split('\n')]. *)
Fixpoint split_lines (s : string) : list string :=
  match s with
  | EmptyString => [EmptyString]
  | String c rest =>
      if Ascii.eqb c (ascii_of_nat 10)
      then EmptyString :: split_lines rest
      else match split_lines rest with
           | line :: others => String c line :: others
           | [] => [String c EmptyString]
           end
  end.

(** [s.slice(n)] for a literal [n] that is not negative. *)
Fixpoint drop (n : nat) (s : string) : string :=
  match n, s with
  | O, _ => s
  | S _, EmptyString => EmptyString
  | S m, String _ rest => drop m rest
  end.

(** [x || old] on an optional number: absent and zero are falsy. *)
Definition or_number (x : option Z) (old : Z) : Z :=
  match x with
  | Some z => if (z =? 0)%Z then old else z
  | None => old
  end.

Section WithParser.

(** [JSON.parse] on the data of one line, reduced to the fields the loop
    reads; [None] when it throws. *)
Variable JSON_parse : string -> option SseEvent.

(** The body of the loop over the lines of a chunk. *)
Definition on_line (p : Progress) (line : string) : Progress :=
  if JsString.startsWith "data: " line
  then
    let data := drop 6 line in
    if String.eqb data "[DONE]" then p
    else
      match JSON_parse data with
      | None => p
      | Some parsed =>
          let p1 :=
            if String.eqb (ev_type parsed) "content_block_delta"
            then
              let text := or_string (ev_delta_text parsed) EmptyString in
              mkProgress (fullResponse p ++ text)%string (inputTokens p)
                         (outputTokens p) (emitted p ++ [text])
            else p in
          let p2 :=
            if String.eqb (ev_type parsed) "message_delta"
            then mkProgress (fullResponse p1) (inputTokens p1)
                            (or_number (ev_output_tokens parsed) (outputTokens p1))
                            (emitted p1)
            else p1 in
          if String.eqb (ev_type parsed) "message_start"
          then mkProgress (fullResponse p2)
                          (or_number (ev_input_tokens parsed) 0%Z)
                          (outputTokens p2) (emitted p2)
          else p2
      end
  else p.

Definition on_chunk (p : Progress) (chunk : string) : Progress :=
  fold_left on_line (split_lines chunk) p.

Definition read_all (cs : list string) : Progress :=
  fold_left on_chunk cs start.

(** [streamClaudeMessage(params, callbacks)]: the texts given to
    [onToken], in order, and the callback the call ends with. *)
Definition streamClaudeMessage (net : StreamEndpoint)
           (params : ClaudeMessageParams) : list string * StreamEnd :=
  match net (mkRequest (apiKey params) (Some (systemPrompt params))
                       (p_messages params) (maxTokens params)
                       (Some (temperature_tenths params)) true) with
  | inl e => ([], Failed e)
  | inr response =>
      if negb (ok (head response))
      then
        let errorData := catch_default (json (head response)) empty_body in
        ([], Failed (Error (api_error_text (head response) errorData)))
      else
        match body response with
        | None => ([], Failed (Error "No response body"))
        | Some b =>
            let p := read_all (chunks b) in
            match read_failure b with
            | Some e => (emitted p, Failed e)
            | None =>
                (emitted p,
                 Completed (fullResponse p)
                           (mkUsage (inputTokens p) (outputTokens p)))
            end
        end
  end.

End WithParser.

End Stream.

(* ===================================================================== *)
(** ** The query service: distinct values (services/duckdbService.ts) *)
(* ===================================================================== *)

Module DuckDBValues.
Import Sql DuckDB.

(** The four columns [getDistinctValues] accepts. *)
Inductive FilterColumn : Type :=
| by_area | by_category | by_organization | by_awardee.

Definition filter_column (c : FilterColumn) (r : ContractRow) : option string :=
  match c with
  | by_area => area_of_delivery r
  | by_category => business_category r
  | by_organization => organization_name r
  | by_awardee => awardee_name r
  end.

(** [ORDER BY value]: text in the engine's binary order, as an insertion
    sort. *)
Fixpoint insert_text (v : string) (l : list string) : list string :=
  match l with
  | [] => [v]
  | w :: rest =>
      if String.leb v w then v :: w :: rest else w :: insert_text v rest
  end.

Definition order_by_value (l : list string) : list string :=
  fold_right insert_text [] l.

(** [getDistinctValues(column)]: [SELECT DISTINCT], [ORDER BY value],
    [LIMIT 500]. *)
Definition getDistinctValues (c : FilterColumn) (rows : list ContractRow)
  : list string :=
  let kept := filter (labelled (filter_column c)) rows in
  firstn 500
    (order_by_value (nodup string_dec (map (key_text (filter_column c)) kept))).

End DuckDBValues.

(* ===================================================================== *)
(** ** More specification vocabulary and samples *)
(* ===================================================================== *)

Module Props.
Import Types ChatStore.

(** The texts of a list, one after the other. *)
Definition concat_all (l : list string) : string :=
  fold_right String.append EmptyString l.

(** An optional text option imposes no condition. *)
Definition unset (x : option string) : Prop :=
  x = None \/ x = Some EmptyString.

(** The sum of the counts of a breakdown. *)
Definition grand_count (l : list DuckDB.Aggregate) : nat :=
  fold_right (fun a acc => DuckDB.count a + acc) 0 l.

End Props.

Module Samples.
Import Types ChatStore.

(** A parser that reads the data of a line as the text of a content
    delta. *)
Definition text_parser (data : string) : option Stream.SseEvent :=
  Some (Stream.mkSseEvent "content_block_delta" (Some data) None None).

(** A streaming endpoint that answers 200 with the given chunks. *)
Definition streaming (cs : list string) : Stream.StreamEndpoint :=
  fun _ => inr (Stream.mkStreamResponse (Async.mkResponse 200 None)
                  (Some (Stream.mkStreamBody cs None))).

Definition sample_params : ClaudeService.ClaudeMessageParams :=
  ClaudeService.mkParams "sk-ant-sample" [ (user, "Hi") ] "Be brief." 1024 7.

(** Two chunks, three data lines. *)
Definition sample_chunks : list string :=
  [ ("data: Mag" ++ Js.nl ++ "data: anda" ++ Js.nl)%string;
    ("event: ping" ++ Js.nl ++ "data: ng araw")%string ].

(** An answer of the provider to a request it refuses. *)
Definition overloaded : Async.Response :=
  Async.mkResponse 529
    (Some (Async.mkBody (Some "Overloaded") None None None)).

(** A store that already holds a validated key. *)
Definition keyed_store : ApiKeyStore.ApiKeyState :=
  ApiKeyStore.mkApiKeyState (Some "sk-ant-old") true false None (Some 5%Z).

(** A streaming call that fails. *)
Definition failing (_ : list (Role * string)) : ClaudeService.StreamEnd :=
  ClaudeService.Failed (Async.Error "Overloaded").

(** Options whose texts hold quotes and words of the query language. *)
Definition quoted_options : DuckDB.QueryOptions :=
  DuckDB.mkOptions (Some "O'Brien AND Sons") (Some "Manila' OR '1'='1") None
                   (Some (-5)%Z) (Some 1000000%Z) None None.

(** A contract none of whose text columns is filled in. *)
Definition blank_contract : Sql.ContractRow :=
  Sql.mkRow None None None None None 10%Z None.

End Samples.

(* ===================================================================== *)
(** ** The single-file application: the running summary (App.tsx) *)
(* ===================================================================== *)

Module AppMemory.
Import Types Async ClaudeService.

(** The text of the one message [generateConversationSummary] sends. *)
Definition summary_prompt (ms : list ChatMessage) : string :=
  ("Summarize this conversation about Philippine government procurement in 2-3 sentences. Focus on: topics discussed, any specific provinces/agencies/suppliers mentioned, and key insights shared."
   ++ Js.nl ++ Js.nl ++ "Conversation:" ++ Js.nl
   ++ conversationText ms
   ++ Js.nl ++ Js.nl ++ "Summary:")%string.

Definition summary_request (key : string) (ms : list ChatMessage) : Request :=
  mkRequest key None [ (user, summary_prompt ms) ] 300 None false.

(** [generateConversationSummary(messages)]; [key] is the [apiKey] state
    and [summary] the stored [conversationMemory.summary]. *)
Definition generateConversationSummary (net : Endpoint) (key summary : string)
           (messages : list ChatMessage) : string :=
  if negb (Js.truthy_str key) || (length messages <? 4) then EmptyString
  else
    let messagesToSummarize := App.messagesToSummarize messages in
    if length messagesToSummarize <? 2 then summary
    else
      match net (summary_request key messagesToSummarize) with
      | inl _ => summary
      | inr response =>
          if negb (ok response) then summary
          else
            match json response with
            | inl _ => summary
            | inr data => or_string (content_text data) summary
            end
      end.

End AppMemory.

(* ===================================================================== *)
(** ** Helpers and formatters (utils/helpers.ts, utils/formatters.ts) *)
(* ===================================================================== *)

Module Helpers.

(** [arr.slice(start, end)] for integer arguments: a negative index
    counts from the end, and both are clamped to the array. *)
Definition slice {A : Type} (start stop : Z) (l : list A) : list A :=
  let len := Z.of_nat (length l) in
  let k := if (start <? 0)%Z then Z.max (len + start) 0 else Z.min start len in
  let final := if (stop <? 0)%Z then Z.max (len + stop) 0 else Z.min stop len in
  firstn (Z.to_nat (final - k)) (skipn (Z.to_nat k) l).

(** The result of [paginate]. [totalPages] is [None] when the division
    by the page size is not a number or not finite (page size zero). *)
Record Page (A : Type) : Type := mkPage {
  items : list A;
  totalPages : option Z;
  totalItems : nat
}.

Arguments items {A} _.
Arguments totalPages {A} _.
Arguments totalItems {A} _.

(** [Math.ceil(a / b)] for integers [a] and [b], [b] not zero. *)
Definition ceil_div (a b : Z) : Z := (- ((- a) / b))%Z.

(** [paginate(array, page, pageSize)], for an integer page and page
    size. *)
Definition paginate {A : Type} (array : list A) (page pageSize : Z) : Page A :=
  let totalItems := length array in
  let totalPages :=
    if (pageSize =? 0)%Z then None
    else Some (ceil_div (Z.of_nat totalItems) pageSize) in
  let start := ((page - 1) * pageSize)%Z in
  mkPage A (slice start (start + pageSize) array) totalPages totalItems.

End Helpers.

Module Formatters.

(** [s.slice(start, end)] on text, as [Helpers.slice] on arrays. *)
Definition slice (start stop : Z) (s : string) : string :=
  let len := Z.of_nat (String.length s) in
  let k := if (start <? 0)%Z then Z.max (len + start) 0 else Z.min start len in
  let final := if (stop <? 0)%Z then Z.max (len + stop) 0 else Z.min stop len in
  String.substring (Z.to_nat k) (Z.to_nat (final - k)) s.

(** [truncateText(text, maxLength)], for an integer [maxLength]. *)
Definition truncateText (text : string) (maxLength : Z) : string :=
  if (Z.of_nat (String.length text) <=? maxLength)%Z then text
  else (slice 0 (maxLength - 3) text ++ "...")%string.

End Formatters.

(* ===================================================================== *)
(** ** Helpers: searching the loaded contracts (utils/helpers.ts) *)
(* ===================================================================== *)

Module ContractSearch.

Inductive AwardStatus : Type := active | completed | cancelled | pending.

(** [ProcurementContract] (types/index.ts), amounts as integers. *)
Record ProcurementContract : Type := mkContract {
  id : string;
  referenceId : string;
  contractNo : string;
  awardTitle : string;
  noticeTitle : string;
  awardeeName : string;
  organizationName : string;
  areaOfDelivery : string;
  businessCategory : string;
  contractAmount : Z;
  awardDate : string;
  awardStatus : AwardStatus
}.

(** [s.split(/\s+/)]: the pieces between the runs of white space, an empty piece before a leading
    run and after a trailing one. [gap] says that the character before
    was white space. *)
Fixpoint split_from (gap : bool) (s : string) : list string :=
  match s with
  | EmptyString => [EmptyString]
  | String c rest =>
      if JsString.is_space c
      then if gap then split_from true rest
           else EmptyString :: split_from true rest
      else match split_from false rest with
           | piece :: pieces => String c piece :: pieces
           | [] => [String c EmptyString]
           end
  end.

Definition split_spaces (s : string) : list string := split_from false s.

(** [query.toLowerCase().split(/\s+/).filter(Boolean)]. *)
Definition searchTerms (query : string) : list string :=
  filter Js.truthy_str (split_spaces (JsString.toLowerCase query)).

(** The six fields joined by a space, in lower case. *)
Definition searchableText (c : ProcurementContract) : string :=
  JsString.toLowerCase
    (Js.join " " [ awardTitle c; noticeTitle c; awardeeName c;
                   organizationName c; areaOfDelivery c; businessCategory c ]).

Definition matches (terms : list string) (c : ProcurementContract) : bool :=
  forallb (fun term => JsString.includes term (searchableText c)) terms.

(** [searchContracts(contracts, query)]. *)
Definition searchContracts (contracts : list ProcurementContract)
           (query : string) : list ProcurementContract :=
  if negb (Js.truthy_str (JsString.trim query)) then contracts
  else filter (matches (searchTerms query)) contracts.

End ContractSearch.

(** What a search asks of a contract, in the words of its users. *)
Module SearchProps.
Import ContractSearch.

(** The words of a query: its pieces between white space. *)
Definition words (query : string) : list string :=
  filter Js.truthy_str (split_spaces query).

(** The six fields of a contract that are searched, a space between
    them. *)
Definition searched_text (c : ProcurementContract) : string :=
  Js.join " " [ awardTitle c; noticeTitle c; awardeeName c;
                organizationName c; areaOfDelivery c; businessCategory c ].

(** Every word of the query occurs in the searched text of the
    contract, case ignored. *)
Definition mentions_all (query : string) (c : ProcurementContract) : Prop :=
  Forall (fun w => Spec.occurs_ignoring_case w (searched_text c))
         (words query).

End SearchProps.

Module SearchSamples.

(** Two loaded contracts. *)
Definition road_contract : ContractSearch.ProcurementContract :=
  ContractSearch.mkContract "1" "R-1" "C-1" "Road Repair" "Repair of roads"
    "Acme Builders" "DPWH" "Cebu" "Construction" 500000%Z "2023-01-15"
    ContractSearch.active.

Definition vaccine_contract : ContractSearch.ProcurementContract :=
  ContractSearch.mkContract "2" "R-2" "C-2" "COVID-19 Vaccines" "Vaccines"
    "Acme Medical" "Department of Health" "Metro Manila" "Medical Supplies"
    900000%Z "2021-03-04" ContractSearch.completed.

End SearchSamples.

(* ===================================================================== *)
(** ** Facts about array slices *)
(* ===================================================================== *)

Section SliceFacts.
Context {A : Type}.
Implicit Types (l : list A) (n : nat).

Lemma slice_last_length n l :
  length (Js.slice_last n l) = Nat.min n (length l).
Proof. unfold Js.slice_last. rewrite length_skipn. lia. Qed.

Lemma slice_last_short n l :
  length l <= n -> Js.slice_last n l = l.
Proof.
  intros H. unfold Js.slice_last.
  replace (length l - n) with 0 by lia. reflexivity.
Qed.

Lemma slice_last_split n l :
  l = firstn (length l - n) l ++ Js.slice_last n l.
Proof. unfold Js.slice_last. now rewrite firstn_skipn. Qed.

Lemma slice_last_app_absorb n l l' :
  Js.slice_last n (Js.slice_last n l ++ l') = Js.slice_last n (l ++ l').
Proof.
  unfold Js.slice_last.
  set (k := length l - n).
  rewrite <- (firstn_skipn k l) at 3 4.
  rewrite <- app_assoc.
  rewrite !length_app, length_skipn.
  assert (Hk : length (firstn k l) = k) by (rewrite length_firstn; lia).
  rewrite Hk.
  rewrite (skipn_app (k + (length l - k + length l') - n)).
  rewrite Hk.
  rewrite (skipn_all2 (firstn k l)) by (rewrite Hk; lia).
  simpl. f_equal. lia.
Qed.

Lemma slice_last_subseq n l : Spec.Subseq (Js.slice_last n l) l.
Proof.
  unfold Js.slice_last. generalize (length l - n) as k.
  induction l as [|x l IH]; intros [|k]; simpl.
  - constructor.
  - constructor.
  - constructor. apply (IH 0).
  - constructor. apply IH.
Qed.

Lemma filter_subseq (f : A -> bool) l : Spec.Subseq (filter f l) l.
Proof.
  induction l as [|x l IH]; simpl.
  - constructor.
  - destruct (f x); now constructor.
Qed.

Lemma subseq_trans l1 l2 l3 :
  Spec.Subseq l1 l2 -> Spec.Subseq l2 l3 -> Spec.Subseq l1 l3.
Proof.
  intros H12 H23. revert l1 H12.
  induction H23 as [|x l2 l3 _ IH|x l2 l3 _ IH]; intros l1 H12.
  - exact H12.
  - inversion H12; subst.
    + constructor. now apply IH.
    + apply Spec.Subseq_skip. now apply IH.
  - apply Spec.Subseq_skip. now apply IH.
Qed.

Lemma subseq_In l1 l2 x : Spec.Subseq l1 l2 -> In x l1 -> In x l2.
Proof.
  induction 1 as [|y l1 l2 _ IH|y l1 l2 _ IH]; simpl; intuition.
Qed.

End SliceFacts.

(* ===================================================================== *)
(** ** The chat store: retention, trigger, clearing *)
(* ===================================================================== *)

Section ChatStoreFacts.
Import Types Constants ChatStore.

Lemma addMessage_messages s r c md st :
  messages (addMessage s r c md st)
  = Js.slice_last MAX_CHAT_HISTORY (messages st ++ [newMessage s r c md]).
Proof.
  unfold addMessage.
  destruct (Nat.ltb_spec MAX_CHAT_HISTORY
              (length (messages st ++ [newMessage s r c md]))) as [Hgt|Hle];
    simpl.
  - reflexivity.
  - symmetry. now apply slice_last_short.
Qed.

Lemma addMessage_length s r c md st :
  length (messages (addMessage s r c md st)) <= MAX_CHAT_HISTORY.
Proof. rewrite addMessage_messages, slice_last_length. lia. Qed.

Lemma addMessage_frame s r c md st :
  isLoading (addMessage s r c md st) = isLoading st
  /\ error (addMessage s r c md st) = error st
  /\ conversationSummary (addMessage s r c md st) = conversationSummary st
  /\ totalTokensUsed (addMessage s r c md st) = totalTokensUsed st
  /\ sessionStarted (addMessage s r c md st) = sessionStarted st.
Proof. unfold addMessage. destruct (_ <? _); simpl; auto. Qed.

Lemma trace_calls_bounded calls : forall st,
  Forall (fun s => length (messages s) <= MAX_CHAT_HISTORY)
         (trace_calls calls st).
Proof.
  induction calls as [|c calls IH]; intros st; simpl; constructor.
  - apply addMessage_length.
  - apply IH.
Qed.

Lemma run_calls_messages calls : forall st,
  calls <> [] ->
  messages (run_calls calls st)
  = Js.slice_last MAX_CHAT_HISTORY (messages st ++ map call_message calls).
Proof.
  induction calls as [|c calls IH]; intros st Hne; [congruence|].
  destruct calls as [|c' calls].
  - simpl. apply addMessage_messages.
  - change (run_calls (c :: c' :: calls) st)
      with (run_calls (c' :: calls) (apply_call st c)).
    rewrite IH by discriminate.
    unfold apply_call at 1. rewrite addMessage_messages.
    rewrite slice_last_app_absorb, <- app_assoc. reflexivity.
Qed.

Lemma trace_calls_last_nonempty calls : forall st d,
  calls <> [] -> last (trace_calls calls st) d = run_calls calls st.
Proof.
  induction calls as [|c calls IH]; intros st d Hne; [congruence|].
  destruct calls as [|c' calls]; [reflexivity|].
  change (run_calls (c :: c' :: calls) st)
    with (run_calls (c' :: calls) (apply_call st c)).
  rewrite <- (IH (apply_call st c) d) by discriminate.
  reflexivity.
Qed.

Lemma trace_calls_last calls st :
  last (trace_calls calls st) st = run_calls calls st.
Proof.
  destruct calls as [|c calls]; [reflexivity|].
  now apply trace_calls_last_nonempty.
Qed.

(** C1. Whatever the store holds and whatever calls of [addMessage]
    follow (any role, any content, any metadata), every call returns a
    store, and the store after each call holds at most
    MAX_CHAT_HISTORY = 50 messages. Each call keeps exactly the most
    recent 50 of the old messages followed by the new one, so what is
    left out is a prefix of the oldest messages, and after a whole run
    the store holds the most recent 50 of the old messages followed by
    the appended ones, in order. *)
Theorem addMessage_keeps_most_recent_50 :
  forall (calls : list AddCall) (st : ChatState),
    MAX_CHAT_HISTORY = 50
    /\ Forall (fun s => length (messages s) <= 50) (trace_calls calls st)
    /\ last (trace_calls calls st) st = run_calls calls st
    /\ (forall c s,
           exists evicted,
             messages s ++ [call_message c]
             = evicted ++ messages (apply_call s c)
             /\ length evicted = length (messages s ++ [call_message c]) - 50
             /\ messages (apply_call s c)
                = Js.slice_last 50 (messages s ++ [call_message c]))
    /\ (calls <> [] ->
        messages (run_calls calls st)
        = Js.slice_last 50 (messages st ++ map call_message calls)).
Proof.
  intros calls st. split; [reflexivity|]. split; [|split; [|split]].
  - apply trace_calls_bounded.
  - apply trace_calls_last.
  - intros c s.
    exists (firstn (length (messages s ++ [call_message c]) - 50)
                   (messages s ++ [call_message c])).
    unfold apply_call. rewrite addMessage_messages.
    change MAX_CHAT_HISTORY with 50. fold (call_message c).
    split; [apply slice_last_split|]. split; [|reflexivity].
    rewrite length_firstn. lia.
  - apply run_calls_messages.
Qed.

(** The theorem at work: sixty calls after the initial greeting leave
    the last fifty of the sixty-one messages. *)
Lemma addMessage_keeps_most_recent_50_witness :
  Examples.sixty_calls <> []
  /\ length (messages (run_calls Examples.sixty_calls
                                  (initial_state (Examples.stamp 0)))) = 50
  /\ messages (run_calls Examples.sixty_calls (initial_state (Examples.stamp 0)))
     = Js.slice_last 50
         (messages (initial_state (Examples.stamp 0))
          ++ map call_message Examples.sixty_calls).
Proof.
  assert (Hne : Examples.sixty_calls <> []) by discriminate.
  destruct (addMessage_keeps_most_recent_50 Examples.sixty_calls
              (initial_state (Examples.stamp 0)))
    as (_ & _ & _ & _ & Hrun).
  split; [exact Hne|]. split; [|exact (Hrun Hne)].
  rewrite (Hrun Hne). vm_compute. reflexivity.
Defined.

Lemma truthy_false_iff (o : option string) :
  Js.truthy o = false <-> (o = None \/ o = Some EmptyString).
Proof.
  destruct o as [s|]; simpl.
  - rewrite negb_false_iff, String.eqb_eq. split.
    + intros ->. now right.
    + intros [H|H]; congruence.
  - split; auto.
Qed.

Lemma truthy_true_iff (st : ChatState) :
  Js.truthy (conversationSummary st) = true <-> Spec.summary_exists st.
Proof.
  unfold Spec.summary_exists.
  destruct (conversationSummary st) as [s|]; simpl.
  - rewrite negb_true_iff, String.eqb_neq. split.
    + intros H. now exists s.
    + intros (s' & [= <-] & H). exact H.
  - split; [discriminate|]. intros (s' & [=] & _).
Qed.

(** C2. [shouldSummarize] is a function of the store alone. It is true
    exactly when more than 15 messages are stored and either no
    summary exists (none is stored, or the stored one is empty) or ten
    times the token counter exceeds seven times the context budget of
    8000 tokens, that is, the counter exceeds 70% of the budget. With
    15 messages or fewer it is false whatever the counter. *)
Theorem shouldSummarize_iff :
  forall st : ChatState,
    (shouldSummarize st = true <->
       15 < length (messages st)
       /\ (~ Spec.summary_exists st
           \/ (7 * MAX_CONTEXT_TOKENS < 10 * totalTokensUsed st)%Z))
    /\ (~ Spec.summary_exists st <->
          conversationSummary st = None
          \/ conversationSummary st = Some EmptyString)
    /\ (7 * MAX_CONTEXT_TOKENS = 10 * 5600)%Z
    /\ (length (messages st) <= 15 -> shouldSummarize st = false).
Proof.
  intros st. unfold shouldSummarize, over_token_fraction.
  split; [|split; [|split; [reflexivity|]]].
  2: { rewrite <- truthy_true_iff, not_true_iff_false. apply truthy_false_iff. }
  - rewrite andb_true_iff, orb_true_iff, Nat.ltb_lt, Z.ltb_lt,
      negb_true_iff, <- not_true_iff_false, truthy_true_iff.
    reflexivity.
  - intros Hle. apply andb_false_iff. left. apply Nat.ltb_ge. exact Hle.
Qed.

(** The theorem at work: sixteen messages and no summary trigger the
    summarization; twelve messages do not, with 9000 tokens used. *)
Lemma shouldSummarize_iff_witness :
  shouldSummarize Examples.long_store = true
  /\ length (messages Examples.short_store) <= 15
  /\ (7 * MAX_CONTEXT_TOKENS < 10 * totalTokensUsed Examples.short_store)%Z
  /\ shouldSummarize Examples.short_store = false.
Proof.
  assert (Hshort : length (messages Examples.short_store) <= 15)
    by (vm_compute; lia).
  split.
  - apply (proj1 (shouldSummarize_iff Examples.long_store)). split.
    + vm_compute. lia.
    + left. intros (s & Hs & _). discriminate Hs.
  - split; [exact Hshort|]. split; [reflexivity|].
    exact (proj2 (proj2 (proj2 (shouldSummarize_iff Examples.short_store))) Hshort).
Defined.

(** C4. From any store, [clearMessages] leaves exactly one message,
    the assistant's greeting made at that moment, no summary, a token
    counter of exactly zero and no error. *)
Theorem clearMessages_resets :
  forall (s : Stamp) (st : ChatState),
    messages (clearMessages s st)
    = [ mkChatMessage (fresh_id s) assistant cleared_text (now s) None ]
    /\ length (messages (clearMessages s st)) = 1
    /\ conversationSummary (clearMessages s st) = None
    /\ totalTokensUsed (clearMessages s st) = 0%Z
    /\ error (clearMessages s st) = None.
Proof. intros s st. unfold clearMessages. simpl. repeat split. Qed.

End ChatStoreFacts.

(* ===================================================================== *)
(** ** The chat store: the list sent to the AI endpoint *)
(* ===================================================================== *)

Section ApiListFacts.
Import Types Constants ChatStore.

Lemma eligible_roles (st : ChatState) :
  Forall (fun m => role m = user \/ role m = assistant) (Spec.eligible st).
Proof.
  unfold Spec.eligible. apply Forall_forall. intros m Hin.
  apply filter_In in Hin as [_ Hrole].
  unfold is_api_role in Hrole. destruct (role m); simpl in Hrole; auto.
  discriminate.
Qed.

Lemma api_entries_roles (ms : list ChatMessage) :
  Forall (fun m => role m = user \/ role m = assistant) ms ->
  Forall (fun e => api_role e = user \/ api_role e = assistant)
         (map api_entry ms).
Proof.
  induction 1 as [|m ms Hm _ IH]; simpl; constructor; assumption.
Qed.

Lemma subseq_Forall {A} (P : A -> Prop) (l1 l2 : list A) :
  Spec.Subseq l1 l2 -> Forall P l2 -> Forall P l1.
Proof.
  intros Hs Hall. apply Forall_forall. intros x Hx.
  rewrite Forall_forall in Hall. apply Hall.
  now apply (subseq_In l1 l2).
Qed.

(** The two shapes of the list, by the test the code makes. *)
Lemma getMessagesForAPI_cases (st : ChatState) :
  (exists s,
      conversationSummary st = Some s /\ s <> EmptyString
      /\ 10 < length (Spec.eligible st)
      /\ getMessagesForAPI st
         = summary_entry s :: map api_entry (Js.slice_last 6 (Spec.eligible st)))
  \/ (~ (Spec.summary_exists st /\ 10 < length (Spec.eligible st))
      /\ getMessagesForAPI st
         = map api_entry (Js.slice_last 20 (Spec.eligible st))).
Proof.
  unfold getMessagesForAPI, Spec.summary_exists, Spec.eligible.
  destruct (conversationSummary st) as [s|] eqn:Hs.
  - unfold Js.truthy_str.
    destruct (String.eqb_spec s EmptyString) as [He|Hne]; simpl.
    + right. split; [|reflexivity].
      intros [(s' & [= <-] & Hs') _]. now apply Hs'.
    + destruct (Nat.ltb_spec 10 (length (filter is_api_role (messages st))))
        as [Hlt|Hge].
      * left. exists s. auto.
      * right. split; [|reflexivity]. intros [_ Hlt]. lia.
  - right. split; [|reflexivity]. intros [(s' & [=] & _) _].
Qed.

(** C10. Every entry of the list built for the AI endpoint has the
    role user or assistant, whatever the store holds: a stored message
    with the system role is dropped by the filter and the summary
    entry is a user entry, so no entry has the system role. *)
Theorem getMessagesForAPI_roles :
  forall st : ChatState,
    Forall (fun e => api_role e = user \/ api_role e = assistant)
           (getMessagesForAPI st)
    /\ Forall (fun e => api_role e <> system) (getMessagesForAPI st)
    /\ Forall (fun m => role m = system ->
                        ~ In m (Spec.eligible st)) (messages st).
Proof.
  intros st.
  assert (Hroles : Forall (fun e => api_role e = user \/ api_role e = assistant)
                          (getMessagesForAPI st)).
  { destruct (getMessagesForAPI_cases st)
      as [(s & _ & _ & _ & ->)|(_ & ->)].
    - constructor; [now left|].
      apply api_entries_roles.
      apply (subseq_Forall _ _ _ (slice_last_subseq 6 _)), eligible_roles.
    - apply api_entries_roles.
      apply (subseq_Forall _ _ _ (slice_last_subseq 20 _)), eligible_roles. }
  split; [exact Hroles|]. split.
  - eapply Forall_impl; [|exact Hroles].
    intros e [H|H]; rewrite H; discriminate.
  - apply Forall_forall. intros m _ Hsys Hin.
    pose proof (eligible_roles st) as Hel.
    rewrite Forall_forall in Hel.
    destruct (Hel m Hin) as [H|H]; congruence.
Qed.

(** On a store without system messages the eligible messages are the
    stored ones, and [addMessage] with a user or assistant role keeps
    the store that way. *)
Lemma eligible_all (st : ChatState) :
  Forall (fun m => role m <> system) (messages st) ->
  Spec.eligible st = messages st.
Proof.
  unfold Spec.eligible. induction (messages st) as [|m ms IH]; intros H.
  - reflexivity.
  - inversion H as [|? ? Hm Hms]; subst. simpl.
    unfold is_api_role at 1. destruct (role m); simpl;
      try (f_equal; now apply IH). congruence.
Qed.

Lemma addMessage_no_system s r c md st :
  r <> system ->
  Forall (fun m => role m <> system) (messages st) ->
  Forall (fun m => role m <> system) (messages (addMessage s r c md st)).
Proof.
  intros Hr Hst. rewrite addMessage_messages.
  apply (subseq_Forall _ _ _ (slice_last_subseq _ _)).
  apply Forall_app. split; [assumption|]. constructor; [exact Hr|constructor].
Qed.

(** The list over the messages the endpoint accepts, on any store. *)
Lemma getMessagesForAPI_over_eligible (st : ChatState) :
  Spec.api_list_of st (Spec.eligible st).
Proof.
  split.
  - destruct (getMessagesForAPI_cases st)
      as [(s & Hs & Hne & Hlt & Heq)|(Hnot & Heq)].
    + left. exists s. repeat (split; [assumption|]).
      rewrite Heq. simpl. rewrite length_map, slice_last_length. lia.
    + right. split; [assumption|]. split; [assumption|].
      rewrite Heq, length_map, slice_last_length. lia.
  - destruct (getMessagesForAPI_cases st)
      as [(s & _ & _ & _ & Heq)|(_ & Heq)].
    + exists (Js.slice_last 6 (Spec.eligible st)). split.
      * eapply subseq_trans; [apply slice_last_subseq|apply filter_subseq].
      * right. now exists s.
    + exists (Js.slice_last 20 (Spec.eligible st)). split.
      * eapply subseq_trans; [apply slice_last_subseq|apply filter_subseq].
      * now left.
Qed.

Lemma reachable_no_system st :
  Spec.Reachable st -> Forall (fun m => role m <> system) (messages st).
Proof.
  induction 1 as [s|s r c md st Hr _ IH|s st _ _| | | |]; simpl;
    try assumption.
  - repeat constructor. discriminate.
  - now apply addMessage_no_system.
  - repeat constructor. discriminate.
Qed.

Lemma reachable_bounded st :
  Spec.Reachable st -> length (messages st) <= MAX_CHAT_HISTORY.
Proof.
  induction 1; simpl; try assumption.
  - unfold MAX_CHAT_HISTORY. lia.
  - apply addMessage_length.
  - unfold MAX_CHAT_HISTORY. lia.
Qed.

(** C3 as amended. The count and the windows are taken over the stored
    messages whose role is user or assistant. When a non-empty summary
    exists and more than 10 such messages are stored, the list is
    exactly one leading user entry carrying the summary text followed by
    the 6 most recent of them, 7 entries; otherwise it is the last 20 of
    them and no summary entry, at most 20 entries. The entries after the
    summary entry are stored messages in their stored order. On a store
    that holds no system message, and so on every store the actions
    produce, those messages are all the stored messages. *)
Theorem getMessagesForAPI_window :
  forall st : ChatState,
    Spec.api_list_of st (Spec.eligible st)
    /\ (Forall (fun m => role m <> system) (messages st) ->
        Spec.api_list_of st (messages st))
    /\ (Spec.Reachable st -> Spec.api_list_of st (messages st)).
Proof.
  intros st. split; [apply getMessagesForAPI_over_eligible|].
  assert (Hclean : Forall (fun m => role m <> system) (messages st) ->
                   Spec.api_list_of st (messages st)).
  { intros Hroles. rewrite <- (eligible_all st Hroles) at 1.
    apply getMessagesForAPI_over_eligible. }
  split; [exact Hclean|].
  intros Hreach. apply Hclean. now apply reachable_no_system.
Qed.

(** The theorem at work: sixteen user and assistant messages and a
    summary give the summary entry and the six most recent messages. *)
Lemma getMessagesForAPI_window_witness :
  Forall (fun m => role m <> system) (messages Examples.summarised_store)
  /\ getMessagesForAPI Examples.summarised_store
     = summary_entry "earlier talk"
         :: map api_entry (Js.slice_last 6 (messages Examples.summarised_store))
  /\ length (getMessagesForAPI Examples.summarised_store) = 7.
Proof.
  assert (Hroles : Forall (fun m => role m <> system)
                          (messages Examples.summarised_store))
    by (repeat constructor; discriminate).
  split; [exact Hroles|].
  destruct (proj1 (proj2 (getMessagesForAPI_window Examples.summarised_store))
              Hroles)
    as [[(s & Hs & _ & _ & Heq & _ & Hlen)|(Hnot & _)] _].
  - injection Hs as <-. split; [exact Heq|exact Hlen].
  - exfalso. apply Hnot. split.
    + exists "earlier talk". split; [reflexivity|discriminate].
    + vm_compute. lia.
Defined.

(** C3 as stated fails on a store that holds a system message: with a
    summary and eleven stored messages, ten of them from the user or
    the assistant, the list has no summary entry and is not the summary
    followed by the 6 most recent stored messages. *)
Lemma getMessagesForAPI_counts_eligible_only :
  Spec.summary_exists Examples.store_with_note
  /\ length (messages Examples.store_with_note) = 11
  /\ getMessagesForAPI Examples.store_with_note
     = map api_entry (Examples.turns 10)
  /\ getMessagesForAPI Examples.store_with_note
     <> summary_entry "earlier talk"
          :: map api_entry
                 (Js.slice_last 6 (messages Examples.store_with_note)).
Proof.
  split; [|split; [|split]].
  - exists "earlier talk". split; [reflexivity|discriminate].
  - reflexivity.
  - reflexivity.
  - vm_compute. discriminate.
Qed.

End ApiListFacts.

(* ===================================================================== *)
(** ** The chat panel: background summarization *)
(* ===================================================================== *)

Section ChatPanelFacts.
Import Types Async ClaudeService ChatStore ChatPanel.

(** The only request [summarizeConversation] makes carries the
    transcript of every message it is given. *)
Lemma summarizeConversation_request net key ms :
  summarizeConversation net key ms
  = bind (bind (net (mkRequest key (Some SUMMARY_GENERATOR)
                       [ (user, (summary_instruction ++ conversationText ms)%string) ]
                       500 (Some 3) false))
            (fun response =>
               if negb (ok response)
               then reject (Error (api_error_text response
                                     (catch_default (json response) empty_body)))
               else bind (json response)
                      (fun data =>
                         resolve (or_string (content_text data) EmptyString,
                                  mkUsage (or_zero (input_tokens data))
                                          (or_zero (output_tokens data))))))
         (fun result => resolve (fst result)).
Proof. reflexivity. Qed.

Lemma addMessage_summary_error s r c md st :
  conversationSummary (addMessage s r c md st) = conversationSummary st
  /\ error (addMessage s r c md st) = error st.
Proof. unfold addMessage. destruct (_ <? _); simpl; auto. Qed.

(** [onComplete] when the summarization call rejects. *)
Lemma onComplete_summarization_rejected net r s fullResponse usage w key e :
  r_apiKey r = Some key ->
  summarizeConversation net key (r_messages r) = inl e ->
  store (onComplete net r s fullResponse usage w)
  = Spec.committed s fullResponse usage (store w)
  /\ (console (onComplete net r s fullResponse usage w) = console w
      \/ console (onComplete net r s fullResponse usage w)
         = console w ++ [("Failed to summarize conversation:", e)])
  /\ modal_opened (onComplete net r s fullResponse usage w) = modal_opened w.
Proof.
  intros Hkey Hfail. unfold onComplete. rewrite Hkey, Hfail.
  destruct (_ && _); simpl; auto.
Qed.

(** C6. Take a send that goes through (text in the input, nothing in
    flight, a validated key) and whose streaming call completes. If
    the summarization call for that turn rejects, the stored summary
    is the one from before the send, the chat error is null, the store
    is exactly the one with the two new messages and the token usage
    committed, and the only other trace is at most one line on the
    console carrying what was thrown. When the summarization test
    passed, that line is there. *)
Theorem summarization_failure_is_silent :
  forall (net : Endpoint) (stream : list (Role * string) -> StreamEnd)
         (r : Render) (inputValue : string) (su sa : Stamp) (w : World)
         (key fullResponse : string) (usage : Usage) (e : Thrown),
    Js.truthy_str (JsString.trim inputValue) = true ->
    r_isLoading r = false ->
    r_apiKey r = Some key ->
    key <> EmptyString ->
    r_isValidated r = true ->
    stream (apiMessages (Spec.sent su (JsString.trim inputValue) (store w))
                        (JsString.trim inputValue))
    = Completed fullResponse usage ->
    summarizeConversation net key (r_messages r) = inl e ->
    let before := Spec.sent su (JsString.trim inputValue) (store w) in
    let w' := handleSend net stream r inputValue su sa w in
    conversationSummary (store w') = conversationSummary (store w)
    /\ error (store w') = None
    /\ store w' = Spec.committed sa fullResponse usage before
    /\ (console w' = console w
        \/ console w' = console w ++ [("Failed to summarize conversation:", e)])
    /\ (shouldSummarize (Spec.committed sa fullResponse usage before) = true ->
        console w' = console w ++ [("Failed to summarize conversation:", e)]).
Proof.
  intros net stream r inputValue su sa w key fullResponse usage e
         Hinput Hloading Hkey Hne Hvalid Hstream Hfail before w'.
  assert (Hw' : w' = onComplete net r sa fullResponse usage
                       (mkWorld before (console w) (modal_opened w))).
  { subst w' before. unfold handleSend.
    rewrite Hinput, Hloading, Hkey, Hvalid. simpl.
    destruct (String.eqb_spec key EmptyString) as [Heq|_]; [contradiction|].
    simpl. unfold with_store. simpl.
    fold (Spec.sent su (JsString.trim inputValue) (store w)).
    rewrite Hstream. reflexivity. }
  destruct (onComplete_summarization_rejected net r sa fullResponse usage
              (mkWorld before (console w) (modal_opened w)) key e Hkey Hfail)
    as (Hstore & Hconsole & _).
  rewrite <- Hw' in Hstore, Hconsole. simpl in Hstore, Hconsole.
  split; [|split; [|split; [|split]]].
  - rewrite Hstore. unfold Spec.committed. simpl.
    destruct (addMessage_summary_error sa assistant fullResponse
                (Some (mkMetadata (Some (input usage + output usage)%Z) None None))
                before) as [-> _].
    subst before. unfold Spec.sent. simpl.
    now destruct (addMessage_summary_error su user (JsString.trim inputValue)
                    None (store w)) as [-> _].
  - rewrite Hstore. unfold Spec.committed. simpl.
    destruct (addMessage_summary_error sa assistant fullResponse
                (Some (mkMetadata (Some (input usage + output usage)%Z) None None))
                before) as [_ ->].
    reflexivity.
  - exact Hstore.
  - exact Hconsole.
  - intros Htest. rewrite Hw'. unfold onComplete.
    unfold with_store. simpl.
    fold (Spec.committed sa fullResponse usage before).
    rewrite Htest, Hkey, Hfail. simpl.
    destruct (String.eqb_spec key EmptyString) as [Heq|_]; [contradiction|].
    reflexivity.
Qed.

(** The theorem at work: sixteen stored messages, a question, an
    answer, and an endpoint that cannot be reached when the summary is
    asked for. *)
Lemma summarization_failure_is_silent_witness :
  shouldSummarize
    (Spec.committed (Examples.stamp 17) "an answer" (mkUsage 120 30)
       (Spec.sent (Examples.stamp 16) "What changed in 2023?"
                  Examples.long_store)) = true
  /\ conversationSummary (store Examples.failed_turn) = None
  /\ error (store Examples.failed_turn) = None
  /\ console Examples.failed_turn
     = [("Failed to summarize conversation:", TypeError "Failed to fetch")].
Proof.
  assert (Hne : "sk-ant-sample" <> EmptyString) by discriminate.
  destruct (summarization_failure_is_silent
              Examples.unreachable Examples.answering Examples.long_render
              "  What changed in 2023? " (Examples.stamp 16) (Examples.stamp 17)
              Examples.long_world "sk-ant-sample" "an answer"
              (mkUsage 120 30) (TypeError "Failed to fetch")
              eq_refl eq_refl eq_refl Hne eq_refl eq_refl eq_refl)
    as (Hsummary & Herror & _ & _ & Hlog).
  assert (Htest : shouldSummarize
                    (Spec.committed (Examples.stamp 17) "an answer" (mkUsage 120 30)
                       (Spec.sent (Examples.stamp 16) "What changed in 2023?"
                                  Examples.long_store)) = true)
    by (vm_compute; reflexivity).
  split; [exact Htest|]. split; [exact Hsummary|]. split; [exact Herror|].
  exact (Hlog Htest).
Defined.

(** [onComplete] reads the network through one request at most, the one
    built from every message of the render: two networks that answer it
    alike leave the same world. *)
Lemma onComplete_asks_about_whole_render net net' r s fullResponse usage w key :
  r_apiKey r = Some key ->
  net (Spec.summary_request key (r_messages r))
  = net' (Spec.summary_request key (r_messages r)) ->
  onComplete net r s fullResponse usage w
  = onComplete net' r s fullResponse usage w.
Proof.
  intros Hkey Hsame. unfold onComplete. rewrite Hkey.
  rewrite !summarizeConversation_request.
  fold (Spec.summary_request key (r_messages r)). now rewrite Hsame.
Qed.

(** C5 on the code. Sixteen messages are stored and no summary yet; a
    question is sent and answered, so eighteen messages are stored and
    the summarization test passes. The endpoint echoes what it is
    sent, and the summary stored afterwards is the instruction
    followed by the transcript of all sixteen messages the panel had
    when the question was sent: nothing is cut from its end. Leaving
    out a tail of BUFFER_WINDOW_SIZE = 8 stored messages, as
    [generateConversationSummary] of App.tsx does, keeps the first ten
    only; the transcript sent also holds turns 10 to 15, which are
    among the eight most recent stored messages. *)
Theorem summarization_transcript_keeps_recent_tail :
  messages (store Examples.echoed_turn)
  = Examples.turns 16
    ++ [ newMessage (Examples.stamp 16) user "What changed in 2023?" None;
         newMessage (Examples.stamp 17) assistant "an answer"
                    (Some (mkMetadata (Some 150%Z) None None)) ]
  /\ shouldSummarize
       (Spec.committed (Examples.stamp 17) "an answer" (mkUsage 120 30)
          (Spec.sent (Examples.stamp 16) "What changed in 2023?"
                     Examples.long_store)) = true
  /\ conversationSummary (store Examples.echoed_turn)
     = Some (summary_instruction ++ conversationText (Examples.turns 16))%string
  /\ App.messagesToSummarize (messages (store Examples.echoed_turn))
     = Examples.turns 10
  /\ In (Examples.turn 15)
        (Js.slice_last App.BUFFER_WINDOW_SIZE
           (messages (store Examples.echoed_turn)))
  /\ JsString.includes (transcript_line (Examples.turn 15))
                       (conversationText (Examples.turns 16)) = true
  /\ JsString.includes
       (transcript_line (Examples.turn 15))
       (conversationText
          (App.messagesToSummarize (messages (store Examples.echoed_turn))))
     = false.
Proof.
  repeat split; try (vm_compute; reflexivity).
  vm_compute. tauto.
Qed.

End ChatPanelFacts.

(* ===================================================================== *)
(** ** The API-key store: what each answer of the endpoint leads to *)
(* ===================================================================== *)

Section ApiKeyFacts.
Import Types Async ClaudeService ApiKeyStore.

Variable net : Endpoint.
Variable key : string.
Variable response : Response.
Hypothesis answered : net (probe key) = inr response.

Lemma validateApiKey_success :
  ok response = true -> validateApiKey net key = inr true.
Proof. intros Hok. unfold validateApiKey. now rewrite answered; simpl; rewrite Hok. Qed.

Lemma validateApiKey_error_body (errorData : Body) :
  ok response = false ->
  json_body response = Some errorData ->
  validateApiKey net key
  = if status response =? 401 then inl (Error invalid_key_text)
    else if status response =? 429 then inr true
    else inl (Error (api_error_text response errorData)).
Proof.
  intros Hok Hbody. unfold validateApiKey, json.
  rewrite answered. simpl. rewrite Hok, Hbody. simpl.
  destruct (status response =? 401); [reflexivity|].
  destruct (status response =? 429); reflexivity.
Qed.

Lemma validateApiKey_unreadable_body :
  ok response = false ->
  json_body response = None ->
  validateApiKey net key = inl (SyntaxError "Unexpected token in JSON").
Proof.
  intros Hok Hbody. unfold validateApiKey, json.
  rewrite answered. simpl. now rewrite Hok, Hbody.
Qed.

End ApiKeyFacts.

Section ApiKeyRateLimit.
Import Types Async ClaudeService ApiKeyStore.

(** C9 on the code. A 429 answer whose body is the provider's JSON
    makes [validateApiKey] return true. A 429 answer whose body is not
    JSON makes it reject instead: the body is parsed before the status
    is looked at, and the parse failure is rethrown. [setApiKey] then
    stores no key and shows the parser's message as the validation
    error. [validateApiKey] of App.tsx, which never reads the body,
    returns true on the same answer. *)
Theorem validateApiKey_rate_limit_needs_json_body :
  validateApiKey (Examples.answering_with Examples.rate_limited_json)
                 "sk-ant-sample" = inr true
  /\ validateApiKey (Examples.answering_with Examples.rate_limited_plain)
                    "sk-ant-sample"
     = inl (SyntaxError "Unexpected token in JSON")
  /\ setApiKey (Examples.answering_with Examples.rate_limited_plain) 0%Z
               "sk-ant-sample" initial_state
     = (false, mkApiKeyState None false false
                 (Some "Unexpected token in JSON") None)
  /\ App.validateApiKey (Examples.answering_with Examples.rate_limited_plain)
                        "sk-ant-sample" = true.
Proof. repeat split. Qed.

End ApiKeyRateLimit.

(* ===================================================================== *)
(** ** The query service: breakdowns *)
(* ===================================================================== *)

Section BreakdownFacts.
Import Sql DuckDB Spec.

Lemma insert_desc_In a l x :
  In x (insert_desc a l) <-> x = a \/ In x l.
Proof.
  induction l as [|b rest IH]; simpl.
  - intuition.
  - destruct (totalValue b <? totalValue a)%Z; simpl.
    + intuition.
    + rewrite IH. intuition.
Qed.

Lemma insert_desc_sorted a l :
  StronglySorted before_desc l -> StronglySorted before_desc (insert_desc a l).
Proof.
  induction 1 as [|b rest Hsorted IH Hall]; simpl.
  - repeat constructor.
  - destruct (Z.ltb_spec (totalValue b) (totalValue a)) as [Hlt|Hge].
    + constructor; [now constructor|].
      constructor; [unfold before_desc; lia|].
      eapply Forall_impl; [|exact Hall].
      unfold before_desc. intros x Hx. lia.
    + constructor; [exact IH|].
      apply Forall_forall. intros x Hx.
      apply insert_desc_In in Hx as [->|Hx]; [exact Hge|].
      rewrite Forall_forall in Hall. now apply Hall.
Qed.

Lemma order_by_total_desc_sorted l :
  StronglySorted before_desc (order_by_total_desc l).
Proof.
  induction l as [|a l IH]; simpl; [constructor|].
  now apply insert_desc_sorted.
Qed.

Lemma insert_desc_perm a l : Permutation (a :: l) (insert_desc a l).
Proof.
  induction l as [|b rest IH]; simpl; [reflexivity|].
  destruct (totalValue b <? totalValue a)%Z; [reflexivity|].
  rewrite perm_swap. now constructor.
Qed.

Lemma order_by_total_desc_perm l : Permutation l (order_by_total_desc l).
Proof.
  induction l as [|a l IH]; simpl; [constructor|].
  rewrite <- insert_desc_perm. now constructor.
Qed.

Lemma firstn_sorted n : forall l,
  StronglySorted before_desc l -> StronglySorted before_desc (firstn n l).
Proof.
  induction n as [|n IH]; intros l Hs; simpl; [constructor|].
  destruct l as [|a l]; [constructor|].
  inversion Hs as [|? ? Hrest Hall]; subst.
  constructor; [now apply IH|].
  apply Forall_forall. intros x Hx.
  rewrite Forall_forall in Hall. apply Hall.
  rewrite <- (firstn_skipn n l). apply in_or_app. now left.
Qed.

Lemma has_label_labelled key l rows :
  l <> EmptyString ->
  filter (has_label key l) (filter (labelled key) rows)
  = filter (has_label key l) rows.
Proof.
  intros Hl. induction rows as [|r rows IH]; simpl; [reflexivity|].
  destruct (labelled key r) eqn:Hlab; simpl;
    destruct (has_label key l r) eqn:Hhas;
    try (f_equal; exact IH); try exact IH.
  exfalso. unfold labelled in Hlab. unfold has_label in Hhas.
  destruct (key r) as [s|]; [|discriminate].
  apply String.eqb_eq in Hhas. subst s.
  apply negb_false_iff, String.eqb_eq in Hlab. contradiction.
Qed.

Lemma group_by_summarises key rows :
  Forall (summarises key rows) (group_by key rows).
Proof.
  unfold group_by. apply Forall_forall. intros a Ha.
  apply in_map_iff in Ha as (l & <- & Hl).
  apply nodup_In, in_map_iff in Hl as (r & Hr & Hin).
  apply filter_In in Hin as [Hin Hlab].
  assert (Hne : l <> EmptyString).
  { unfold labelled in Hlab. unfold key_text in Hr.
    destruct (key r) as [s|]; [|discriminate].
    subst l. now apply String.eqb_neq, negb_true_iff. }
  unfold summarises. simpl. rewrite has_label_labelled by exact Hne.
  repeat split; try assumption.
  assert (Hmem : In r (filter (has_label key l) rows)).
  { apply filter_In. split; [exact Hin|].
    unfold has_label. unfold key_text in Hr. unfold labelled in Hlab.
    destruct (key r) as [s|]; [|discriminate]. subst. apply String.eqb_refl. }
  destruct (filter (has_label key l) rows); [contradiction|simpl; lia].
Qed.

Lemma group_by_labels_distinct key rows :
  NoDup (map label (group_by key rows)).
Proof.
  unfold group_by. rewrite map_map. simpl. rewrite map_id.
  apply NoDup_nodup.
Qed.

(** Every breakdown: at most [limit] rows, largest total first, each
    row the count and sum of one distinct non-empty label, and no row
    left out has a larger total than a row kept. *)
Lemma breakdown_top key limit rows :
  length (breakdown key limit rows) <= limit
  /\ StronglySorted before_desc (breakdown key limit rows)
  /\ Forall (summarises key rows) (breakdown key limit rows)
  /\ NoDup (map label (breakdown key limit rows))
  /\ (exists rest,
         Permutation (group_by key rows) (breakdown key limit rows ++ rest)
         /\ Forall (fun kept => Forall (before_desc kept) rest)
                   (breakdown key limit rows)).
Proof.
  unfold breakdown.
  pose proof (order_by_total_desc_sorted (group_by key rows)) as Hsorted.
  pose proof (order_by_total_desc_perm (group_by key rows)) as Hperm.
  set (sorted := order_by_total_desc (group_by key rows)) in *.
  split; [apply firstn_le_length|].
  split; [now apply firstn_sorted|].
  split; [|split].
  - apply Forall_forall. intros a Ha.
    pose proof (group_by_summarises key rows) as Hall.
    rewrite Forall_forall in Hall. apply Hall.
    apply (Permutation_in a (Permutation_sym Hperm)).
    rewrite <- (firstn_skipn limit sorted). apply in_or_app. now left.
  - assert (Hnd : NoDup (map label sorted)).
    { eapply Permutation_NoDup; [apply Permutation_map, Hperm|].
      apply group_by_labels_distinct. }
    rewrite <- (firstn_skipn limit sorted), map_app in Hnd.
    now apply NoDup_app_remove_r in Hnd.
  - exists (skipn limit sorted). split.
    + now rewrite firstn_skipn.
    + clear Hperm. revert Hsorted. generalize sorted. clear sorted.
      induction limit as [|n IH]; intros l Hs; simpl; [constructor|].
      destruct l as [|a l]; [constructor|].
      inversion Hs as [|? ? Hrest Hall]; subst.
      constructor; [|now apply IH].
      apply Forall_forall. intros x Hx.
      rewrite Forall_forall in Hall. apply Hall.
      rewrite <- (firstn_skipn n l). apply in_or_app. now right.
Qed.

(** C7 on the code. Both breakdowns are ordered by total, largest
    first, and each row is the count and sum of one label. The
    category breakdown holds at most 20 rows. The area breakdown of
    the query service holds at most 30 rows, not 50: on a dataset with
    one contract in each of 31 areas it returns 30 rows and leaves out
    the area with the smallest total, which [getAreaBreakdown] of
    App.tsx, with its limit of 50, returns as its 31st row. *)
Theorem getAreaBreakdown_stops_at_30 :
  (forall rows,
      length (getCategoryBreakdown rows) <= 20
      /\ StronglySorted before_desc (getCategoryBreakdown rows)
      /\ Forall (summarises business_category rows) (getCategoryBreakdown rows)
      /\ length (getAreaBreakdown rows) <= 30
      /\ StronglySorted before_desc (getAreaBreakdown rows)
      /\ Forall (summarises area_of_delivery rows) (getAreaBreakdown rows))
  /\ length (getAreaBreakdown (Examples.one_per_label 31)) = 30
  /\ length (AppDuckDB.getAreaBreakdown (Examples.one_per_label 31)) = 31
  /\ nth_error (AppDuckDB.getAreaBreakdown (Examples.one_per_label 31)) 30
     = Some (mkAggregate "area-0" 1 1)
  /\ ~ In (mkAggregate "area-0" 1 1)
          (getAreaBreakdown (Examples.one_per_label 31)).
Proof.
  split; [|split; [|split; [|split]]].
  - intros rows.
    destruct (breakdown_top business_category 20 rows) as (H1 & H2 & H3 & _).
    destruct (breakdown_top area_of_delivery 30 rows) as (H4 & H5 & H6 & _).
    unfold getCategoryBreakdown, getAreaBreakdown. tauto.
  - vm_compute. reflexivity.
  - vm_compute. reflexivity.
  - vm_compute. reflexivity.
  - intros Hin.
    assert (Hall : forallb (fun a => negb (String.eqb (label a) "area-0"))
                           (getAreaBreakdown (Examples.one_per_label 31)) = true)
      by (vm_compute; reflexivity).
    rewrite forallb_forall in Hall. specialize (Hall _ Hin).
    simpl in Hall. discriminate.
Qed.

End BreakdownFacts.

(* ===================================================================== *)
(** ** The query service: text filters *)
(* ===================================================================== *)

Section LiteralFacts.
Import Sql.

Ltac each_ascii c :=
  destruct c as [[|] [|] [|] [|] [|] [|] [|] [|]].

Lemma lower_unit_quote c :
  Ascii.eqb (JsString.lower_unit c) JsString.quote
  = Ascii.eqb c JsString.quote.
Proof. each_ascii c; reflexivity. Qed.


(** What holds of each of the 256 characters holds of every
    character. *)
Lemma every_unit (P : ascii -> bool) :
  forallb P (map ascii_of_nat (seq 0 256)) = true -> forall c, P c = true.
Proof.
  intros H c. rewrite forallb_forall in H. apply H.
  rewrite <- (ascii_nat_embedding c). apply in_map, in_seq.
  pose proof (nat_ascii_bounded c). lia.
Qed.



(** Two characters are the same when case is ignored exactly when
    [toLowerCase] maps them to one character. *)
Lemma same_letter_lower a b :
  Spec.same_letter a b
  = Ascii.eqb (JsString.lower_unit a) (JsString.lower_unit b).
Proof.
  apply Bool.eqb_prop.
  apply (every_unit
           (fun y => Bool.eqb (Spec.same_letter a y)
                       (Ascii.eqb (JsString.lower_unit a) (JsString.lower_unit y)))).
  apply (every_unit
           (fun x =>
              forallb
                (fun y => Bool.eqb (Spec.same_letter x y)
                            (Ascii.eqb (JsString.lower_unit x)
                                       (JsString.lower_unit y)))
                (map ascii_of_nat (seq 0 256)))).
  vm_compute. reflexivity.
Qed.

Lemma same_ignoring_case_lower s : forall t,
  Spec.same_ignoring_case s t = true
  <-> JsString.toLowerCase s = JsString.toLowerCase t.
Proof.
  induction s as [|a s IH]; intros [|b t]; simpl;
    try (split; [reflexivity|reflexivity]); try (split; discriminate).
  rewrite andb_true_iff, same_letter_lower, Ascii.eqb_eq, IH. split.
  - now intros [-> ->].
  - now intros [= -> ->].
Qed.

Lemma toLowerCase_app s t :
  JsString.toLowerCase (s ++ t)
  = (JsString.toLowerCase s ++ JsString.toLowerCase t)%string.
Proof. induction s as [|c s IH]; simpl; [reflexivity|now rewrite IH]. Qed.

Lemma toLowerCase_split a : forall text b,
  JsString.toLowerCase text = (a ++ b)%string ->
  exists t1 t2, text = (t1 ++ t2)%string
                /\ JsString.toLowerCase t1 = a
                /\ JsString.toLowerCase t2 = b.
Proof.
  induction a as [|x a IH]; intros text b H.
  - now exists EmptyString, text.
  - destruct text as [|c text]; [discriminate|]. simpl in H.
    injection H as Hx H. destruct (IH _ _ H) as (t1 & t2 & -> & H1 & H2).
    exists (String c t1), t2. simpl. now rewrite Hx, H1.
Qed.

(** The lower-case query occurs in the lower-case text exactly when the
    query occurs in the text with case ignored. *)
Lemma occurs_lower q text :
  Spec.occurs_in (JsString.toLowerCase q) (JsString.toLowerCase text)
  <-> Spec.occurs_ignoring_case q text.
Proof.
  unfold Spec.occurs_in, Spec.occurs_ignoring_case. split.
  - intros (before & after & H).
    destruct (toLowerCase_split _ _ _ H) as (t1 & rest & -> & H1 & Hrest).
    destruct (toLowerCase_split _ _ _ Hrest) as (found & t3 & -> & Hf & H3).
    exists t1, found, t3. split; [reflexivity|].
    now apply same_ignoring_case_lower.
  - intros (before & found & after & -> & Hsame).
    apply same_ignoring_case_lower in Hsame.
    exists (JsString.toLowerCase before), (JsString.toLowerCase after).
    now rewrite !toLowerCase_app, Hsame.
Qed.

Lemma toLowerCase_escape_quotes s :
  JsString.toLowerCase (JsString.escape_quotes s)
  = JsString.escape_quotes (JsString.toLowerCase s).
Proof.
  induction s as [|c s IH]; simpl; [reflexivity|].
  rewrite lower_unit_quote.
  destruct (Ascii.eqb_spec c JsString.quote) as [->|Hc]; simpl.
  - now rewrite IH.
  - now rewrite IH.
Qed.


Lemma unquote_escape_app s rest :
  unquote (JsString.escape_quotes s ++ rest)%string
  = option_map (String.append s) (unquote rest).
Proof.
  induction s as [|c s IH]; simpl.
  - destruct (unquote rest); reflexivity.
  - destruct (Ascii.eqb_spec c JsString.quote) as [->|Hc]; simpl.
    + rewrite IH. destruct (unquote rest); reflexivity.
    + apply Ascii.eqb_neq in Hc. rewrite Hc, IH.
      destruct (unquote rest); reflexivity.
Qed.

Lemma append_empty_r (s : string) : (s ++ EmptyString)%string = s.
Proof. induction s as [|c s IH]; simpl; [reflexivity|now rewrite IH]. Qed.

Lemma append_assoc (a b c : string) :
  ((a ++ b) ++ c)%string = (a ++ (b ++ c))%string.
Proof. induction a as [|x a IH]; simpl; [reflexivity|now rewrite IH]. Qed.

Lemma unquote_escape s : unquote (JsString.escape_quotes s) = Some s.
Proof.
  rewrite <- (append_empty_r (JsString.escape_quotes s)).
  rewrite unquote_escape_app. simpl. now rewrite append_empty_r.
Qed.


Lemma unquote_search_literal q :
  unquote (DuckDB.search_literal q)
  = Some ("%" ++ JsString.toLowerCase q ++ "%")%string.
Proof.
  unfold DuckDB.search_literal. rewrite toLowerCase_escape_quotes.
  simpl. rewrite unquote_escape_app. reflexivity.
Qed.

End LiteralFacts.

Section LikeFacts.
Import Sql.





End LikeFacts.

Section TextFilterFacts.
Import Sql DuckDB.


Lemma holds_search_known col q r :
  exists b, holds r (LowerLike col (search_literal q)) = Some b.
Proof.
  cbn [holds]. rewrite unquote_search_literal. eauto.
Qed.


Lemma holds_text_known col s r :
  exists b, holds r (TextEq col (JsString.escape_quotes s)) = Some b.
Proof. cbn [holds]. rewrite unquote_escape. eauto. Qed.

Lemma holds_search_condition q r :
  exists x y z,
    holds r (LowerLike col_award_title (search_literal q)) = Some x
    /\ holds r (LowerLike col_awardee_name (search_literal q)) = Some y
    /\ holds r (LowerLike col_organization_name (search_literal q)) = Some z
    /\ holds r (search_condition q) = Some (x || y || z).
Proof.
  destruct (holds_search_known col_award_title q r) as (x & Hx).
  destruct (holds_search_known col_awardee_name q r) as (y & Hy).
  destruct (holds_search_known col_organization_name q r) as (z & Hz).
  exists x, y, z. repeat split; try assumption.
  unfold search_condition.
  change (holds r (Or3 ?a ?b ?c)) with (or3 (holds r a) (holds r b) (holds r c)).
  now rewrite Hx, Hy, Hz.
Qed.

Lemma when_truthy_nonempty s f :
  s <> EmptyString -> when_truthy (Some s) f = [f s].
Proof.
  intros Hs. unfold when_truthy, Js.truthy_str.
  now destruct (String.eqb_spec s EmptyString).
Qed.




End TextFilterFacts.

Section WildcardFacts.
Import Sql DuckDB.

(** A search query is a LIKE pattern: its [_] stands for any one
    character, so the query c_vid keeps a row in which the text c_vid
    does not occur. *)
Lemma search_query_underscore_is_a_wildcard :
  satisfies (Examples.only_search "c_vid") Examples.manila_contract = Some true
  /\ JsString.includes "c_vid"
       (JsString.toLowerCase "Medical Supplies for COVID-19 Prevention")
     = false.
Proof. split; reflexivity. Qed.

End WildcardFacts.

(* ===================================================================== *)
(** ** The chat store across a reload *)
(* ===================================================================== *)

Section PersistFacts.
Import Types Constants ChatStore ChatStorePersist.

Lemma slice_last_slice_last {A} (k n : nat) (l : list A) :
  k <= n -> Js.slice_last k (Js.slice_last n l) = Js.slice_last k l.
Proof.
  intros Hkn. unfold Js.slice_last.
  rewrite skipn_skipn, length_skipn. f_equal. lia.
Qed.

Lemma filter_no_system (ms : list ChatMessage) :
  Forall (fun m => role m <> system) ms -> filter is_api_role ms = ms.
Proof.
  induction 1 as [|m ms Hm _ IH]; simpl; [reflexivity|].
  unfold is_api_role at 1. destruct (role m); simpl; congruence.
Qed.

(** Reloading the page keeps at most the last 20 messages, and with them
    the summarization test gives the same answer as before the reload.
    When no system message is stored, the list built for the AI endpoint
    is the same as before the reload too. *)
Theorem reload_keeps_trigger_and_api_list :
  forall (st current : ChatState),
    length (messages (rehydrate (partialize st) current)) <= 20
    /\ messages (rehydrate (partialize st) current)
       = Js.slice_last 20 (messages st)
    /\ shouldSummarize (rehydrate (partialize st) current) = shouldSummarize st
    /\ (Forall (fun m => role m <> system) (messages st) ->
        getMessagesForAPI (rehydrate (partialize st) current)
        = getMessagesForAPI st).
Proof.
  intros st current. unfold rehydrate, partialize. simpl.
  split; [rewrite slice_last_length; lia|]. split; [reflexivity|]. split.
  - unfold shouldSummarize. simpl. f_equal.
    rewrite slice_last_length.
    destruct (Nat.ltb_spec 15 (length (messages st)));
      destruct (Nat.ltb_spec 15 (Nat.min 20 (length (messages st))));
      try reflexivity; lia.
  - intros Hroles. unfold getMessagesForAPI. simpl.
    assert (Hkept : Forall (fun m => role m <> system)
                           (Js.slice_last 20 (messages st)))
      by (apply (subseq_Forall _ _ _ (slice_last_subseq 20 _)); exact Hroles).
    rewrite (filter_no_system _ Hkept), (filter_no_system _ Hroles).
    rewrite !slice_last_slice_last by lia.
    rewrite slice_last_length.
    replace (10 <? Nat.min 20 (length (messages st)))
      with (10 <? length (messages st)); [reflexivity|].
    destruct (Nat.ltb_spec 10 (length (messages st)));
      destruct (Nat.ltb_spec 10 (Nat.min 20 (length (messages st))));
      try reflexivity; lia.
Qed.

(** The theorem at work: sixteen messages and a summary, then a
    reload. *)
Lemma reload_keeps_trigger_and_api_list_witness :
  Forall (fun m => role m <> system) (messages Examples.summarised_store)
  /\ getMessagesForAPI
       (rehydrate (partialize Examples.summarised_store)
                  (initial_state (Examples.stamp 99)))
     = getMessagesForAPI Examples.summarised_store.
Proof.
  assert (Hroles : Forall (fun m => role m <> system)
                          (messages Examples.summarised_store))
    by (repeat constructor; discriminate).
  split; [exact Hroles|].
  exact (proj2 (proj2 (proj2 (reload_keeps_trigger_and_api_list
                                Examples.summarised_store
                                (initial_state (Examples.stamp 99))))) Hroles).
Defined.

End PersistFacts.

(* ===================================================================== *)
(** ** The chat panel: one send from start to end *)
(* ===================================================================== *)

Section SendFacts.
Import Types Async ClaudeService ChatStore ChatPanel.

Lemma sent_messages su text st :
  messages (Spec.sent su text st)
  = Js.slice_last Constants.MAX_CHAT_HISTORY
      (messages st ++ [newMessage su user text None]).
Proof. unfold Spec.sent. simpl. apply addMessage_messages. Qed.

Lemma slice_last_snoc {A} (n : nat) (l : list A) (x : A) :
  0 < n -> exists earlier, Js.slice_last n (l ++ [x]) = earlier ++ [x].
Proof.
  intros Hn. unfold Js.slice_last. rewrite length_app. simpl.
  exists (skipn (length l + 1 - n) l).
  rewrite skipn_app.
  replace (length l + 1 - n - length l) with 0 by lia. reflexivity.
Qed.

Lemma getMessagesForAPI_ends_with_last st earlier m :
  messages st = earlier ++ [m] ->
  is_api_role m = true ->
  exists entries, getMessagesForAPI st = entries ++ [api_entry m].
Proof.
  intros Hms Hrole. unfold getMessagesForAPI. rewrite Hms, filter_app.
  simpl. rewrite Hrole.
  set (kept := filter is_api_role earlier).
  destruct (slice_last_snoc 6 kept m) as (e6 & H6); [lia|].
  destruct (slice_last_snoc 20 kept m) as (e20 & H20); [lia|].
  rewrite H6, H20, !map_app. simpl.
  destruct (conversationSummary st) as [s|].
  - destruct (_ && _).
    + now exists (summary_entry s :: map api_entry e6).
    + now exists (map api_entry e20).
  - now exists (map api_entry e20).
Qed.

(** The list [handleSend] gives the streaming call always ends with the
    user's message twice: once as the message just stored, once more as
    the entry pushed after it. *)
Theorem apiMessages_repeats_the_question :
  forall (st : ChatState) (su : Stamp) (userMessage : string),
    exists earlier,
      apiMessages (Spec.sent su userMessage st) userMessage
      = earlier ++ [ (user, userMessage); (user, userMessage) ].
Proof.
  intros st su userMessage.
  destruct (slice_last_snoc Constants.MAX_CHAT_HISTORY (messages st)
              (newMessage su user userMessage None)) as (kept & Hkept).
  { unfold Constants.MAX_CHAT_HISTORY. lia. }
  destruct (getMessagesForAPI_ends_with_last
              (Spec.sent su userMessage st) kept
              (newMessage su user userMessage None)) as (entries & Hentries).
  { now rewrite sent_messages. }
  { reflexivity. }
  exists (map (fun m => (api_role m, api_content m)) entries).
  unfold apiMessages. rewrite Hentries, map_app, <- app_assoc. reflexivity.
Qed.

(** [handleSend] once its two guards are passed. *)
Lemma handleSend_proceeds net stream r inputValue su sa w :
  Js.truthy_str (JsString.trim inputValue) = true ->
  r_isLoading r = false ->
  Js.truthy (r_apiKey r) = true ->
  r_isValidated r = true ->
  handleSend net stream r inputValue su sa w
  = match stream (apiMessages (Spec.sent su (JsString.trim inputValue) (store w))
                              (JsString.trim inputValue)) with
    | Completed fullResponse usage =>
        onComplete net r sa fullResponse usage
          (mkWorld (Spec.sent su (JsString.trim inputValue) (store w))
                   (console w) (modal_opened w))
    | Failed err =>
        onError err
          (mkWorld (Spec.sent su (JsString.trim inputValue) (store w))
                   (console w) (modal_opened w))
    end.
Proof.
  intros Hinput Hloading Hkey Hvalid. unfold handleSend.
  rewrite Hinput, Hloading, Hkey, Hvalid. reflexivity.
Qed.

Lemma onComplete_store net r s fullResponse usage w :
  store (onComplete net r s fullResponse usage w)
  = Spec.committed s fullResponse usage (store w)
  \/ exists summary,
       store (onComplete net r s fullResponse usage w)
       = updateSummary summary (Spec.committed s fullResponse usage (store w)).
Proof.
  unfold onComplete, with_store. simpl.
  fold (Spec.committed s fullResponse usage (store w)).
  destruct (_ && _); [|now left].
  destruct (r_apiKey r) as [key|]; [|now left].
  destruct (summarizeConversation net key (r_messages r)) as [e|summary].
  - now left.
  - right. now exists summary.
Qed.

(** A send that goes through and whose streaming call completes adds
    exactly the user's trimmed text and then the assistant's reply to
    the stored messages (the oldest leave when more than 50 result),
    adds the turn's input and output tokens to the counter, and leaves
    the store not loading and without an error, whatever the
    summarization that may follow does. *)
Theorem handleSend_completed_turn :
  forall (net : Endpoint) (stream : list (Role * string) -> StreamEnd)
         (r : Render) (inputValue : string) (su sa : Stamp) (w : World)
         (fullResponse : string) (usage : Usage),
    Js.truthy_str (JsString.trim inputValue) = true ->
    r_isLoading r = false ->
    Js.truthy (r_apiKey r) = true ->
    r_isValidated r = true ->
    stream (apiMessages (Spec.sent su (JsString.trim inputValue) (store w))
                        (JsString.trim inputValue))
    = Completed fullResponse usage ->
    let w' := handleSend net stream r inputValue su sa w in
    messages (store w')
    = Js.slice_last 50
        (messages (store w)
         ++ [ newMessage su user (JsString.trim inputValue) None;
              newMessage sa assistant fullResponse
                (Some (mkMetadata (Some (input usage + output usage)%Z)
                                  None None)) ])
    /\ totalTokensUsed (store w')
       = (totalTokensUsed (store w) + (input usage + output usage))%Z
    /\ isLoading (store w') = false
    /\ error (store w') = None
    /\ modal_opened w' = modal_opened w.
Proof.
  intros net stream r inputValue su sa w fullResponse usage
         Hinput Hloading Hkey Hvalid Hstream w'.
  subst w'. rewrite handleSend_proceeds by assumption. rewrite Hstream.
  set (w0 := mkWorld (Spec.sent su (JsString.trim inputValue) (store w))
                     (console w) (modal_opened w)).
  assert (Hfields :
            messages (Spec.committed sa fullResponse usage (store w0))
            = Js.slice_last 50
                (messages (store w)
                 ++ [ newMessage su user (JsString.trim inputValue) None;
                      newMessage sa assistant fullResponse
                        (Some (mkMetadata (Some (input usage + output usage)%Z)
                                          None None)) ])
            /\ totalTokensUsed (Spec.committed sa fullResponse usage (store w0))
               = (totalTokensUsed (store w) + (input usage + output usage))%Z
            /\ isLoading (Spec.committed sa fullResponse usage (store w0)) = false
            /\ error (Spec.committed sa fullResponse usage (store w0)) = None).
  { unfold Spec.committed. simpl. rewrite addMessage_messages, sent_messages.
    change Constants.MAX_CHAT_HISTORY with 50.
    rewrite slice_last_app_absorb, <- app_assoc. split; [reflexivity|].
    destruct (addMessage_frame sa assistant fullResponse
                (Some (mkMetadata (Some (input usage + output usage)%Z) None None))
                (Spec.sent su (JsString.trim inputValue) (store w)))
      as (_ & Herr & _ & Htok & _).
    rewrite Htok, Herr. unfold Spec.sent. simpl.
    destruct (addMessage_frame su user (JsString.trim inputValue) None (store w))
      as (_ & _ & _ & Htok' & _).
    rewrite Htok'. auto. }
  destruct Hfields as (Hm & Ht & Hl & He).
  assert (Hmodal : modal_opened (onComplete net r sa fullResponse usage w0)
                   = modal_opened w).
  { unfold onComplete, with_store. simpl. destruct (_ && _); [|reflexivity].
    destruct (r_apiKey r); [|reflexivity].
    destruct (summarizeConversation _ _ _); reflexivity. }
  destruct (onComplete_store net r sa fullResponse usage w0)
    as [Hst|(summary & Hst)]; rewrite Hst; simpl; auto.
Qed.

(** The theorem at work: the turn on the long store whose summary
    cannot be fetched. *)
Lemma handleSend_completed_turn_witness :
  length (messages (store Examples.failed_turn)) = 18
  /\ totalTokensUsed (store Examples.failed_turn) = 150%Z
  /\ isLoading (store Examples.failed_turn) = false.
Proof.
  destruct (handleSend_completed_turn
              Examples.unreachable Examples.answering Examples.long_render
              "  What changed in 2023? " (Examples.stamp 16) (Examples.stamp 17)
              Examples.long_world "an answer" (mkUsage 120 30)
              eq_refl eq_refl eq_refl eq_refl eq_refl)
    as (Hm & Ht & Hl & _).
  split; [|split; [exact Ht|exact Hl]].
  unfold Examples.failed_turn. rewrite Hm. vm_compute. reflexivity.
Defined.

(** A send whose streaming call fails keeps the user's message in the
    store and adds no reply, shows the message of what was thrown as the
    chat error, stops loading, and leaves the summary, the token counter
    and the console as they were: no summarization is asked for. *)
Theorem handleSend_failed_stream :
  forall (net : Endpoint) (stream : list (Role * string) -> StreamEnd)
         (r : Render) (inputValue : string) (su sa : Stamp) (w : World)
         (err : Thrown),
    Js.truthy_str (JsString.trim inputValue) = true ->
    r_isLoading r = false ->
    Js.truthy (r_apiKey r) = true ->
    r_isValidated r = true ->
    stream (apiMessages (Spec.sent su (JsString.trim inputValue) (store w))
                        (JsString.trim inputValue))
    = Failed err ->
    let w' := handleSend net stream r inputValue su sa w in
    messages (store w')
    = Js.slice_last 50
        (messages (store w)
         ++ [ newMessage su user (JsString.trim inputValue) None ])
    /\ error (store w') = Some (message err)
    /\ isLoading (store w') = false
    /\ conversationSummary (store w') = conversationSummary (store w)
    /\ totalTokensUsed (store w') = totalTokensUsed (store w)
    /\ console w' = console w
    /\ modal_opened w' = modal_opened w.
Proof.
  intros net stream r inputValue su sa w err
         Hinput Hloading Hkey Hvalid Hstream w'.
  subst w'. rewrite handleSend_proceeds by assumption. rewrite Hstream.
  unfold onError, with_store. simpl.
  rewrite addMessage_messages.
  destruct (addMessage_frame su user (JsString.trim inputValue) None (store w))
    as (_ & _ & Hs & Ht & _).
  rewrite Hs, Ht. repeat split.
Qed.

Lemma handleSend_failed_stream_witness :
  error (store (handleSend Examples.unreachable Samples.failing
                  Examples.long_render "Why?" (Examples.stamp 16)
                  (Examples.stamp 17) Examples.long_world))
  = Some "Overloaded"
  /\ length (messages (store (handleSend Examples.unreachable Samples.failing
                                Examples.long_render "Why?" (Examples.stamp 16)
                                (Examples.stamp 17) Examples.long_world))) = 17.
Proof.
  destruct (handleSend_failed_stream
              Examples.unreachable Samples.failing Examples.long_render
              "Why?" (Examples.stamp 16) (Examples.stamp 17)
              Examples.long_world (Error "Overloaded")
              eq_refl eq_refl eq_refl eq_refl eq_refl)
    as (Hm & He & _).
  split; [exact He|]. rewrite Hm. vm_compute. reflexivity.
Defined.

(** [handleSend] does nothing at all when the input is blank or a
    request is in flight, and only asks for the key modal, leaving the
    store and the console alone, when the key is missing or not
    validated. In neither case does the outcome depend on the network. *)
Theorem handleSend_guards :
  forall (net : Endpoint) (stream : list (Role * string) -> StreamEnd)
         (r : Render) (inputValue : string) (su sa : Stamp) (w : World),
    (JsString.trim inputValue = EmptyString \/ r_isLoading r = true ->
     handleSend net stream r inputValue su sa w = w)
    /\ (JsString.trim inputValue <> EmptyString ->
        r_isLoading r = false ->
        r_apiKey r = None \/ r_apiKey r = Some EmptyString
        \/ r_isValidated r = false ->
        handleSend net stream r inputValue su sa w
        = mkWorld (store w) (console w) true).
Proof.
  intros net stream r inputValue su sa w. unfold handleSend, Js.truthy_str.
  split.
  - intros [Hblank|Hloading].
    + rewrite Hblank. reflexivity.
    + rewrite Hloading, orb_true_r. reflexivity.
  - intros Hinput Hloading Hkey.
    apply String.eqb_neq in Hinput. rewrite Hinput, Hloading. simpl.
    destruct Hkey as [Hkey|[Hkey|Hvalid]].
    + rewrite Hkey. reflexivity.
    + rewrite Hkey. reflexivity.
    + rewrite Hvalid, orb_true_r. reflexivity.
Qed.

(** The theorem at work: a blank input, and a user without a key. *)
Lemma handleSend_guards_witness :
  handleSend Examples.echoing Examples.answering Examples.long_render
             "   " (Examples.stamp 16) (Examples.stamp 17) Examples.long_world
  = Examples.long_world
  /\ modal_opened
       (handleSend Examples.echoing Examples.answering
                   (render_of Examples.long_store None false)
                   "Why?" (Examples.stamp 16) (Examples.stamp 17)
                   Examples.long_world) = true.
Proof.
  split.
  - apply (proj1 (handleSend_guards Examples.echoing Examples.answering
                    Examples.long_render "   " (Examples.stamp 16)
                    (Examples.stamp 17) Examples.long_world)).
    now left.
  - rewrite (proj2 (handleSend_guards Examples.echoing Examples.answering
                      (render_of Examples.long_store None false) "Why?"
                      (Examples.stamp 16) (Examples.stamp 17)
                      Examples.long_world));
      [reflexivity|discriminate|reflexivity|now left].
Defined.

End SendFacts.

(* ===================================================================== *)
(** ** The Claude service: how a request ends *)
(* ===================================================================== *)

Section ClaudeServiceFacts.
Import Types Async ClaudeService.

Lemma or_string_nonempty x d :
  d <> EmptyString -> or_string x d <> EmptyString.
Proof.
  intros Hd. unfold or_string, Js.truthy_str.
  destruct x as [s|]; [|exact Hd].
  destruct (String.eqb_spec s EmptyString); [exact Hd|assumption].
Qed.

Lemma api_error_text_nonempty r b : api_error_text r b <> EmptyString.
Proof. unfold api_error_text. apply or_string_nonempty. discriminate. Qed.

(** When the endpoint answers with a status outside 200-299,
    [sendClaudeMessage] never resolves: it rejects with an Error whose
    message is never empty, the provider's message when the body is JSON
    and carries a non-empty one, and the text "API error: " followed by
    the status otherwise, also when the body is not JSON at all. *)
Theorem sendClaudeMessage_refused :
  forall (net : Endpoint) (params : ClaudeMessageParams) (response : Response),
    net (mkRequest (apiKey params) (Some (systemPrompt params))
                   (p_messages params) (maxTokens params)
                   (Some (temperature_tenths params)) false)
    = inr response ->
    ok response = false ->
    exists msg,
      sendClaudeMessage net params = inl (Error msg)
      /\ msg <> EmptyString
      /\ (forall b m, json_body response = Some b ->
                      error_message b = Some m -> m <> EmptyString -> msg = m)
      /\ (json_body response = None ->
          msg = ("API error: " ++ nat_to_string (status response))%string).
Proof.
  intros net params response Hnet Hok.
  exists (api_error_text response (catch_default (json response) empty_body)).
  split.
  - unfold sendClaudeMessage. rewrite Hnet. simpl. now rewrite Hok.
  - split; [apply api_error_text_nonempty|]. split.
    + intros b m Hb Hm Hne. unfold json. rewrite Hb. simpl.
      unfold api_error_text, or_string, Js.truthy_str. rewrite Hm.
      now destruct (String.eqb_spec m EmptyString).
    + intros Hb. unfold json. rewrite Hb. reflexivity.
Qed.

Lemma sendClaudeMessage_refused_witness :
  sendClaudeMessage (Examples.answering_with Samples.overloaded)
                    Samples.sample_params
  = inl (Error "Overloaded").
Proof.
  destruct (sendClaudeMessage_refused
              (Examples.answering_with Samples.overloaded)
              Samples.sample_params Samples.overloaded eq_refl eq_refl)
    as (msg & Hsend & _ & Hprovider & _).
  rewrite Hsend. f_equal. f_equal.
  apply (Hprovider _ "Overloaded" eq_refl eq_refl). discriminate.
Defined.

(** When the endpoint answers 200-299 with a JSON body,
    [sendClaudeMessage] resolves, with the empty text when the body has
    no text and with zero for each token count it does not give; with a
    body that is not JSON it rejects with the parser's error. The
    summarization then stores the empty text as the summary or fails. *)
Theorem sendClaudeMessage_accepted :
  forall (net : Endpoint) (params : ClaudeMessageParams) (response : Response),
    net (mkRequest (apiKey params) (Some (systemPrompt params))
                   (p_messages params) (maxTokens params)
                   (Some (temperature_tenths params)) false)
    = inr response ->
    ok response = true ->
    (forall data, json_body response = Some data ->
       exists text usage,
         sendClaudeMessage net params = inr (text, usage)
         /\ (content_text data = None -> text = EmptyString)
         /\ (forall t, content_text data = Some t -> text = t)
         /\ (input_tokens data = None -> input usage = 0%Z)
         /\ (output_tokens data = None -> output usage = 0%Z))
    /\ (json_body response = None ->
        exists e, sendClaudeMessage net params = inl (SyntaxError e)).
Proof.
  intros net params response Hnet Hok. split.
  - intros data Hdata.
    exists (or_string (content_text data) EmptyString),
           (mkUsage (or_zero (input_tokens data)) (or_zero (output_tokens data))).
    split.
    + unfold sendClaudeMessage, json. rewrite Hnet. simpl.
      now rewrite Hok, Hdata.
    + repeat split.
      * now intros ->.
      * intros t ->. unfold or_string, Js.truthy_str.
        now destruct (String.eqb_spec t EmptyString).
      * now intros ->.
      * now intros ->.
  - intros Hbody. exists "Unexpected token in JSON".
    unfold sendClaudeMessage, json. rewrite Hnet. simpl.
    now rewrite Hok, Hbody.
Qed.

Lemma sendClaudeMessage_accepted_witness :
  exists text usage,
    sendClaudeMessage Examples.echoing Samples.sample_params = inr (text, usage)
    /\ text = "Hi" /\ input usage = 0%Z.
Proof.
  destruct (sendClaudeMessage_accepted
              Examples.echoing Samples.sample_params
              (mkResponse 200 (Some (mkBody None (Some "Hi") None None)))
              eq_refl eq_refl) as (Hjson & _).
  destruct (Hjson _ eq_refl) as (text & usage & Hsend & _ & Htext & Hin & _).
  exists text, usage. split; [exact Hsend|].
  split; [exact (Htext "Hi" eq_refl)|exact (Hin eq_refl)].
Defined.

End ClaudeServiceFacts.

Section StreamFacts.
Import Types Async ClaudeService Stream.

Variable JSON_parse : string -> option SseEvent.

Lemma concat_all_snoc l t :
  Props.concat_all (l ++ [t]) = (Props.concat_all l ++ t)%string.
Proof.
  induction l as [|x l IH]; simpl.
  - now rewrite append_empty_r.
  - now rewrite IH, append_assoc.
Qed.

Lemma on_line_invariant p line :
  fullResponse p = Props.concat_all (emitted p) ->
  fullResponse (on_line JSON_parse p line)
  = Props.concat_all (emitted (on_line JSON_parse p line)).
Proof.
  intros Hinv. unfold on_line.
  destruct (JsString.startsWith _ _); [|exact Hinv].
  destruct (String.eqb _ "[DONE]"); [exact Hinv|].
  destruct (JSON_parse _) as [parsed|]; [|exact Hinv].
  destruct (String.eqb (ev_type parsed) "content_block_delta");
    destruct (String.eqb (ev_type parsed) "message_delta");
    destruct (String.eqb (ev_type parsed) "message_start"); simpl;
    try exact Hinv; now rewrite concat_all_snoc, Hinv.
Qed.

Lemma fold_on_line_invariant lines : forall p,
  fullResponse p = Props.concat_all (emitted p) ->
  fullResponse (fold_left (on_line JSON_parse) lines p)
  = Props.concat_all (emitted (fold_left (on_line JSON_parse) lines p)).
Proof.
  induction lines as [|line lines IH]; intros p Hinv; simpl; [exact Hinv|].
  apply IH. now apply on_line_invariant.
Qed.

Lemma read_all_invariant cs :
  fullResponse (read_all JSON_parse cs)
  = Props.concat_all (emitted (read_all JSON_parse cs)).
Proof.
  unfold read_all. generalize start (eq_refl : fullResponse start
                                     = Props.concat_all (emitted start)).
  induction cs as [|c cs IH]; intros p Hinv; simpl; [exact Hinv|].
  apply IH. unfold on_chunk. now apply fold_on_line_invariant.
Qed.

(** Whatever the parser makes of the lines, the text [streamClaudeMessage]
    hands to [onComplete] is the texts it handed to [onToken], in order,
    one after the other. It ends with [onComplete] only when the status
    is 200-299, the response has a body and no read of it fails; when it
    fails before the body is read, [onToken] was never called. *)
Theorem streamClaudeMessage_tokens_add_up :
  forall (net : StreamEndpoint) (params : ClaudeMessageParams),
    (forall tokens full usage,
        streamClaudeMessage JSON_parse net params
        = (tokens, Completed full usage) ->
        full = Props.concat_all tokens
        /\ exists response b,
             net (mkRequest (apiKey params) (Some (systemPrompt params))
                            (p_messages params) (maxTokens params)
                            (Some (temperature_tenths params)) true)
             = inr response
             /\ ok (head response) = true
             /\ body response = Some b
             /\ read_failure b = None)
    /\ (forall tokens e response,
          streamClaudeMessage JSON_parse net params = (tokens, Failed e) ->
          net (mkRequest (apiKey params) (Some (systemPrompt params))
                         (p_messages params) (maxTokens params)
                         (Some (temperature_tenths params)) true)
          = inr response ->
          ok (head response) = false \/ body response = None ->
          tokens = []).
Proof.
  intros net params. unfold streamClaudeMessage. split.
  - intros tokens full usage.
    destruct (net _) as [e|response]; [discriminate|].
    destruct (ok (head response)) eqn:Hok; simpl; [|discriminate].
    destruct (body response) as [b|] eqn:Hbody; [|discriminate].
    destruct (read_failure b) eqn:Hread; [discriminate|].
    intros [= <- <- _]. split; [apply read_all_invariant|].
    exists response, b. auto.
  - intros tokens e response Hend Hnet Hearly. rewrite Hnet in Hend.
    destruct Hearly as [Hok|Hbody].
    + rewrite Hok in Hend. simpl in Hend. now injection Hend as <- _.
    + rewrite Hbody in Hend.
      destruct (negb (ok (head response))); now injection Hend as <- _.
Qed.

End StreamFacts.

Section StreamSample.
Import Types Async ClaudeService Stream.

(** The theorem at work: three data lines in two chunks, and a line that
    is not data. *)
Lemma streamClaudeMessage_tokens_add_up_witness :
  streamClaudeMessage Samples.text_parser
    (Samples.streaming Samples.sample_chunks) Samples.sample_params
  = (["Mag"; "anda"; "ng araw"], Completed "Magandang araw" (mkUsage 0 0))
  /\ "Magandang araw" = Props.concat_all ["Mag"; "anda"; "ng araw"].
Proof.
  assert (Hrun : streamClaudeMessage Samples.text_parser
                   (Samples.streaming Samples.sample_chunks) Samples.sample_params
                 = (["Mag"; "anda"; "ng araw"],
                    Completed "Magandang araw" (mkUsage 0 0)))
    by reflexivity.
  split; [exact Hrun|].
  exact (proj1 (proj1 (streamClaudeMessage_tokens_add_up Samples.text_parser
                         (Samples.streaming Samples.sample_chunks)
                         Samples.sample_params) _ _ _ Hrun)).
Defined.

End StreamSample.

(* ===================================================================== *)
(** ** The API-key store: storing a key *)
(* ===================================================================== *)

Section SetApiKeyFacts.
Import Types Async ClaudeService ApiKeyStore.

Lemma validateApiKey_resolves_true net key answer :
  validateApiKey net key = inr answer -> answer = true.
Proof.
  unfold validateApiKey.
  destruct (net (probe key)) as [e|response]; simpl.
  - destruct e as [m|m|m]; try discriminate.
    destruct (JsString.includes "fetch" m); discriminate.
  - destruct (ok response); simpl; [now intros [= <-]|].
    unfold json. destruct (json_body response) as [b|]; simpl; [|discriminate].
    destruct (status response =? 401); simpl; [discriminate|].
    destruct (status response =? 429); simpl; [now intros [= <-]|discriminate].
Qed.

(** [validateApiKey] never resolves to false: it resolves to true or it
    rejects. The branch of [setApiKey] for a false answer is therefore
    never taken: every call of [setApiKey] succeeds, or turns the key
    down as empty, or as badly formed, or with the message of what
    [validateApiKey] threw; and the text of that branch, "API key
    validation failed. Please check your key.", is shown only when it
    is itself the message of what was thrown. *)
Theorem validateApiKey_true_or_rejects :
  forall (net : Endpoint) (key : string),
    (forall answer, validateApiKey net key = inr answer -> answer = true)
    /\ (forall now st,
          setApiKey net now key st
          = (true, mkApiKeyState (Some (JsString.trim key)) true false None
                                 (Some now))
          \/ (fst (setApiKey net now key st) = false
              /\ validationError (snd (setApiKey net now key st))
                 = Some "API key cannot be empty")
          \/ (fst (setApiKey net now key st) = false
              /\ validationError (snd (setApiKey net now key st))
                 = Some bad_format_text)
          \/ exists e, validateApiKey net (JsString.trim key) = inl e
                       /\ fst (setApiKey net now key st) = false
                       /\ validationError (snd (setApiKey net now key st))
                          = Some (message e))
    /\ (forall now st,
          validationError (snd (setApiKey net now key st))
          = Some "API key validation failed. Please check your key." ->
          exists e, validateApiKey net (JsString.trim key) = inl e
                    /\ message e
                       = "API key validation failed. Please check your key.").
Proof.
  intros net key.
  split; [exact (validateApiKey_resolves_true net key)|].
  split.
  - intros now st. unfold setApiKey.
    destruct (negb (Js.truthy_str (JsString.trim key))); [right; now left|].
    destruct (negb (JsString.startsWith "sk-ant-" (JsString.trim key)));
      [right; right; now left|].
    destruct (validateApiKey net (JsString.trim key)) as [e|[|]] eqn:Htrim.
    + right. right. right. now exists e.
    + now left.
    + apply validateApiKey_resolves_true in Htrim. discriminate.
  - intros now st. unfold setApiKey.
    destruct (negb (Js.truthy_str (JsString.trim key))); [discriminate|].
    destruct (negb (JsString.startsWith "sk-ant-" (JsString.trim key)));
      [discriminate|].
    destruct (validateApiKey net (JsString.trim key)) as [e|[|]] eqn:Htrim.
    + simpl. intros [= H]. now exists e.
    + discriminate.
    + apply validateApiKey_resolves_true in Htrim. discriminate.
Qed.

(** The theorem at work: the provider's own rate-limit answer resolves
    to true. *)
Lemma validateApiKey_true_or_rejects_witness :
  validateApiKey (Examples.answering_with Examples.rate_limited_json)
                 "sk-ant-sample" = inr true.
Proof.
  destruct (validateApiKey (Examples.answering_with Examples.rate_limited_json)
                           "sk-ant-sample") as [e|answer] eqn:Hrun.
  - discriminate Hrun.
  - f_equal.
    exact (proj1 (validateApiKey_true_or_rejects
                    (Examples.answering_with Examples.rate_limited_json)
                    "sk-ant-sample") answer Hrun).
Defined.

(** [setApiKey] returns true exactly when the trimmed key is not empty,
    starts with sk-ant- and is accepted by [validateApiKey]; the store
    then holds the trimmed key, marked validated, with no error. When it
    returns false, the key, the validated flag and the validation date
    stored before are untouched and a validation error is shown. A key
    that is blank or has the wrong prefix is turned down without the
    network being asked. *)
Theorem setApiKey_stores_only_validated_keys :
  forall (net : Endpoint) (now : Z) (key : string) (st : ApiKeyState),
    (fst (setApiKey net now key st) = true <->
       JsString.trim key <> EmptyString
       /\ JsString.startsWith "sk-ant-" (JsString.trim key) = true
       /\ validateApiKey net (JsString.trim key) = inr true)
    /\ (fst (setApiKey net now key st) = true ->
        snd (setApiKey net now key st)
        = mkApiKeyState (Some (JsString.trim key)) true false None (Some now))
    /\ (fst (setApiKey net now key st) = false ->
        apiKey (snd (setApiKey net now key st)) = apiKey st
        /\ isValidated (snd (setApiKey net now key st)) = isValidated st
        /\ lastValidated (snd (setApiKey net now key st)) = lastValidated st
        /\ validationError (snd (setApiKey net now key st)) <> None)
    /\ (JsString.trim key = EmptyString
        \/ JsString.startsWith "sk-ant-" (JsString.trim key) = false ->
        forall net', setApiKey net' now key st = setApiKey net now key st).
Proof.
  intros net now key st. unfold setApiKey, Js.truthy_str.
  destruct (String.eqb_spec (JsString.trim key) EmptyString) as [Hblank|Hkey];
    simpl.
  - split; [split; [discriminate|now intros (H & _)]|].
    split; [discriminate|]. split; [|reflexivity].
    intros _. repeat split. discriminate.
  - destruct (JsString.startsWith "sk-ant-" (JsString.trim key)) eqn:Hprefix;
      simpl.
    + destruct (validateApiKey net (JsString.trim key)) as [e|[|]] eqn:Hrun;
        simpl.
      * split; [split; [discriminate|now intros (_ & _ & H)]|].
        split; [discriminate|]. split.
        -- intros _. repeat split. discriminate.
        -- intros [H|H]; [contradiction|discriminate].
      * split; [split; [auto|reflexivity]|].
        split; [reflexivity|]. split; [discriminate|].
        intros [H|H]; [contradiction|discriminate].
      * apply validateApiKey_resolves_true in Hrun. discriminate.
    + split; [split; [discriminate|now intros (_ & H & _)]|].
      split; [discriminate|]. split; [|reflexivity].
      intros _. repeat split. discriminate.
Qed.

(** The theorem at work: a key with the wrong prefix does not replace
    the stored key, whatever the network would answer. *)
Lemma setApiKey_stores_only_validated_keys_witness :
  fst (setApiKey Examples.unreachable 9%Z " my-key " Samples.keyed_store) = false
  /\ apiKey (snd (setApiKey Examples.unreachable 9%Z " my-key "
                            Samples.keyed_store)) = Some "sk-ant-old"
  /\ isValidated (snd (setApiKey Examples.unreachable 9%Z " my-key "
                                 Samples.keyed_store)) = true.
Proof.
  assert (Hfalse : fst (setApiKey Examples.unreachable 9%Z " my-key "
                                  Samples.keyed_store) = false)
    by reflexivity.
  destruct (proj1 (proj2 (proj2 (setApiKey_stores_only_validated_keys
                                   Examples.unreachable 9%Z " my-key "
                                   Samples.keyed_store))) Hfalse)
    as (Hkey & Hvalid & _).
  split; [exact Hfalse|]. split; [exact Hkey|exact Hvalid].
Defined.

(** When the endpoint cannot be reached, [fetch] rejecting with a
    TypeError whose message mentions fetch, a well-formed key is turned
    down with the validation error "Network error. Please check your
    internet connection."; any other rejection is shown with its own
    message. The stored key stays. *)
Theorem setApiKey_network_failure :
  forall (net : Endpoint) (now : Z) (key : string) (st : ApiKeyState)
         (e : Thrown),
    JsString.trim key <> EmptyString ->
    JsString.startsWith "sk-ant-" (JsString.trim key) = true ->
    net (probe (JsString.trim key)) = inl e ->
    setApiKey net now key st
    = (false,
       mkApiKeyState (apiKey st) (isValidated st) false
         (Some (match e with
                | TypeError m =>
                    if JsString.includes "fetch" m
                    then network_error_text else m
                | _ => message e
                end))
         (lastValidated st)).
Proof.
  intros net now key st e Hkey Hprefix Hnet.
  unfold setApiKey, Js.truthy_str, validateApiKey.
  apply String.eqb_neq in Hkey. rewrite Hkey, Hprefix, Hnet. simpl.
  destruct e as [m|m|m]; simpl; try reflexivity.
  destruct (JsString.includes "fetch" m); reflexivity.
Qed.

Lemma setApiKey_network_failure_witness :
  validationError (snd (setApiKey Examples.unreachable 9%Z "sk-ant-new"
                                  Samples.keyed_store))
  = Some "Network error. Please check your internet connection."
  /\ apiKey (snd (setApiKey Examples.unreachable 9%Z "sk-ant-new"
                            Samples.keyed_store)) = Some "sk-ant-old".
Proof.
  assert (Hne : JsString.trim "sk-ant-new" <> EmptyString) by discriminate.
  rewrite (setApiKey_network_failure Examples.unreachable 9%Z "sk-ant-new"
             Samples.keyed_store (TypeError "Failed to fetch")
             Hne eq_refl eq_refl).
  split; reflexivity.
Defined.

End SetApiKeyFacts.

(* ===================================================================== *)
(** ** The query service: the WHERE clause as a whole *)
(* ===================================================================== *)

Section WhereFacts.
Import Sql DuckDB.

Lemma all_hold_app r cs1 : forall cs2,
  all_hold r (cs1 ++ cs2)
  = match all_hold r cs1, all_hold r cs2 with
    | Some a, Some b => Some (a && b)
    | _, _ => None
    end.
Proof.
  induction cs1 as [|c cs1 IH]; intros cs2; simpl.
  - now destruct (all_hold r cs2).
  - rewrite IH.
    destruct (holds r c), (all_hold r cs1), (all_hold r cs2); simpl;
      try reflexivity.
    now rewrite andb_assoc.
Qed.

Lemma when_truthy_unset x f : Props.unset x -> when_truthy x f = [].
Proof. now intros [->| ->]. Qed.

Lemma all_hold_when_truthy r x f :
  (forall s, exists b, holds r (f s) = Some b) ->
  exists b, all_hold r (when_truthy x f) = Some b.
Proof.
  intros Hf. unfold when_truthy. destruct x as [s|]; [|now exists true].
  destruct (Js.truthy_str s); [|now exists true].
  destruct (Hf s) as (b & Hb). exists (b && true). simpl. now rewrite Hb.
Qed.

Lemma all_hold_when_defined r x f :
  (forall z, exists b, holds r (f z) = Some b) ->
  exists b, all_hold r (when_defined x f) = Some b.
Proof.
  intros Hf. unfold when_defined. destruct x as [z|]; [|now exists true].
  destruct (Hf z) as (b & Hb). exists (b && true). simpl. now rewrite Hb.
Qed.

(** Without a date option the model covers the clause, and says of
    every row whether it is kept. *)
Lemma satisfies_without_dates o r :
  Props.unset (startDate o) -> Props.unset (endDate o) ->
  exists bq ba bc bmin bmax,
    all_hold r (when_truthy (searchQuery o) search_condition) = Some bq
    /\ all_hold r (when_truthy (area o) area_condition) = Some ba
    /\ all_hold r (when_truthy (category o) category_condition) = Some bc
    /\ all_hold r (when_defined (minAmount o) AmountGe) = Some bmin
    /\ all_hold r (when_defined (maxAmount o) AmountLe) = Some bmax
    /\ satisfies o r = Some (bq && (ba && (bc && (bmin && bmax)))).
Proof.
  intros Hs He.
  destruct (all_hold_when_truthy r (searchQuery o) search_condition)
    as (bq & Hq).
  { intros q. destruct (holds_search_condition q r) as (x & y & z & H).
    exists (x || y || z). apply H. }
  destruct (all_hold_when_truthy r (area o) area_condition) as (ba & Ha).
  { intros a. apply holds_text_known. }
  destruct (all_hold_when_truthy r (category o) category_condition)
    as (bc & Hc).
  { intros c. apply holds_text_known. }
  destruct (all_hold_when_defined r (minAmount o) AmountGe) as (bmin & Hmin).
  { intros z. simpl. eauto. }
  destruct (all_hold_when_defined r (maxAmount o) AmountLe) as (bmax & Hmax).
  { intros z. simpl. eauto. }
  exists bq, ba, bc, bmin, bmax. repeat split; try assumption.
  unfold satisfies, conditions.
  rewrite (when_truthy_unset _ DateGe Hs), (when_truthy_unset _ DateLe He).
  rewrite !app_nil_r, !all_hold_app, Hq, Ha, Hc, Hmin, Hmax. reflexivity.
Qed.

(** With no date option given, a row whose award title, awardee name
    and organization name are all NULL is kept by no search query, not
    even one made of wildcards; a row whose area is NULL is kept by no
    area filter, and a row whose category is NULL by no category
    filter. *)
Theorem null_columns_match_nothing :
  forall (o : QueryOptions) (r : ContractRow),
    Props.unset (startDate o) -> Props.unset (endDate o) ->
    (forall q, searchQuery o = Some q -> q <> EmptyString ->
               award_title r = None -> awardee_name r = None ->
               organization_name r = None ->
               satisfies o r = Some false)
    /\ (forall a, area o = Some a -> a <> EmptyString ->
                  area_of_delivery r = None -> satisfies o r = Some false)
    /\ (forall c, category o = Some c -> c <> EmptyString ->
                  business_category r = None -> satisfies o r = Some false).
Proof.
  intros o r Hs He.
  destruct (satisfies_without_dates o r Hs He)
    as (bq & ba & bc & bmin & bmax & Hq & Ha & Hc & _ & _ & ->).
  split; [|split].
  - intros q Hsome Hne Ht Hn Ho.
    rewrite Hsome, when_truthy_nonempty in Hq by exact Hne.
    unfold search_condition in Hq. cbn [all_hold holds column_value] in Hq.
    rewrite Ht, Hn, Ho, unquote_search_literal in Hq.
    injection Hq as <-. reflexivity.
  - intros a Hsome Hne Hnull.
    rewrite Hsome, when_truthy_nonempty in Ha by exact Hne.
    unfold area_condition in Ha. cbn [all_hold holds column_value] in Ha.
    rewrite Hnull, unquote_escape in Ha.
    injection Ha as <-. now rewrite andb_false_r.
  - intros c Hsome Hne Hnull.
    rewrite Hsome, when_truthy_nonempty in Hc by exact Hne.
    unfold category_condition in Hc. cbn [all_hold holds column_value] in Hc.
    rewrite Hnull, unquote_escape in Hc.
    injection Hc as <-. now rewrite !andb_false_r.
Qed.

(** The theorem at work: the wildcard query % on a row with no text. *)
Lemma null_columns_match_nothing_witness :
  satisfies (Examples.only_search "%") Samples.blank_contract = Some false.
Proof.
  apply (proj1 (null_columns_match_nothing (Examples.only_search "%")
                  Samples.blank_contract (or_introl eq_refl)
                  (or_introl eq_refl)) "%" eq_refl);
    [discriminate|reflexivity|reflexivity|reflexivity].
Defined.

End WhereFacts.


(* ===================================================================== *)
(** ** The query service: the WHERE clause as the engine reads it *)
(* ===================================================================== *)

Section ReadFacts.
Import Sql DuckDB Engine Asked.

Lemma run_app a : forall st b,
  run st (a ++ b)
  = match run st a with
    | Some (ta, st') =>
        match run st' b with
        | Some (tb, st'') => Some (ta ++ tb, st'')
        | None => None
        end
    | None => None
    end.
Proof.
  induction a as [|c a IH]; intros st b; simpl.
  - destruct (run st b) as [[tb st'']|]; reflexivity.
  - destruct (step st c) as [[ts st']|]; [|reflexivity].
    rewrite IH. destruct (run st' a) as [[ta st1]|]; [|reflexivity].
    destruct (run st1 b) as [[tb st2]|]; [|reflexivity].
    now rewrite app_assoc.
Qed.

Lemma reads_tokens text ks : reads_as text ks -> tokens text = Some ks.
Proof.
  intros (front & st & back & Hrun & Hfin & <-).
  unfold tokens. now rewrite Hrun, Hfin.
Qed.

Lemma tokens_reads text ks : tokens text = Some ks -> reads_as text ks.
Proof.
  unfold tokens, reads_as. destruct (run Ready text) as [[front st]|]; [|discriminate].
  destruct (finish st) as [back|] eqn:Hfin; [|discriminate].
  simpl. intros [= <-]. now exists front, st, back.
Qed.

Lemma step_blank st back b :
  is_blank b = true -> finish st = Some back -> step st b = Some (back, Ready).
Proof.
  intros Hb Hfin.
  assert (Hbegin : begin b = Some ([], Ready)) by (unfold begin; now rewrite Hb).
  assert (Hnot : is_word_char b = false /\ Ascii.eqb b JsString.quote = false
                 /\ is_digit b = false /\ is_word_start b = false).
  { destruct b as [[|] [|] [|] [|] [|] [|] [|] [|]];
      try discriminate Hb; repeat split. }
  destruct Hnot as (Hw & Hq & Hd & Hs).
  destruct st; simpl in *; try discriminate Hfin; injection Hfin as <-.
  - exact Hbegin.
  - now rewrite Hw, Hbegin.
  - now rewrite Hq, Hbegin.
  - now rewrite Hd, Hs, Hbegin.
Qed.

Lemma reads_blank t1 k1 b t2 k2 :
  is_blank b = true -> reads_as t1 k1 -> reads_as t2 k2 ->
  reads_as (t1 ++ String b t2) (k1 ++ k2).
Proof.
  intros Hb (f1 & st1 & b1 & Hr1 & Hf1 & <-) (f2 & st2 & b2 & Hr2 & Hf2 & <-).
  exists (f1 ++ b1 ++ f2), st2, b2. repeat split; [|exact Hf2|].
  - rewrite run_app, Hr1. simpl. rewrite (step_blank st1 b1 b Hb Hf1), Hr2.
    reflexivity.
  - now rewrite <- !app_assoc.
Qed.

Lemma reads_after_blank b t k :
  is_blank b = true -> reads_as t k -> reads_as (String b t) k.
Proof.
  intros Hb Ht.
  apply (reads_blank EmptyString [] b t k Hb); [|exact Ht].
  now exists [], Ready, [].
Qed.


Lemma append_snoc v c s : (snoc v c ++ s)%string = (v ++ String c s)%string.
Proof. unfold snoc. induction v as [|x v IH]; simpl; [reflexivity|now rewrite IH]. Qed.

Lemma run_escape s : forall v,
  run (InText v) (JsString.escape_quotes s) = Some ([], InText (v ++ s)%string).
Proof.
  induction s as [|c s IH]; intros v; simpl.
  - now rewrite append_empty_r.
  - destruct (Ascii.eqb c JsString.quote) eqn:Hc; simpl.
    + rewrite IH, append_snoc. apply Ascii.eqb_eq in Hc. now subst c.
    + rewrite Hc, IH, append_snoc. reflexivity.
Qed.

(** A literal whose quotes are doubled reads as one token, whose value
    is the text before the doubling. *)
Lemma reads_literal v :
  reads_as (String JsString.quote (JsString.escape_quotes v ++ "'")) [Text v].
Proof.
  exists [], (QuoteSeen v), [Text v]. repeat split.
  change (run Ready (String JsString.quote (JsString.escape_quotes v ++ "'")))
    with (match run (InText EmptyString) (JsString.escape_quotes v ++ "'") with
          | Some (ts', st'') => Some ([] ++ ts', st'')
          | None => None
          end).
  rewrite run_app, run_escape. reflexivity.
Qed.

Lemma search_literal_escape q :
  search_literal q = JsString.escape_quotes (search_pattern q).
Proof.
  unfold search_literal, search_pattern. rewrite toLowerCase_escape_quotes.
  simpl. f_equal.
  induction (JsString.toLowerCase q) as [|c s IH]; simpl; [reflexivity|].
  destruct (Ascii.eqb c JsString.quote); simpl; now rewrite IH.
Qed.

Lemma run_digits d : forall negative digits,
  run (InNumber negative digits) (NilEmpty.string_of_uint d)
  = Some ([], InNumber negative (digits ++ NilEmpty.string_of_uint d)%string).
Proof.
  induction d; intros negative digits; simpl;
    try (rewrite IHd, append_snoc; reflexivity).
  now rewrite append_empty_r.
Qed.

Lemma reads_digits (negative : bool) p :
  run (if negative then Minus else Ready) (NilEmpty.string_of_uint (Pos.to_uint p))
  = Some ([], InNumber negative (NilEmpty.string_of_uint (Pos.to_uint p))).
Proof.
  pose proof (Unsigned.to_uint_nonnil p) as Hnil.
  destruct (Pos.to_uint p) as [|d|d|d|d|d|d|d|d|d|d]; [now contradiction Hnil| ..];
    destruct negative; simpl; rewrite run_digits; reflexivity.
Qed.

Lemma number_value_digits (negative : bool) p :
  number_value negative (NilEmpty.string_of_uint (Pos.to_uint p))
  = if negative then Z.neg p else Z.pos p.
Proof.
  unfold number_value. rewrite NilEmpty.usu. unfold Z.of_uint.
  rewrite DecimalPos.Unsigned.of_to. now destruct negative.
Qed.

Lemma reads_number z : reads_as (Z_to_string z) [Number z].
Proof.
  unfold Z_to_string. destruct z as [|p|p]; simpl.
  - apply tokens_reads. reflexivity.
  - exists (@nil Token), (InNumber false (NilEmpty.string_of_uint (Pos.to_uint p))),
           [Number (Z.pos p)].
    repeat split.
    + apply (reads_digits false).
    + simpl. now rewrite (number_value_digits false).
  - exists (@nil Token), (InNumber true (NilEmpty.string_of_uint (Pos.to_uint p))),
           [Number (Z.neg p)].
    repeat split.
    + simpl. now rewrite (reads_digits true p).
    + simpl. now rewrite (number_value_digits true).
Qed.


Lemma reads_like col q :
  reads_as (render (LowerLike col (search_literal q)))
           (like_tokens col (search_pattern q)).
Proof.
  rewrite search_literal_escape.
  assert (Hhead : reads_as ("LOWER(" ++ column_name col ++ ")")
                           [Word "LOWER"; Open; Word (column_name col); Close])
    by (destruct col; apply tokens_reads; reflexivity).
  pose proof (reads_blank _ _ " "%char _ _ eq_refl Hhead
                (reads_blank "LIKE" [Word "LIKE"] " "%char _ _ eq_refl
                   (tokens_reads "LIKE" [Word "LIKE"] eq_refl)
                   (reads_literal (search_pattern q)))) as H.
  destruct col; exact H.
Qed.

Lemma reads_text_eq col a :
  reads_as (render (TextEq col (JsString.escape_quotes a)))
           [Word (column_name col); Equals; Text a].
Proof.
  assert (Hhead : reads_as (column_name col) [Word (column_name col)])
    by (destruct col; apply tokens_reads; reflexivity).
  pose proof (reads_blank _ _ " "%char _ _ eq_refl Hhead
                (reads_blank "=" [Equals] " "%char _ _ eq_refl
                   (tokens_reads "=" [Equals] eq_refl)
                   (reads_literal a))) as H.
  destruct col; exact H.
Qed.

Lemma reads_amount_ge b :
  reads_as (render (AmountGe b)) [Word "contract_amount"; Ge; Number b].
Proof.
  exact (reads_blank "contract_amount" [Word "contract_amount"] " "%char _ _
           eq_refl (tokens_reads "contract_amount" [Word "contract_amount"] eq_refl)
           (reads_blank ">=" [Ge] " "%char _ _ eq_refl
              (tokens_reads ">=" [Ge] eq_refl) (reads_number b))).
Qed.

Lemma reads_amount_le b :
  reads_as (render (AmountLe b)) [Word "contract_amount"; Le; Number b].
Proof.
  exact (reads_blank "contract_amount" [Word "contract_amount"] " "%char _ _
           eq_refl (tokens_reads "contract_amount" [Word "contract_amount"] eq_refl)
           (reads_blank "<=" [Le] " "%char _ _ eq_refl
              (tokens_reads "<=" [Le] eq_refl) (reads_number b))).
Qed.


Lemma reads_indented t k :
  reads_as t k -> reads_as (Js.nl ++ "      " ++ t) k.
Proof.
  intros H. do 7 (apply reads_after_blank; [reflexivity|]). exact H.
Qed.

Lemma reads_or3 ta ka tb kb tc kc :
  reads_as ta ka -> reads_as tb kb -> reads_as tc kc ->
  reads_as ("(" ++ Js.nl ++ "      " ++ ta ++ " OR"
                ++ Js.nl ++ "      " ++ tb ++ " OR"
                ++ Js.nl ++ "      " ++ tc
                ++ Js.nl ++ "    )")
           (Open :: ka ++ Word "OR" :: kb ++ Word "OR" :: kc ++ [Close]).
Proof.
  intros Ha Hb Hc.
  assert (Hc' : reads_as (tc ++ Js.nl ++ "    )") (kc ++ [Close])).
  { apply (reads_blank tc kc (ascii_of_nat 10) "    )" [Close] eq_refl Hc).
    apply tokens_reads. reflexivity. }
  assert (Hjoin : forall t1 k1 t2 k2,
             reads_as t1 k1 -> reads_as t2 k2 ->
             reads_as (t1 ++ " OR" ++ Js.nl ++ "      " ++ t2)
                      (k1 ++ Word "OR" :: k2)).
  { intros t1 k1 t2 k2 H1 H2.
    apply (reads_blank t1 k1 " "%char
             ("OR" ++ Js.nl ++ "      " ++ t2) (Word "OR" :: k2) eq_refl H1).
    apply (reads_blank "OR" [Word "OR"] (ascii_of_nat 10) ("      " ++ t2) k2
             eq_refl (tokens_reads "OR" [Word "OR"] eq_refl)).
    do 6 (apply reads_after_blank; [reflexivity|]). exact H2. }
  pose proof (Hjoin _ _ _ _ Ha (Hjoin _ _ _ _ Hb Hc')) as H.
  apply (reads_indented _ _) in H.
  destruct H as (front & st & back & Hrun & Hfin & Hks).
  exists (Open :: front), st, back. repeat split.
  - change (run Ready ("(" ++ ?x)) with
      (match run Ready x with
       | Some (ts', st'') => Some ([Open] ++ ts', st'')
       | None => None
       end).
    now rewrite Hrun.
  - exact Hfin.
  - simpl. now rewrite Hks.
Qed.


Lemma reads_search q :
  reads_as (render (search_condition q)) (search_tokens q).
Proof.
  apply (reads_or3 _ _ _ _ _ _ (reads_like col_award_title q)
           (reads_like col_awardee_name q)
           (reads_like col_organization_name q)).
Qed.

Lemma written_search q :
  written (search_condition q)
          [ Like col_award_title (search_pattern q);
            Like col_awardee_name (search_pattern q);
            Like col_organization_name (search_pattern q) ].
Proof.
  exists (search_tokens q). split; [apply reads_search|]. split; reflexivity.
Qed.

Lemma written_text_eq col a :
  written (TextEq col (JsString.escape_quotes a)) [Equal col a].
Proof.
  exists [Word (column_name col); Equals; Text a].
  split; [apply reads_text_eq|]. destruct col; split; reflexivity.
Qed.

Lemma written_amount_ge b : written (AmountGe b) [AtLeast b].
Proof.
  exists [Word "contract_amount"; Ge; Number b].
  split; [apply reads_amount_ge|]. split; reflexivity.
Qed.

Lemma written_amount_le b : written (AmountLe b) [AtMost b].
Proof.
  exists [Word "contract_amount"; Le; Number b].
  split; [apply reads_amount_le|]. split; reflexivity.
Qed.

Lemma split_at_piece w k : forall rest,
  forallb (fun t => negb (is_word w t)) k = true ->
  split_at w (k ++ Word w :: rest) = k :: split_at w rest.
Proof.
  induction k as [|t k IH]; intros rest Hk; simpl.
  - now rewrite String.eqb_refl.
  - simpl in Hk. apply andb_true_iff in Hk as [Ht Hk].
    apply negb_true_iff in Ht. now rewrite Ht, IH.
Qed.

Lemma split_at_last w k :
  forallb (fun t => negb (is_word w t)) k = true -> split_at w k = [k].
Proof.
  induction k as [|t k IH]; intros Hk; simpl; [reflexivity|].
  simpl in Hk. apply andb_true_iff in Hk as [Ht Hk].
  apply negb_true_iff in Ht. now rewrite Ht, IH.
Qed.

Lemma read_where cs : forall gs,
  Forall2 written cs gs ->
  read match cs with
       | [] => EmptyString
       | c :: rest => "WHERE " ++ Js.join " AND " (map render (c :: rest))
       end
  = Some gs.
Proof.
  intros gs Hall.
  assert (Hjoin : cs <> [] ->
            exists ks,
              reads_as (Js.join " AND " (map render cs))
                       (between (Word "AND") ks)
              /\ split_at "AND" (between (Word "AND") ks) = ks
              /\ all_some (map alternatives ks) = Some gs).
  { induction Hall as [|c g cs gs (k & Hread & Hclean & Halt) Hrest IH];
      intros Hne; [now contradiction Hne|].
    destruct cs as [|c' cs].
    - inversion Hrest; subst. exists [k]. simpl.
      split; [exact Hread|]. split; [now apply split_at_last|].
      now rewrite Halt.
    - destruct IH as (ks & Hreads & Hsplit & Halts); [discriminate|].
      exists (k :: ks). destruct ks as [|k' ks].
      { simpl in Hsplit. discriminate. }
      split; [|split].
      + change (reads_as (render c ++ " AND " ++ Js.join " AND " (map render (c' :: cs)))
                         (k ++ Word "AND" :: between (Word "AND") (k' :: ks))).
        apply (reads_blank (render c) k " "%char
                 ("AND " ++ Js.join " AND " (map render (c' :: cs)))
                 (Word "AND" :: between (Word "AND") (k' :: ks)) eq_refl Hread).
        apply (reads_blank "AND" [Word "AND"] " "%char _ _ eq_refl
                 (tokens_reads "AND" [Word "AND"] eq_refl) Hreads).
      + change (split_at "AND" (k ++ Word "AND" :: between (Word "AND") (k' :: ks))
                = k :: k' :: ks).
        rewrite split_at_piece by exact Hclean. now rewrite Hsplit.
      + simpl. simpl in Halts. now rewrite Halt, Halts. }
  destruct cs as [|c cs].
  - inversion Hall. reflexivity.
  - destruct Hjoin as (ks & Hreads & Hsplit & Halts); [discriminate|].
    pose proof (reads_blank "WHERE" [Word "WHERE"] " "%char _ _ eq_refl
                  (tokens_reads "WHERE" [Word "WHERE"] eq_refl) Hreads) as H.
    apply reads_tokens in H.
    change ("WHERE" ++ String " " (Js.join " AND " (map render (c :: cs))))%string
      with (String "W" ("HERE " ++ Js.join " AND " (map render (c :: cs))))%string
      in H.
    change ("WHERE " ++ Js.join " AND " (map render (c :: cs)))%string
      with (String "W" ("HERE " ++ Js.join " AND " (map render (c :: cs))))%string.
    unfold read. rewrite H. simpl. now rewrite Hsplit.
Qed.


Lemma written_when_truthy x f g :
  (forall s, written (f s) (g s)) ->
  Forall2 written (when_truthy x f) (of_text x g).
Proof.
  intros H. unfold when_truthy, of_text. destruct x as [s|]; [|constructor].
  destruct (Js.truthy_str s); repeat constructor. apply H.
Qed.

Lemma written_when_defined x f g :
  (forall z, written (f z) (g z)) ->
  Forall2 written (when_defined x f) (of_number x g).
Proof.
  intros H. unfold when_defined, of_number. destruct x as [z|];
    repeat constructor. apply H.
Qed.

Lemma written_conditions o :
  Props.unset (startDate o) -> Props.unset (endDate o) ->
  Forall2 written (conditions o) (asked o).
Proof.
  intros Hs He. unfold conditions, asked.
  rewrite (when_truthy_unset _ DateGe Hs), (when_truthy_unset _ DateLe He).
  rewrite !app_nil_r.
  repeat apply Forall2_app.
  - apply written_when_truthy. intros q. apply written_search.
  - apply written_when_truthy. intros a. apply written_text_eq.
  - apply written_when_truthy. intros c. apply written_text_eq.
  - apply written_when_defined. intros z. apply written_amount_ge.
  - apply written_when_defined. intros z. apply written_amount_le.
Qed.

Lemma keeps_app a b r : keeps (a ++ b) r = keeps a r && keeps b r.
Proof. apply forallb_app. Qed.

Lemma all_hold_of_text r x f g :
  (forall s, holds r (f s) = Some (existsb (test_holds r) (g s))) ->
  all_hold r (when_truthy x f) = Some (keeps (of_text x g) r).
Proof.
  intros H. unfold when_truthy, of_text. destruct x as [s|]; [|reflexivity].
  destruct (Js.truthy_str s); [|reflexivity].
  simpl. now rewrite H.
Qed.

Lemma all_hold_of_number r x f g :
  (forall z, holds r (f z) = Some (existsb (test_holds r) (g z))) ->
  all_hold r (when_defined x f) = Some (keeps (of_number x g) r).
Proof.
  intros H. unfold when_defined, of_number. destruct x as [z|]; [|reflexivity].
  simpl. now rewrite H.
Qed.

Lemma satisfies_asked o r :
  Props.unset (startDate o) -> Props.unset (endDate o) ->
  satisfies o r = Some (keeps (asked o) r).
Proof.
  intros Hs He. unfold satisfies, conditions, asked.
  rewrite (when_truthy_unset _ DateGe Hs), (when_truthy_unset _ DateLe He).
  rewrite !app_nil_r, !all_hold_app, !keeps_app.
  rewrite (all_hold_of_text r (searchQuery o) search_condition
             (fun q => [ Like col_award_title (search_pattern q);
                         Like col_awardee_name (search_pattern q);
                         Like col_organization_name (search_pattern q) ])).
  2:{ intros q. unfold search_condition. cbn [holds].
      rewrite unquote_search_literal. unfold or3. simpl.
      now rewrite orb_false_r, orb_assoc. }
  rewrite (all_hold_of_text r (area o) area_condition
             (fun a => [Equal col_area_of_delivery a])).
  2:{ intros a. unfold area_condition. cbn [holds].
      rewrite unquote_escape. simpl. now rewrite orb_false_r. }
  rewrite (all_hold_of_text r (category o) category_condition
             (fun c => [Equal col_business_category c])).
  2:{ intros c. unfold category_condition. cbn [holds].
      rewrite unquote_escape. simpl. now rewrite orb_false_r. }
  rewrite (all_hold_of_number r (minAmount o) AmountGe (fun z => [AtLeast z])).
  2:{ intros z. simpl. now rewrite orb_false_r. }
  rewrite (all_hold_of_number r (maxAmount o) AmountLe (fun z => [AtMost z])).
  2:{ intros z. simpl. now rewrite orb_false_r. }
  reflexivity.
Qed.

(** With no date option given and amounts that are whole numbers a
    double holds exactly, the WHERE clause that [queryContracts] writes
    reads back as what was asked for, whatever the texts of the search
    query, the area and the category are: each of them is the value of
    one literal, so no quote, keyword or parenthesis in them becomes part
    of the clause; and the model's verdict on a row is the verdict of
    the clause as read. *)
Theorem whereClause_reads_back :
  forall o : QueryOptions,
    Props.unset (startDate o) -> Props.unset (endDate o) ->
    plain_amount (minAmount o) -> plain_amount (maxAmount o) ->
    read (whereClause o) = Some (asked o)
    /\ forall r, satisfies o r = Some (keeps (asked o) r).
Proof.
  intros o Hs He _ _. split.
  - unfold whereClause.
    apply (read_where (conditions o) (asked o)), written_conditions;
      assumption.
  - intros r. now apply satisfies_asked.
Qed.

(** The theorem at work: a search query with a quote and the word AND
    in it, and an area that tries to close its literal. *)
Lemma whereClause_reads_back_witness :
  read (whereClause Samples.quoted_options)
  = Some [ [ Like col_award_title "%o'brien and sons%";
             Like col_awardee_name "%o'brien and sons%";
             Like col_organization_name "%o'brien and sons%" ];
           [ Equal col_area_of_delivery "Manila' OR '1'='1" ];
           [ AtLeast (-5)%Z ];
           [ AtMost 1000000%Z ] ]
  /\ satisfies Samples.quoted_options Examples.manila_contract = Some false.
Proof.
  assert (Hmin : plain_amount (minAmount Samples.quoted_options))
    by (simpl; lia).
  assert (Hmax : plain_amount (maxAmount Samples.quoted_options))
    by (simpl; lia).
  destruct (whereClause_reads_back Samples.quoted_options
              (or_introl eq_refl) (or_introl eq_refl) Hmin Hmax)
    as [Hread Hkeeps].
  split; [exact Hread|]. rewrite Hkeeps. reflexivity.
Defined.





End ReadFacts.

(* ===================================================================== *)
(** ** The query service: what the counts of a breakdown add up to *)
(* ===================================================================== *)

Section BreakdownCounts.
Import Sql DuckDB.

Variable key : ContractRow -> option string.

(** The number of rows over the groups of some labels. *)
Let over_labels (ls : list string) (rows : list ContractRow) : nat :=
  fold_right (fun l acc => length (filter (has_label key l) rows) + acc) 0 ls.

Lemma over_labels_nil ls : over_labels ls [] = 0.
Proof. induction ls as [|l ls IH]; simpl; [reflexivity|exact IH]. Qed.

Lemma over_labels_other ls r rows :
  (forall l, In l ls -> has_label key l r = false) ->
  over_labels ls (r :: rows) = over_labels ls rows.
Proof.
  induction ls as [|l ls IH]; intros Hnot; simpl; [reflexivity|].
  rewrite (Hnot l) by now left. rewrite IH; [reflexivity|].
  intros l' Hl'. apply Hnot. now right.
Qed.

Lemma has_label_unique l l' r :
  has_label key l r = true -> has_label key l' r = true -> l = l'.
Proof.
  unfold has_label. destruct (key r) as [s|]; [|discriminate].
  rewrite !String.eqb_eq. congruence.
Qed.

Lemma over_labels_cons ls r rows :
  NoDup ls ->
  (exists l, In l ls /\ has_label key l r = true) ->
  over_labels ls (r :: rows) = S (over_labels ls rows).
Proof.
  induction 1 as [|l ls Hnotin Hnd IH]; intros (k & Hk & Hhas).
  - contradiction.
  - simpl. destruct (has_label key l r) eqn:Hl.
    + rewrite over_labels_other; [reflexivity|].
      intros l' Hl'. destruct (has_label key l' r) eqn:Hl''; [|reflexivity].
      exfalso. apply Hnotin.
      now rewrite (has_label_unique l l' r Hl Hl'').
    + destruct Hk as [->|Hk]; [congruence|].
      rewrite IH by (exists k; auto). lia.
Qed.

Lemma over_labels_all ls rows :
  NoDup ls ->
  (forall r, In r rows -> exists l, In l ls /\ has_label key l r = true) ->
  over_labels ls rows = length rows.
Proof.
  intros Hnd. induction rows as [|r rows IH]; intros Hcover.
  - apply over_labels_nil.
  - rewrite over_labels_cons; [|exact Hnd|apply Hcover; now left].
    simpl. rewrite IH; [reflexivity|].
    intros r' Hr'. apply Hcover. now right.
Qed.

Lemma kept_rows_covered rows r :
  In r (filter (labelled key) rows) ->
  exists l,
    In l (nodup string_dec (map (key_text key) (filter (labelled key) rows)))
    /\ has_label key l r = true.
Proof.
  intros Hr. exists (key_text key r). split.
  - apply nodup_In, in_map, Hr.
  - apply filter_In in Hr as [_ Hlab].
    unfold labelled in Hlab. unfold has_label, key_text.
    destruct (key r); [apply String.eqb_refl|discriminate].
Qed.

Lemma group_by_counts rows :
  Props.grand_count (group_by key rows) = length (filter (labelled key) rows).
Proof.
  unfold group_by.
  set (kept := filter (labelled key) rows).
  set (ls := nodup string_dec (map (key_text key) kept)).
  rewrite <- (over_labels_all ls kept).
  - clear. induction ls as [|l ls IH]; simpl; [reflexivity|]. now rewrite IH.
  - apply NoDup_nodup.
  - intros r. apply kept_rows_covered.
Qed.

Lemma grand_count_perm l l' :
  Permutation l l' -> Props.grand_count l = Props.grand_count l'.
Proof.
  induction 1 as [|a l l' _ IH|a b l|l l' l'' _ IH _ IH']; simpl;
    try reflexivity; try lia; congruence.
Qed.

Lemma breakdown_counts limit rows :
  length (group_by key rows) <= limit ->
  Props.grand_count (breakdown key limit rows)
  = length (filter (labelled key) rows)
  /\ (forall r, In r rows -> labelled key r = true ->
                exists a, In a (breakdown key limit rows)
                          /\ label a = key_text key r).
Proof.
  intros Hfit. unfold breakdown.
  pose proof (order_by_total_desc_perm (group_by key rows)) as Hperm.
  rewrite firstn_all2
    by (rewrite <- (Permutation_length Hperm); exact Hfit).
  split.
  - rewrite <- (grand_count_perm _ _ Hperm). apply group_by_counts.
  - intros r Hr Hlab.
    assert (Hin : In (key_text key r)
                     (nodup string_dec
                        (map (key_text key) (filter (labelled key) rows)))).
    { apply nodup_In, in_map, filter_In. now split. }
    apply (in_map (fun l =>
                     mkAggregate l
                       (SUM (filter (has_label key l)
                                    (filter (labelled key) rows)))
                       (length (filter (has_label key l)
                                       (filter (labelled key) rows)))))
      in Hin.
    eexists. split; [apply (Permutation_in _ Hperm); exact Hin|reflexivity].
Qed.

End BreakdownCounts.

Section BreakdownCountsOfService.
Import Sql DuckDB.

(** While no more than 20 distinct categories (30 distinct areas) occur,
    no contract is lost in the breakdown: its counts add up to the
    number of rows that have a category (an area), and the category (the
    area) of each such row has its row in the breakdown. Rows whose
    label is NULL or empty are the only ones left out. *)
Theorem breakdown_counts_add_up :
  forall rows : list ContractRow,
    (length (group_by business_category rows) <= 20 ->
     Props.grand_count (getCategoryBreakdown rows)
     = length (filter (labelled business_category) rows)
     /\ (forall r, In r rows -> labelled business_category r = true ->
                   exists a, In a (getCategoryBreakdown rows)
                             /\ label a = key_text business_category r))
    /\ (length (group_by area_of_delivery rows) <= 30 ->
        Props.grand_count (getAreaBreakdown rows)
        = length (filter (labelled area_of_delivery) rows)
        /\ (forall r, In r rows -> labelled area_of_delivery r = true ->
                      exists a, In a (getAreaBreakdown rows)
                                /\ label a = key_text area_of_delivery r)).
Proof.
  intros rows. split; intros Hfit; now apply breakdown_counts.
Qed.

(** The theorem at work: five categories, one contract each, and a row
    without a category. *)
Lemma breakdown_counts_add_up_witness :
  length (group_by business_category
            (Samples.blank_contract :: Examples.one_per_label 5)) <= 20
  /\ Props.grand_count
       (getCategoryBreakdown (Samples.blank_contract :: Examples.one_per_label 5))
     = 5.
Proof.
  assert (Hfit : length (group_by business_category
                           (Samples.blank_contract :: Examples.one_per_label 5))
                 <= 20) by (vm_compute; lia).
  destruct (proj1 (breakdown_counts_add_up
                     (Samples.blank_contract :: Examples.one_per_label 5)) Hfit)
    as [Hc _].
  split; [exact Hfit|]. rewrite Hc. reflexivity.
Defined.

End BreakdownCountsOfService.

(* ===================================================================== *)
(** ** The query service: distinct values *)
(* ===================================================================== *)

Section DistinctValueFacts.
Import Sql DuckDB DuckDBValues.

(** [v] may stand before [w] in the engine's order of text. *)
Let text_le (v w : string) : Prop := String.leb v w = true.

Lemma insert_text_In v l x : In x (insert_text v l) <-> x = v \/ In x l.
Proof.
  induction l as [|w rest IH]; simpl.
  - intuition.
  - destruct (String.leb v w); simpl; [intuition|].
    rewrite IH. intuition.
Qed.

Lemma insert_text_perm v l : Permutation (v :: l) (insert_text v l).
Proof.
  induction l as [|w rest IH]; simpl; [reflexivity|].
  destruct (String.leb v w); [reflexivity|].
  rewrite perm_swap. now constructor.
Qed.

Lemma insert_text_sorted v l :
  Sorted text_le l -> Sorted text_le (insert_text v l).
Proof.
  induction 1 as [|w rest Hsorted IH Hhd]; simpl.
  - repeat constructor.
  - destruct (String.leb v w) eqn:Hvw.
    + constructor; [now constructor|]. now constructor.
    + constructor; [exact IH|].
      assert (Hwv : text_le w v).
      { destruct (String.leb_total v w) as [H|H]; [congruence|exact H]. }
      destruct rest as [|x rest]; simpl.
      * now constructor.
      * destruct (String.leb v x); constructor; [exact Hwv|].
        now inversion Hhd.
Qed.

Lemma order_by_value_sorted l : Sorted text_le (order_by_value l).
Proof.
  induction l as [|v l IH]; simpl; [constructor|].
  now apply insert_text_sorted.
Qed.

Lemma order_by_value_perm l : Permutation l (order_by_value l).
Proof.
  induction l as [|v l IH]; simpl; [constructor|].
  rewrite <- insert_text_perm. now constructor.
Qed.

Lemma firstn_Sorted {A} (R : A -> A -> Prop) n : forall l,
  Sorted R l -> Sorted R (firstn n l).
Proof.
  induction n as [|n IH]; intros l Hs; simpl; [constructor|].
  destruct l as [|a l]; [constructor|].
  inversion Hs as [|? ? Hrest Hhd]; subst.
  constructor; [now apply IH|].
  destruct n, l; simpl; try constructor. now inversion Hhd.
Qed.

(** [getDistinctValues] returns at most 500 values, in ascending order
    of text, none twice and none empty, each the value of the column in
    some row. While no more than 500 distinct values occur, every value
    of the column that is not NULL or empty is returned. *)
Theorem getDistinctValues_sorted_distinct :
  forall (c : FilterColumn) (rows : list ContractRow),
    length (getDistinctValues c rows) <= 500
    /\ Sorted (fun v w => String.leb v w = true) (getDistinctValues c rows)
    /\ NoDup (getDistinctValues c rows)
    /\ Forall (fun v => v <> EmptyString
                        /\ exists r, In r rows /\ filter_column c r = Some v)
              (getDistinctValues c rows)
    /\ (length (nodup string_dec
                  (map (key_text (filter_column c))
                       (filter (labelled (filter_column c)) rows))) <= 500 ->
        forall r v, In r rows -> filter_column c r = Some v ->
                    v <> EmptyString -> In v (getDistinctValues c rows)).
Proof.
  intros c rows. unfold getDistinctValues.
  set (kept := filter (labelled (filter_column c)) rows).
  set (values := nodup string_dec (map (key_text (filter_column c)) kept)).
  pose proof (order_by_value_perm values) as Hperm.
  assert (Hvalues : forall v, In v values <->
                              v <> EmptyString
                              /\ exists r, In r rows /\ filter_column c r = Some v).
  { intros v. unfold values. rewrite nodup_In, in_map_iff. split.
    - intros (r & <- & Hr). apply filter_In in Hr as [Hr Hlab].
      unfold labelled in Hlab. unfold key_text.
      destruct (filter_column c r) as [s|] eqn:Hs; [|discriminate].
      split; [now apply String.eqb_neq, negb_true_iff|now exists r].
    - intros (Hne & r & Hr & Hs). exists r. split.
      + unfold key_text. now rewrite Hs.
      + apply filter_In. split; [exact Hr|].
        unfold labelled. rewrite Hs.
        now apply negb_true_iff, String.eqb_neq. }
  split; [apply firstn_le_length|].
  split; [apply firstn_Sorted, order_by_value_sorted|].
  split; [|split].
  - assert (Hnd : NoDup (order_by_value values))
      by (eapply Permutation_NoDup; [exact Hperm|apply NoDup_nodup]).
    rewrite <- (firstn_skipn 500 (order_by_value values)) in Hnd.
    now apply NoDup_app_remove_r in Hnd.
  - apply Forall_forall. intros v Hv. apply Hvalues.
    apply (Permutation_in v (Permutation_sym Hperm)).
    rewrite <- (firstn_skipn 500 (order_by_value values)).
    apply in_or_app. now left.
  - intros Hfit r v Hr Hs Hne.
    rewrite firstn_all2
      by (rewrite <- (Permutation_length Hperm); exact Hfit).
    apply (Permutation_in v Hperm). apply Hvalues.
    split; [exact Hne|now exists r].
Qed.

(** The theorem at work: the areas of a dataset with twelve of them. *)
Lemma getDistinctValues_sorted_distinct_witness :
  In "area-7" (getDistinctValues by_area (Examples.one_per_label 12)).
Proof.
  assert (Hfit : length (nodup string_dec
                           (map (key_text (filter_column by_area))
                                (filter (labelled (filter_column by_area))
                                        (Examples.one_per_label 12)))) <= 500)
    by (vm_compute; lia).
  destruct (getDistinctValues_sorted_distinct by_area (Examples.one_per_label 12))
    as (_ & _ & _ & _ & Hall).
  apply (Hall Hfit
              (mkRow (Some "Road works") (Some "Acme Builders") (Some "DPWH")
                     (Some "area-7") (Some "category-7") 8%Z (Some "2023-01-15"))).
  - vm_compute. tauto.
  - reflexivity.
  - discriminate.
Defined.

End DistinctValueFacts.

(* ===================================================================== *)
(** ** The chat store: what every reachable store satisfies *)
(* ===================================================================== *)

Section ReachableFacts.
Import Types Constants ChatStore.

Lemma slice_last_snoc_nonempty {A} (n : nat) (l : list A) (x : A) :
  0 < n -> Js.slice_last n (l ++ [x]) <> [].
Proof.
  intros Hn Hnil. destruct (slice_last_snoc n l x Hn) as (earlier & Heq).
  rewrite Heq in Hnil. now destruct earlier.
Qed.

Lemma reachable_nonempty st : Spec.Reachable st -> messages st <> [].
Proof.
  induction 1; simpl; try assumption; try discriminate.
  rewrite addMessage_messages. apply slice_last_snoc_nonempty.
  unfold MAX_CHAT_HISTORY. lia.
Qed.

(** Every store the actions produce from the initial one holds between
    1 and 50 messages, none of them with the system role, and the list
    it builds for the AI endpoint is never empty. *)
Theorem reachable_store_invariant :
  forall st : ChatState,
    Spec.Reachable st ->
    1 <= length (messages st) <= 50
    /\ Forall (fun m => role m = user \/ role m = assistant) (messages st)
    /\ getMessagesForAPI st <> [].
Proof.
  intros st Hreach.
  pose proof (reachable_nonempty st Hreach) as Hne.
  pose proof (reachable_bounded st Hreach) as Hle.
  pose proof (reachable_no_system st Hreach) as Hroles.
  split; [|split].
  - unfold MAX_CHAT_HISTORY in Hle. destruct (messages st); [congruence|].
    simpl in *. lia.
  - eapply Forall_impl; [|exact Hroles].
    intros m Hm. simpl in Hm. destruct (role m); auto. congruence.
  - unfold getMessagesForAPI. rewrite (filter_no_system _ Hroles).
    assert (H20 : Js.slice_last 20 (messages st) <> []).
    { intros Hnil. apply (f_equal (@length _)) in Hnil.
      rewrite slice_last_length in Hnil.
      destruct (messages st); [congruence|simpl in Hnil; lia]. }
    destruct (conversationSummary st) as [s|];
      [destruct (_ && _); [discriminate|]|];
      destruct (Js.slice_last 20 (messages st)); simpl; congruence.
Qed.

(** The theorem at work: the initial store after one question. *)
Lemma reachable_store_invariant_witness :
  Spec.Reachable (addMessage (Examples.stamp 1) user "Hello" None
                             (initial_state (Examples.stamp 0)))
  /\ getMessagesForAPI (addMessage (Examples.stamp 1) user "Hello" None
                                   (initial_state (Examples.stamp 0))) <> [].
Proof.
  assert (Hreach : Spec.Reachable
                     (addMessage (Examples.stamp 1) user "Hello" None
                                 (initial_state (Examples.stamp 0)))).
  { apply Spec.Reachable_addMessage; [discriminate|].
    apply Spec.Reachable_initial. }
  split; [exact Hreach|].
  exact (proj2 (proj2 (reachable_store_invariant _ Hreach))).
Defined.

End ReachableFacts.

(* ===================================================================== *)
(** ** The single-file application: the running summary *)
(* ===================================================================== *)

Section AppMemoryFacts.
Import Types Async ClaudeService AppMemory.

(** With a key and at least four messages, what
    [generateConversationSummary] of App.tsx returns is the summary
    stored before or a text that is not empty: a refusal, a network
    failure, an unreadable body or an empty answer all leave the stored
    summary in place. A new text is one the endpoint gave in answer to
    the transcript of the messages without the last 8. With fewer than
    ten messages the endpoint is not asked at all. *)
Theorem generateConversationSummary_keeps_or_replaces :
  forall (net : Endpoint) (key summary : string) (messages : list ChatMessage),
    key <> EmptyString ->
    4 <= length messages ->
    (generateConversationSummary net key summary messages = summary
     \/ (generateConversationSummary net key summary messages <> EmptyString
         /\ 10 <= length messages
         /\ exists response data,
              net (summary_request key (Js.slice_drop_last 8 messages))
              = inr response
              /\ ok response = true
              /\ json_body response = Some data
              /\ content_text data
                 = Some (generateConversationSummary net key summary messages)))
    /\ (length messages < 10 ->
        generateConversationSummary net key summary messages = summary).
Proof.
  intros net key summary messages Hkey Hlen.
  unfold generateConversationSummary, App.messagesToSummarize,
    App.BUFFER_WINDOW_SIZE, Js.truthy_str.
  apply String.eqb_neq in Hkey. rewrite Hkey. simpl negb. simpl orb.
  destruct (Nat.ltb_spec (length messages) 4) as [Hlt|_]; [lia|].
  assert (Hms : length (Js.slice_drop_last 8 messages) = length messages - 8).
  { unfold Js.slice_drop_last. rewrite length_firstn. lia. }
  destruct (Nat.ltb_spec (length (Js.slice_drop_last 8 messages)) 2)
    as [Hfew|Hmany].
  - split; [now left|reflexivity].
  - split; [|intros Hshort; lia].
    destruct (net _) as [e|response] eqn:Hnet; [now left|].
    destruct (ok response) eqn:Hok; simpl; [|now left].
    unfold json. destruct (json_body response) as [data|] eqn:Hdata;
      [|now left].
    unfold resolve, or_string, Js.truthy_str. cbv beta iota.
    destruct (content_text data) as [text|] eqn:Htext; [|now left].
    destruct (String.eqb_spec text EmptyString) as [Hempty|Hfull];
      [now left|].
    right. split; [exact Hfull|]. split; [lia|].
    exists response, data. auto.
Qed.

(** The theorem at work: eighteen messages and an endpoint that cannot
    be reached. *)
Lemma generateConversationSummary_keeps_or_replaces_witness :
  generateConversationSummary Examples.unreachable "sk-ant-sample"
    "earlier talk" (Examples.turns 18) = "earlier talk".
Proof.
  assert (Hkey : "sk-ant-sample" <> EmptyString) by discriminate.
  assert (Hlen : 4 <= length (Examples.turns 18)) by (vm_compute; lia).
  destruct (proj1 (generateConversationSummary_keeps_or_replaces
                     Examples.unreachable "sk-ant-sample" "earlier talk"
                     (Examples.turns 18) Hkey Hlen))
    as [Hsame|(_ & _ & response & data & Hnet & _)].
  - exact Hsame.
  - discriminate Hnet.
Defined.

End AppMemoryFacts.

(* ===================================================================== *)
(** ** Helpers: pages *)
(* ===================================================================== *)

Section PaginateFacts.
Import Helpers.
Context {A : Type}.

Lemma firstn_plus (a b : nat) : forall l : list A,
  firstn (a + b) l = firstn a l ++ firstn b (skipn a l).
Proof.
  induction a as [|a IH]; intros l; simpl; [reflexivity|].
  destruct l as [|x l]; simpl.
  - now rewrite firstn_nil.
  - now rewrite IH.
Qed.

Lemma firstn_capped (a b : nat) (l : list A) :
  a = Nat.min b (length l) -> firstn a l = firstn b l.
Proof.
  intros ->. destruct (Nat.le_ge_cases b (length l)) as [H|H].
  - now rewrite Nat.min_l.
  - rewrite Nat.min_r by exact H. now rewrite !firstn_all2 by lia.
Qed.

(** A page with a number of at least 1, by position. *)
Lemma page_items (array : list A) (p size : nat) :
  0 < size ->
  items (paginate array (Z.of_nat (S p)) (Z.of_nat size))
  = firstn size (skipn (p * size) array).
Proof.
  intros Hsize. unfold paginate, slice. cbn [items].
  set (len := Z.of_nat (length array)).
  replace ((Z.of_nat (S p) - 1) * Z.of_nat size)%Z
    with (Z.of_nat (p * size)) by lia.
  destruct (Z.ltb_spec (Z.of_nat (p * size)) 0) as [Hneg|_]; [lia|].
  destruct (Z.ltb_spec (Z.of_nat (p * size) + Z.of_nat size) 0) as [Hneg|_];
    [lia|].
  destruct (Nat.le_gt_cases (length array) (p * size)) as [Hpast|Hin].
  - rewrite !skipn_all2; [now rewrite !firstn_nil|lia|subst len; lia].
  - replace (Z.to_nat (Z.min (Z.of_nat (p * size)) len)) with (p * size)
      by (subst len; lia).
    apply firstn_capped. rewrite length_skipn. subst len. lia.
Qed.

Lemma pages_concat (array : list A) (size : nat) : forall n,
  concat (map (fun p => firstn size (skipn (p * size) array)) (seq 0 n))
  = firstn (n * size) array.
Proof.
  induction n as [|n IH]; [reflexivity|].
  rewrite seq_S, map_app, concat_app, IH. simpl.
  rewrite app_nil_r, <- firstn_plus. f_equal. lia.
Qed.

(** With a page size of at least 1, [paginate] reports
    ceil(length / size) pages; the items of pages 1 to that number, one
    after the other, are the array itself; no page holds more than
    [size] items; and a page after the last one is empty. *)
Theorem paginate_pages_cover :
  forall (array : list A) (size : nat),
    0 < size ->
    exists pages : nat,
      (forall page, totalPages (paginate array page (Z.of_nat size))
                    = Some (Z.of_nat pages))
      /\ pages * size < length array + size
      /\ length array <= pages * size
      /\ concat (map (fun p => items (paginate array (Z.of_nat p)
                                               (Z.of_nat size)))
                     (seq 1 pages))
         = array
      /\ (forall page,
             length (items (paginate array page (Z.of_nat size))) <= size)
      /\ (forall p, pages <= p ->
             items (paginate array (Z.of_nat (S p)) (Z.of_nat size)) = []).
Proof.
  intros array size Hsize.
  set (len := length array).
  set (q := ceil_div (Z.of_nat len) (Z.of_nat size)).
  assert (Hq : (Z.of_nat len <= q * Z.of_nat size
                < Z.of_nat len + Z.of_nat size)%Z).
  { unfold q, ceil_div.
    pose proof (Z.div_mod (- Z.of_nat len) (Z.of_nat size)) as Hdm.
    pose proof (Z.mod_pos_bound (- Z.of_nat len) (Z.of_nat size)) as Hmod.
    nia. }
  assert (Hq0 : (0 <= q)%Z) by nia.
  exists (Z.to_nat q).
  assert (Hcover : len <= Z.to_nat q * size) by nia.
  split; [|split; [|split; [|split; [|split]]]].
  - intros page. unfold paginate. cbn [totalPages].
    destruct (Z.eqb_spec (Z.of_nat size) 0) as [H0|_]; [lia|].
    fold len. fold q. now rewrite Z2Nat.id.
  - fold len. nia.
  - exact Hcover.
  - rewrite <- seq_shift, map_map.
    rewrite (map_ext _ (fun p => firstn size (skipn (p * size) array)))
      by (intros p; now apply page_items).
    rewrite pages_concat. apply firstn_all2. fold len. exact Hcover.
  - intros page. unfold paginate, slice. cbn [items].
    rewrite length_firstn.
    destruct (Z.ltb_spec ((page - 1) * Z.of_nat size) 0);
      destruct (Z.ltb_spec ((page - 1) * Z.of_nat size + Z.of_nat size) 0);
      lia.
  - intros p Hp. rewrite page_items by exact Hsize.
    rewrite skipn_all2; [apply firstn_nil|]. fold len. nia.
Qed.

End PaginateFacts.

Section PaginateSample.
Import Helpers.

(** The theorem at work: seven items in pages of three. *)
Lemma paginate_pages_cover_witness :
  totalPages (paginate [1; 2; 3; 4; 5; 6; 7] 1 3) = Some 3%Z
  /\ items (paginate [1; 2; 3; 4; 5; 6; 7] 3 3) = [7]
  /\ items (paginate [1; 2; 3; 4; 5; 6; 7] 4 3) = [].
Proof.
  assert (Hsize : 0 < 3) by lia.
  destruct (paginate_pages_cover [1; 2; 3; 4; 5; 6; 7] 3 Hsize)
    as (pages & Htotal & _ & _ & _ & _ & Hafter).
  split; [reflexivity|]. split; [reflexivity|].
  assert (Hpages : pages = 3).
  { assert (Hthree : totalPages (paginate [1; 2; 3; 4; 5; 6; 7] 1 (Z.of_nat 3))
                     = Some 3%Z) by reflexivity.
    rewrite (Htotal 1%Z) in Hthree. injection Hthree as Hthree. lia. }
  apply (Hafter 3). lia.
Defined.

End PaginateSample.

(* ===================================================================== *)
(** ** Formatters: truncated text *)
(* ===================================================================== *)

Section TruncateFacts.
Import Formatters.

Lemma length_substring (s : string) : forall n m,
  String.length (String.substring n m s) = Nat.min m (String.length s - n).
Proof.
  induction s as [|c s IH]; intros [|n] [|m]; simpl; try reflexivity.
  - now rewrite IH, Nat.sub_0_r.
  - apply IH.
  - apply IH.
Qed.

Lemma length_append (a b : string) :
  String.length (a ++ b) = String.length a + String.length b.
Proof. induction a as [|c a IH]; simpl; [reflexivity|]. now rewrite IH. Qed.

Lemma substring_all (s : string) :
  String.substring 0 (String.length s) s = s.
Proof. induction s as [|c s IH]; simpl; [reflexivity|]. now rewrite IH. Qed.

(** [truncateText] returns a text that fits as it is. With a limit of at
    least 3, a longer text becomes its first [maxLength - 3] characters
    and three dots, exactly [maxLength] characters. With a limit of 0, 1
    or 2 the cut is counted from the end instead, and a text of more
    than 3 characters comes back with [maxLength] characters more than
    it had, never shorter. *)
Theorem truncateText_length :
  forall (text : string) (maxLength : nat),
    (String.length text <= maxLength ->
     truncateText text (Z.of_nat maxLength) = text)
    /\ (maxLength < String.length text -> 3 <= maxLength ->
        truncateText text (Z.of_nat maxLength)
        = (String.substring 0 (maxLength - 3) text ++ "...")%string
        /\ String.length (truncateText text (Z.of_nat maxLength)) = maxLength)
    /\ (maxLength < 3 -> 3 < String.length text ->
        String.length (truncateText text (Z.of_nat maxLength))
        = String.length text + maxLength).
Proof.
  intros text maxLength. unfold truncateText, slice.
  split; [|split].
  - intros Hfits.
    destruct (Z.leb_spec (Z.of_nat (String.length text)) (Z.of_nat maxLength));
      [reflexivity|lia].
  - intros Hlong Hroom.
    destruct (Z.leb_spec (Z.of_nat (String.length text)) (Z.of_nat maxLength));
      [lia|].
    destruct (Z.ltb_spec 0 0); [lia|].
    destruct (Z.ltb_spec (Z.of_nat maxLength - 3) 0); [lia|].
    replace (Z.to_nat (Z.min 0 (Z.of_nat (String.length text)))) with 0 by lia.
    replace (Z.to_nat (Z.min (Z.of_nat maxLength - 3)
                             (Z.of_nat (String.length text))
                       - Z.min 0 (Z.of_nat (String.length text))))
      with (maxLength - 3) by lia.
    split; [reflexivity|].
    rewrite length_append, length_substring. simpl. lia.
  - intros Hsmall Hlong.
    destruct (Z.leb_spec (Z.of_nat (String.length text)) (Z.of_nat maxLength));
      [lia|].
    destruct (Z.ltb_spec 0 0); [lia|].
    destruct (Z.ltb_spec (Z.of_nat maxLength - 3) 0); [|lia].
    rewrite length_append, length_substring. simpl. lia.
Qed.

(** The theorem at work. *)
Lemma truncateText_length_witness :
  truncateText "Road works" 8 = "Road ..."
  /\ String.length (truncateText "Road works" 2) = 12.
Proof.
  destruct (truncateText_length "Road works" 8) as (_ & Hcut & _).
  destruct (truncateText_length "Road works" 2) as (_ & _ & Hodd).
  split.
  - apply (Hcut ltac:(simpl; lia) ltac:(lia)).
  - apply (Hodd ltac:(lia) ltac:(simpl; lia)).
Defined.

End TruncateFacts.

(* ===================================================================== *)
(** ** Helpers: searching the loaded contracts *)
(* ===================================================================== *)

Section ContractSearchFacts.
Import ContractSearch.

Let words (gap : bool) (s : string) : list string :=
  filter Js.truthy_str (split_from gap s).

Lemma words_gap s : words true s = words false s.
Proof.
  destruct s as [|c rest]; [reflexivity|]. unfold words. simpl.
  destruct (JsString.is_space c); reflexivity.
Qed.

Lemma words_append_space a sp b :
  JsString.is_space sp = true ->
  (forall gap, words gap (a ++ String sp b) = words gap a ++ words false b)
  /\ (exists piece pieces pieces',
         split_from false a = piece :: pieces
         /\ split_from false (a ++ String sp b) = piece :: pieces'
         /\ filter Js.truthy_str pieces'
            = filter Js.truthy_str pieces ++ words false b).
Proof.
  intros Hsp. induction a as [|c a [IHw (piece & pieces & pieces' & Ha & Hab & Hf)]].
  - split.
    + intros gap. unfold words. simpl. rewrite Hsp.
      destruct gap; simpl; [|]; apply (words_gap b).
    + exists EmptyString, [], (split_from true b). simpl. rewrite Hsp.
      repeat split. apply (words_gap b).
  - split.
    + intros gap. unfold words. simpl.
      destruct (JsString.is_space c).
      * destruct gap; simpl; apply (IHw true).
      * rewrite Ha, Hab. simpl. now rewrite Hf.
    + simpl. destruct (JsString.is_space c).
      * exists EmptyString, (split_from true a),
               (split_from true (a ++ String sp b)).
        repeat split. apply (IHw true).
      * rewrite Ha, Hab. exists (String c piece), pieces, pieces'.
        now repeat split.
Qed.

Lemma searchTerms_append q1 q2 :
  searchTerms (q1 ++ " " ++ q2) = searchTerms q1 ++ searchTerms q2.
Proof.
  unfold searchTerms, split_spaces. rewrite toLowerCase_app. simpl.
  apply (proj1 (words_append_space (JsString.toLowerCase q1) " "%char
                  (JsString.toLowerCase q2) eq_refl) false).
Qed.

(** A text is blank when all its characters are white space. *)
Let blank (s : string) : bool :=
  (fix all (s : string) : bool :=
     match s with
     | EmptyString => true
     | String c rest => JsString.is_space c && all rest
     end) s.

Lemma trimStart_blank s : JsString.trimStart s = EmptyString <-> blank s = true.
Proof.
  induction s as [|c s IH]; simpl; [tauto|].
  destruct (JsString.is_space c); simpl; [exact IH|].
  split; discriminate.
Qed.

Lemma trimEnd_of_trimStart s :
  JsString.trimEnd (JsString.trimStart s) = EmptyString
  <-> JsString.trimStart s = EmptyString.
Proof.
  induction s as [|c s IH]; simpl; [tauto|].
  destruct (JsString.is_space c) eqn:Hc; [exact IH|].
  simpl. rewrite Hc. simpl. split; discriminate.
Qed.

Lemma trim_blank s : JsString.trim s = EmptyString <-> blank s = true.
Proof. unfold JsString.trim. now rewrite trimEnd_of_trimStart, trimStart_blank. Qed.

Lemma lower_unit_space c :
  JsString.is_space (JsString.lower_unit c) = JsString.is_space c.
Proof. destruct c as [[|] [|] [|] [|] [|] [|] [|] [|]]; reflexivity. Qed.

Lemma blank_no_terms s : blank s = true -> searchTerms s = [].
Proof.
  unfold searchTerms, split_spaces.
  assert (H : forall gap, blank s = true ->
                          words gap (JsString.toLowerCase s) = []).
  { induction s as [|c s IH]; intros gap Hb; [reflexivity|].
    simpl in Hb. apply andb_true_iff in Hb as [Hc Hs].
    unfold words. simpl. rewrite lower_unit_space, Hc.
    destruct gap; simpl; apply (IH true Hs). }
  apply H.
Qed.

Lemma filter_everything {A} (l : list A) : filter (fun _ => true) l = l.
Proof. induction l as [|x l IH]; simpl; [reflexivity|]. now rewrite IH. Qed.

Lemma searchContracts_is_filter contracts query :
  searchContracts contracts query
  = filter (matches (searchTerms query)) contracts.
Proof.
  unfold searchContracts, Js.truthy_str.
  destruct (String.eqb_spec (JsString.trim query) EmptyString) as [Hb|_];
    [|reflexivity].
  simpl. apply trim_blank, blank_no_terms in Hb. rewrite Hb.
  symmetry. apply filter_everything.
Qed.

Lemma filter_twice {A} (f g : A -> bool) (l : list A) :
  filter g (filter f l) = filter (fun x => f x && g x) l.
Proof.
  induction l as [|x l IH]; simpl; [reflexivity|].
  destruct (f x); simpl; [destruct (g x)|]; now rewrite IH.
Qed.

Lemma prefix_append p : forall s,
  String.prefix p s = true <-> exists after, s = (p ++ after)%string.
Proof.
  induction p as [|x p IH]; intros s.
  - split; [intros _; now exists s|intros _; now destruct s].
  - destruct s as [|y s]; simpl.
    + split; [discriminate|]. intros (after & [=]).
    + destruct (Ascii.ascii_dec x y) as [->|Hxy].
      * rewrite IH. split.
        -- intros (after & ->). now exists after.
        -- intros (after & [= ->]). now exists after.
      * split; [discriminate|]. intros (after & [= <- _]). now contradiction Hxy.
Qed.

Lemma includes_occurs p : forall s,
  JsString.includes p s = true <-> Spec.occurs_in p s.
Proof.
  unfold Spec.occurs_in.
  induction s as [|c s IH]; cbn [JsString.includes];
    rewrite orb_true_iff, prefix_append.
  - split.
    + intros [(after & H)|H]; [|discriminate]. now exists EmptyString, after.
    + intros ([|x before] & after & H); [|discriminate]. left. now exists after.
  - rewrite IH. split.
    + intros [(after & H)|(before & after & ->)].
      * now exists EmptyString, after.
      * now exists (String c before), after.
    + intros ([|x before] & after & H).
      * left. now exists after.
      * right. injection H as _ ->. now exists before, after.
Qed.

Lemma split_from_toLowerCase s : forall gap,
  split_from gap (JsString.toLowerCase s)
  = map JsString.toLowerCase (split_from gap s).
Proof.
  induction s as [|c s IH]; intros gap; simpl; [reflexivity|].
  rewrite lower_unit_space. destruct (JsString.is_space c).
  - destruct gap; simpl; now rewrite IH.
  - rewrite IH. now destruct (split_from false s).
Qed.

Lemma searchTerms_words query :
  searchTerms query = map JsString.toLowerCase (SearchProps.words query).
Proof.
  unfold searchTerms, SearchProps.words, split_spaces.
  rewrite split_from_toLowerCase.
  induction (split_from false query) as [|piece pieces IH]; simpl;
    [reflexivity|].
  rewrite IH. now destruct piece.
Qed.

(** A contract matches the terms of a query exactly when every word of
    the query occurs in its searched text, case ignored. *)
Lemma matches_mentions_all query c :
  matches (searchTerms query) c = true <-> SearchProps.mentions_all query c.
Proof.
  unfold matches, SearchProps.mentions_all. rewrite searchTerms_words.
  rewrite forallb_forall, Forall_forall. split.
  - intros H w Hw. apply occurs_lower, includes_occurs.
    apply (H (JsString.toLowerCase w)). now apply in_map.
  - intros H term Hterm. apply in_map_iff in Hterm as (w & <- & Hw).
    apply includes_occurs. apply (occurs_lower w (SearchProps.searched_text c)).
    now apply H.
Qed.

(** [searchContracts] keeps, in their order, exactly the contracts in
    whose text every word of the query occurs, case ignored, over text
    of the characters U+0000 to U+00FF; a blank query keeps them all.
    Searching the result of one search with a second query is the same
    as searching once with both queries put together: the terms are
    joined by AND, and the order of two searches does not matter. *)
Theorem searchContracts_composes :
  forall (contracts : list ProcurementContract) (q1 q2 : string),
    (exists keep : ProcurementContract -> bool,
        (forall c, keep c = true <-> SearchProps.mentions_all q1 c)
        /\ searchContracts contracts q1 = filter keep contracts)
    /\ Spec.Subseq (searchContracts contracts q1) contracts
    /\ (JsString.trim q1 = EmptyString -> searchContracts contracts q1 = contracts)
    /\ Forall (fun c =>
                 Forall (fun term =>
                           JsString.includes term (searchableText c) = true)
                        (searchTerms q1))
              (searchContracts contracts q1)
    /\ searchContracts (searchContracts contracts q1) q2
       = searchContracts contracts (q1 ++ " " ++ q2)
    /\ searchContracts (searchContracts contracts q1) q2
       = searchContracts (searchContracts contracts q2) q1.
Proof.
  intros contracts q1 q2. rewrite !searchContracts_is_filter.
  split.
  { exists (matches (searchTerms q1)). split; [|reflexivity].
    intros c. apply matches_mentions_all. }
  split; [apply filter_subseq|]. split; [|split; [|split]].
  - intros Hblank. apply trim_blank, blank_no_terms in Hblank.
    rewrite Hblank. apply filter_everything.
  - apply Forall_forall. intros c Hc. apply filter_In in Hc as [_ Hm].
    apply Forall_forall. intros term Hterm.
    unfold matches in Hm. rewrite forallb_forall in Hm. now apply Hm.
  - rewrite filter_twice, searchTerms_append. apply filter_ext.
    intros c. unfold matches. now rewrite forallb_app.
  - rewrite !filter_twice. apply filter_ext. intros c. apply andb_comm.
Qed.

(** The theorem at work: a blank query keeps both contracts, and two
    searches in a row are one search for both terms. *)
Lemma searchContracts_composes_witness :
  searchContracts [SearchSamples.road_contract; SearchSamples.vaccine_contract] "  "
  = [SearchSamples.road_contract; SearchSamples.vaccine_contract]
  /\ searchContracts
       (searchContracts [SearchSamples.road_contract; SearchSamples.vaccine_contract] "ACME")
       "manila"
     = [SearchSamples.vaccine_contract]
  /\ searchContracts [SearchSamples.road_contract; SearchSamples.vaccine_contract]
                     "ACME manila"
     = [SearchSamples.vaccine_contract].
Proof.
  destruct (searchContracts_composes
              [SearchSamples.road_contract; SearchSamples.vaccine_contract] "  " "x")
    as (_ & _ & Hblank & _).
  destruct (searchContracts_composes
              [SearchSamples.road_contract; SearchSamples.vaccine_contract] "ACME" "manila")
    as (_ & _ & _ & _ & Hboth & _).
  split; [exact (Hblank eq_refl)|]. split.
  - rewrite Hboth. reflexivity.
  - reflexivity.
Defined.

End ContractSearchFacts.
